(** * Qumulo GCP provisioner: a shallow embedding of [provision.py] and
      [firestore_vm.py]

    The development follows the two scripts under
    [compute/module/sub-modules/qprovisioner/scripts]:

    - [PyStr]: the Python string operations the scripts use
      ([split], [join], [strip], [isdigit], [int], [in], [replace]);
    - the pure helpers [vercomp], [serialize_list_for_firestore],
      [deserialize_list_from_firestore];
    - a monad [M] of commands over a [World] (the Firestore database and the
      trace of everything the script asked of the outside), in which
      [run_command], the Firestore client and the cluster operations are
      written the way the Python code is;
    - the properties of the planner, the executor, the survey and the
      status log.

    A Python [str] is a [string] whose characters are the code points below
    256; the character classes below are Python's on that range.  Calls to
    [logging] have no counterpart here. *)

From Stdlib Require Import ZArith List String Ascii Bool Lia.
From Stdlib Require Import Numbers.DecimalString.
From stdpp Require Import gmap strings list fin_maps.

(* ===================================================================== *)
(** ** Python strings *)
(* ===================================================================== *)

Module PyStr.

(** [str.isspace] on one character: TAB..CR, FS..US, space, NEL, NBSP. *)
Definition isspace (c : ascii) : bool :=
  let n := nat_of_ascii c in
  (((9 <=? n) && (n <=? 13)) || ((28 <=? n) && (n <=? 32))
   || (n =? 133) || (n =? 160))%nat.

(** The decimal digits [0-9], the only characters [int] reads. *)
Definition isdecimal_char (c : ascii) : bool :=
  let n := nat_of_ascii c in ((48 <=? n) && (n <=? 57))%nat.

(** [str.isdigit] on one character: the decimal digits and the
    superscripts two, three and one (178, 179, 185). *)
Definition isdigit_char (c : ascii) : bool :=
  let n := nat_of_ascii c in
  isdecimal_char c || ((n =? 178) || (n =? 179) || (n =? 185))%nat.

Fixpoint forallb_str (p : ascii -> bool) (s : string) : bool :=
  match s with
  | EmptyString => true
  | String c r => p c && forallb_str p r
  end.

Fixpoint existsb_str (p : ascii -> bool) (s : string) : bool :=
  match s with
  | EmptyString => false
  | String c r => p c || existsb_str p r
  end.

(** Truthiness of a string: [bool(s)]. *)
Definition nonempty (s : string) : bool :=
  match s with EmptyString => false | _ => true end.

(** [s.isdigit()]: at least one character and all of them digits. *)
Definition isdigit (s : string) : bool :=
  nonempty s && forallb_str isdigit_char s.

(** Removal of the leading, then of the trailing characters of a class. *)
Fixpoint lstrip_by (p : ascii -> bool) (s : string) : string :=
  match s with
  | EmptyString => EmptyString
  | String c r => if p c then lstrip_by p r else s
  end.

Fixpoint rstrip_by (p : ascii -> bool) (s : string) : string :=
  match s with
  | EmptyString => EmptyString
  | String c r =>
      match rstrip_by p r with
      | EmptyString => if p c then EmptyString else String c EmptyString
      | r' => String c r'
      end
  end.

Definition strip_by (p : ascii -> bool) (s : string) : string :=
  rstrip_by p (lstrip_by p s).

(** [s.strip()] *)
Definition strip (s : string) : string := strip_by isspace s.

(** [s.strip(chars)] *)
Definition strip_chars (chars : string) (s : string) : string :=
  strip_by (fun c => existsb_str (Ascii.eqb c) chars) s.

(** [s.split(sep)] for a one-character separator: never the empty list. *)
Fixpoint split (sep : ascii) (s : string) : list string :=
  match s with
  | EmptyString => [EmptyString]
  | String c r =>
      if Ascii.eqb c sep then EmptyString :: split sep r
      else match split sep r with
           | h :: t => String c h :: t
           | [] => [String c EmptyString]
           end
  end.

(** [sep.join(items)] *)
Fixpoint join (sep : string) (items : list string) : string :=
  match items with
  | [] => EmptyString
  | [x] => x
  | x :: rest => x +:+ sep +:+ join sep rest
  end.

(** [needle in hay] *)
Fixpoint contains (needle hay : string) : bool :=
  String.prefix needle hay
  || match hay with
     | EmptyString => false
     | String _ r => contains needle r
     end.

(** [s.replace(old, new)] for a non-empty [old]: the occurrences are
    taken from the left and do not overlap; [skip] counts the characters
    of an occurrence still to be dropped. *)
Fixpoint replace_from (skip : nat) (old new s : string) : string :=
  match s with
  | EmptyString => EmptyString
  | String c r =>
      match skip with
      | S k => replace_from k old new r
      | O =>
          if String.prefix old s
          then new +:+ replace_from (String.length old - 1) old new r
          else String c (replace_from 0 old new r)
      end
  end.

Definition replace (old new s : string) : string := replace_from 0 old new s.

(** [re.sub(r'[^...]', '', s)]: keep the characters of the class. *)
Fixpoint keep (p : ascii -> bool) (s : string) : string :=
  match s with
  | EmptyString => EmptyString
  | String c r => if p c then String c (keep p r) else keep p r
  end.

Definition digit_value (c : ascii) : Z := Z.of_nat (nat_of_ascii c - 48).

(** The digits of an integer literal: decimal digits, single underscores
    allowed between two digits. [after_digit] tells whether the
    character before was a digit. *)
Fixpoint int_digits (after_digit : bool) (acc : Z) (s : string) : option Z :=
  match s with
  | EmptyString => if after_digit then Some acc else None
  | String c r =>
      if isdecimal_char c then int_digits true (10 * acc + digit_value c) r
      else if Ascii.eqb c "_"%char && after_digit then int_digits false acc r
      else None
  end.

(** [int(s)]: surrounding whitespace, an optional sign, then the digits;
    [None] is Python's [ValueError].  (CPython's limit on the number of
    digits of a literal is not part of the model.) *)
Definition int (s : string) : option Z :=
  match strip s with
  | String "+"%char r => int_digits false 0 r
  | String "-"%char r => option_map Z.opp (int_digits false 0 r)
  | t => int_digits false 0 t
  end.

(** [str(n)] for an integer. *)
Definition of_Z (n : Z) : string := NilZero.string_of_int (Z.to_int n).
Definition of_nat (n : nat) : string := of_Z (Z.of_nat n).

End PyStr.

(* ===================================================================== *)
(** ** Exceptions and results *)
(* ===================================================================== *)

(** The exceptions the scripts can raise. [TimeoutExpired] is
    [subprocess.TimeoutExpired], which [run_command] does not convert. *)
Inductive exn : Type :=
  | ProvisioningError (msg : string)
  | TimeoutExpired (cmd : string)
  | ValueError
  | IndexError.

(** The outcome of a computation: a value, an exception, or a loop that is
    still polling when the fuel given to it runs out. *)
Inductive result (A : Type) : Type :=
  | Ok (a : A)
  | Raise (e : exn)
  | Diverge.
Arguments Ok {A} a.
Arguments Raise {A} e.
Arguments Diverge {A}.

Definition rbind {A B : Type} (r : result A) (k : A -> result B) : result B :=
  match r with
  | Ok a => k a
  | Raise e => Raise e
  | Diverge => Diverge
  end.

Declare Scope py_scope.
Delimit Scope py_scope with py.
Notation "'let?' x ':=' r 'in' k" := (rbind r (fun x => k))
  (at level 10, x name, r at level 100, k at level 200) : py_scope.
Open Scope py_scope.

(** [l[i]] *)
Definition index {A : Type} (l : list A) (i : nat) : result A :=
  match nth_error l i with
  | Some x => Ok x
  | None => Raise IndexError
  end.

(** [int(s)] as a computation. *)
Definition int_of (s : string) : result Z :=
  match PyStr.int s with
  | Some n => Ok n
  | None => Raise ValueError
  end.

(* ===================================================================== *)
(** ** [vercomp] *)
(* ===================================================================== *)

(** The loop [for i in range(max_len)] of [vercomp]. *)
Fixpoint vercomp_loop (range : list nat) (v1_parts v2_parts : list string)
  : result Z :=
  match range with
  | [] => Ok 0%Z
  | i :: range' =>
      let? p1 := index v1_parts i in
      let? v1_num := (if PyStr.isdigit p1 then int_of p1 else Ok 0%Z) in
      let? p2 := index v2_parts i in
      let? v2_num := (if PyStr.isdigit p2 then int_of p2 else Ok 0%Z) in
      if (v1_num >? v2_num)%Z then Ok 2%Z
      else if (v1_num <? v2_num)%Z then Ok 1%Z
      else vercomp_loop range' v1_parts v2_parts
  end.

(** Returns 0 if equal, 1 if [version1 < version2], 2 if
    [version1 > version2]. *)
Definition vercomp (version1 version2 : string) : result Z :=
  if String.eqb version1 version2 then Ok 0%Z
  else
    let v1_parts := PyStr.split "."%char version1 in
    let v2_parts := PyStr.split "."%char version2 in
    let max_len := Nat.max (length v1_parts) (length v2_parts) in
    let v1_parts := v1_parts ++ repeat "0" (max_len - length v1_parts) in
    let v2_parts := v2_parts ++ repeat "0" (max_len - length v2_parts) in
    vercomp_loop (seq 0 max_len) v1_parts v2_parts.

(* ===================================================================== *)
(** ** The list encoding *)
(* ===================================================================== *)

Definition serialize_list_for_firestore (items : list string) : string :=
  match items with
  | [] => ""
  | _ => PyStr.join "," items
  end.

Definition deserialize_list_from_firestore (value : string) : list string :=
  if negb (PyStr.nonempty value) || String.eqb value "null" then []
  else map PyStr.strip (PyStr.split ","%char value).

(* ===================================================================== *)
(** ** The outside world *)
(* ===================================================================== *)

(** What [subprocess.run] reports for a command: it exited with a return
    code and some standard output, or it was still running at the
    timeout. *)
Inductive proc_outcome : Type :=
  | Exited (returncode : Z) (stdout : string)
  | TimedOut.

Inductive month : Type :=
  Jan | Feb | Mar | Apr | May | Jun | Jul | Aug | Sep | Oct | Nov | Dec.

Record datetime : Type := {
  dt_month : month;
  dt_day : nat;
  dt_hour : nat;
  dt_minute : nat;
  dt_second : nat
}.

(** A field of a Firestore document, as the REST API presents it.  (The
    number of a [doubleValue] is carried as its text.) *)
Inductive field_value : Type :=
  | StringValue (s : string)
  | IntegerValue (s : string)
  | DoubleValue (s : string)
  | OtherValue.

(** A document is addressed by
    [projects/<project>/databases/<database>/documents/<collection>/<key>]. *)
Abbreviation doc_path := (string * string * string * string)%type (only parsing).

Inductive http_method : Type := GET | PATCH.

(** Everything the scripts ask of the outside, in the order they ask. *)
Inductive event : Type :=
  | Run (cmd : string)
  | Request (method : http_method) (path : doc_path)
            (body : option (gmap string field_value))
  | Sleep (seconds : nat)
  | ReadClock.

(** The environment answers the [n]-th interaction of a run: what a shell
    command does, whether a Firestore request gets its answer, what time it
    is. *)
Record Env : Type := {
  shell : nat -> string -> proc_outcome;
  http_ok : nat -> bool;
  clock : nat -> datetime
}.

(** The state a run acts on: the Firestore database and the trace of the
    interactions so far. *)
Record World : Type := {
  db : gmap doc_path (gmap string field_value);
  trace : list event
}.

Definition log_event (ev : event) (w : World) : World :=
  {| db := db w; trace := trace w ++ [ev] |}.

Definition set_db (d : gmap doc_path (gmap string field_value)) (w : World)
  : World :=
  {| db := d; trace := trace w |}.

(** The time of the next interaction. *)
Definition tick (w : World) : nat := length (trace w).

(* ===================================================================== *)
(** ** The monad of commands *)
(* ===================================================================== *)

Definition M (A : Type) : Type := World -> result A * World.

Definition ret {A : Type} (a : A) : M A := fun w => (Ok a, w).

Definition raise {A : Type} (e : exn) : M A := fun w => (Raise e, w).

Definition diverge {A : Type} : M A := fun w => (Diverge, w).

Definition bind {A B : Type} (m : M A) (k : A -> M B) : M B :=
  fun w =>
    match m w with
    | (Ok a, w') => k a w'
    | (Raise e, w') => (Raise e, w')
    | (Diverge, w') => (Diverge, w')
    end.

(** A pure computation that may raise, run as a command. *)
Definition lift {A : Type} (r : result A) : M A := fun w => (r, w).

(** [try: body  except ProvisioningError: handler] *)
Definition try_except_ProvisioningError {A : Type} (body handler : M A) : M A :=
  fun w =>
    match body w with
    | (Raise (ProvisioningError _), w') => handler w'
    | other => other
    end.

Notation "'let*' x ':=' m 'in' k" := (bind m (fun x => k))
  (at level 10, x name, m at level 100, k at level 200) : py_scope.
Notation "'let*' ' p ':=' m 'in' k" :=
  (bind m (fun x => match x with p => k end))
  (at level 10, p strict pattern, m at level 100, k at level 200) : py_scope.
Notation "m ';;;' k" := (bind m (fun _ => k))
  (at level 100, k at level 200, right associativity) : py_scope.

(** The double quote and the line feed. *)
Definition dquote : string := String (ascii_of_nat 34) EmptyString.
Definition LF : ascii := ascii_of_nat 10.

(** [x in items] for a list of strings. *)
Definition mem (x : string) (items : list string) : bool :=
  existsb (String.eqb x) items.

(** [items[:n]] and [items[n:]]; a negative [n] counts from the end. *)
Definition slice_bound {A : Type} (items : list A) (n : Z) : nat :=
  if (n <? 0)%Z then Z.to_nat (Z.of_nat (length items) + n) else Z.to_nat n.

Definition slice_to {A : Type} (items : list A) (n : Z) : list A :=
  firstn (slice_bound items n) items.

Definition slice_from {A : Type} (items : list A) (n : Z) : list A :=
  skipn (slice_bound items n) items.

Section Commands.

Variable env : Env.

(** [time.sleep(seconds)] *)
Definition sleep (seconds : nat) : M unit :=
  fun w => (Ok tt, log_event (Sleep seconds) w).

(** [datetime.now()] *)
Definition datetime_now : M datetime :=
  fun w => (Ok (clock env (tick w)), log_event ReadClock w).

(** [run_command(cmd, timeout, check)]: the result carries the return code
    and the standard output.  A command that fails under [check] raises
    [ProvisioningError]; one that reaches its timeout raises
    [TimeoutExpired]; without a timeout a command that never ends keeps the
    script waiting. *)
Definition run_command (cmd : string) (timeout : option nat) (check : bool)
  : M (Z * string) :=
  fun w =>
    let w' := log_event (Run cmd) w in
    match shell env (tick w) cmd with
    | Exited returncode stdout =>
        if check && negb (returncode =? 0)%Z
        then (Raise (ProvisioningError
                       ("Command failed with exit code "
                        +:+ PyStr.of_Z returncode +:+ ": " +:+ cmd)), w')
        else (Ok (returncode, stdout), w')
    | TimedOut =>
        match timeout with
        | Some _ => (Raise (TimeoutExpired cmd), w')
        | None => (Diverge, w')
        end
    end.

Definition gcloud_command (args : string) : M (Z * string) :=
  run_command ("gcloud " +:+ args) (Some 300) true.

Definition qq_command (args host : string) : M (Z * string) :=
  run_command ("./qq --host " +:+ host +:+ " " +:+ args) (Some 300) true.

(** [json.dumps] of a string that needs no escape. *)
Definition json_str (s : string) : string := dquote +:+ s +:+ dquote.

Definition set_qfsd_log_level (qq_host level : string) : M unit :=
  let json_data :=
    "{" +:+ json_str "level" +:+ ": " +:+ json_str level +:+ ", "
    +:+ json_str "reset" +:+ ": false}" in
  let cmd := "echo '" +:+ json_data +:+ "' | ./qq --host " +:+ qq_host
             +:+ " raw PUT /v1/conf/log/module/%2F" in
  run_command cmd None true ;;; ret tt.

(* --------------------------------------------------------------------- *)
(** *** [firestore_vm.py]: [FirestoreVMClient] *)
(* --------------------------------------------------------------------- *)

Definition access_token_cmd : string := "gcloud auth print-access-token --quiet".

(** [_get_access_token]: [None] when the command fails or times out. *)
Definition _get_access_token : M (option string) :=
  fun w =>
    (Ok match shell env (tick w) access_token_cmd with
        | Exited returncode stdout =>
            if (returncode =? 0)%Z then Some (PyStr.strip stdout) else None
        | TimedOut => None
        end,
     log_event (Run access_token_cmd) w).

(** The Firestore service, as [_make_request] sees it: a [GET] answers the
    document's fields, or nothing when the document does not exist; a
    [PATCH] without update mask stores the fields it is given in place of
    the document's; a request that does not get its answer leaves the
    database as it is. *)
Definition send_request (method : http_method) (path : doc_path)
    (data : option (gmap string field_value))
  : M (option (gmap string field_value)) :=
  fun w =>
    let w' := log_event (Request method path data) w in
    if http_ok env (tick w) then
      match method with
      | GET => (Ok (db w !! path), w')
      | PATCH =>
          let fields := default ∅ data in
          (Ok (Some fields), set_db (<[path := fields]> (db w)) w')
      end
    else (Ok None, w').

Definition _make_request (path : doc_path) (method : http_method)
    (data : option (gmap string field_value))
  : M (option (gmap string field_value)) :=
  let* token := _get_access_token in
  match token with
  | Some (String _ _) => send_request method path data
  | _ => ret None
  end.

Definition get_token (project database collection : string) : option string :=
  if PyStr.nonempty project && PyStr.nonempty database
     && PyStr.nonempty collection
  then Some (project +:+ ":" +:+ database +:+ ":" +:+ collection)
  else None.

(** The value [get_document] extracts from a response. *)
Definition field_text (key : string) (response : gmap string field_value)
  : string :=
  match response !! key with
  | Some (StringValue s) => s
  | Some (IntegerValue s) => s
  | Some (DoubleValue s) => s
  | _ => "null"
  end.

Definition get_document (key project database collection token : string)
  : M string :=
  if negb (PyStr.nonempty key && PyStr.nonempty project
           && PyStr.nonempty database && PyStr.nonempty collection
           && PyStr.nonempty token)
  then ret "null"
  else
    let* response :=
      _make_request (project, database, collection, key) GET None in
    match response with
    | None => ret "null"
    | Some fields => ret (field_text key fields)
    end.

Definition put_document (key project database collection token value : string)
  : M bool :=
  if negb (PyStr.nonempty key && PyStr.nonempty project
           && PyStr.nonempty database && PyStr.nonempty collection
           && PyStr.nonempty token)
  then ret false
  else
    let doc_data : gmap string field_value := {[ key := StringValue value ]} in
    let* response :=
      _make_request (project, database, collection, key) PATCH (Some doc_data) in
    ret (bool_decide (response ≠ None)).

(** [strftime("%b")] and the two-digit fields of [strftime("%d_%H%M%S")]. *)
Definition month_abbr (m : month) : string :=
  match m with
  | Jan => "Jan" | Feb => "Feb" | Mar => "Mar" | Apr => "Apr"
  | May => "May" | Jun => "Jun" | Jul => "Jul" | Aug => "Aug"
  | Sep => "Sep" | Oct => "Oct" | Nov => "Nov" | Dec => "Dec"
  end.

Definition two_digits (n : nat) : string :=
  if (n <? 10)%nat then "0" +:+ PyStr.of_nat n else PyStr.of_nat n.

(** The field key of a status update, e.g. [Jul_17_123456]. *)
Definition status_field_key (now : datetime) : string :=
  let month := month_abbr (dt_month now) in
  let timestamp := two_digits (dt_day now) +:+ "_" +:+ two_digits (dt_hour now)
                   +:+ two_digits (dt_minute now) +:+ two_digits (dt_second now) in
  month +:+ "_" +:+ timestamp.

Definition put_status_with_timestamp
    (project database collection token status : string) : M bool :=
  if negb (PyStr.nonempty project && PyStr.nonempty database
           && PyStr.nonempty collection && PyStr.nonempty token
           && PyStr.nonempty status)
  then ret false
  else
    let* now := datetime_now in
    let field_key := status_field_key now in
    let path := (project, database, collection, "last-run-status") in
    let* existing_doc := _make_request path GET None in
    let fields : gmap string field_value :=
      match existing_doc with
      | None => {[ "last-run-status" := StringValue "null" ]}
      | Some existing_fields => existing_fields
      end in
    let fields := <[ field_key := StringValue status ]> fields in
    let* response := _make_request path PATCH (Some fields) in
    ret (bool_decide (response ≠ None)).

End Commands.

(* ===================================================================== *)
(** ** [provision.py]: configuration and the Firestore manager *)
(* ===================================================================== *)

Record ProvisioningConfig : Type := {
  cluster_name : string;
  admin_password : string;
  project : string;
  region : string;
  zone : string;
  gcs_bucket : string;
  subnet_cidr : string;
  node_ips : list string;
  node1_ip : string;
  fault_domain_ids : list string;
  instance_ids : list string;
  target_node_count : Z;
  number_azs : Z;
  cluster_persistent_storage_type : string;
  bucket_names : list string;
  bucket_uris : list string;
  capacity_limit : Z;
  floating_ips : list string;
  cluster_secrets_name : string;
  storage_deployment_name : string;
  deployment_unique_name : string;
  existing_deployment_name : option string;
  functions_gcs_prefix : string;
  install_gcs_prefix : string;
  qumulo_package_url : string;
  tun_refill_iops : Z;
  tun_refill_bps : Z;
  tun_disk_count : Z;
  flash_tput : Z;
  flash_iops : Z;
  replace_cluster : bool;
  dev_environment : bool;
  def_password : string
}.

(** The operation flags of the planner. *)
Record OperationFlags : Type := {
  new_cluster : bool;
  add_nodes : bool;
  remove_nodes : bool;
  add_buckets : bool;
  increase_limit : bool
}.

Definition set_new_cluster (b : bool) (f : OperationFlags) : OperationFlags :=
  {| new_cluster := b; add_nodes := add_nodes f; remove_nodes := remove_nodes f;
     add_buckets := add_buckets f; increase_limit := increase_limit f |}.

Definition set_add_nodes (b : bool) (f : OperationFlags) : OperationFlags :=
  {| new_cluster := new_cluster f; add_nodes := b; remove_nodes := remove_nodes f;
     add_buckets := add_buckets f; increase_limit := increase_limit f |}.

Definition set_remove_nodes (b : bool) (f : OperationFlags) : OperationFlags :=
  {| new_cluster := new_cluster f; add_nodes := add_nodes f; remove_nodes := b;
     add_buckets := add_buckets f; increase_limit := increase_limit f |}.

Definition set_add_buckets (b : bool) (f : OperationFlags) : OperationFlags :=
  {| new_cluster := new_cluster f; add_nodes := add_nodes f;
     remove_nodes := remove_nodes f; add_buckets := b;
     increase_limit := increase_limit f |}.

Definition set_increase_limit (b : bool) (f : OperationFlags) : OperationFlags :=
  {| new_cluster := new_cluster f; add_nodes := add_nodes f;
     remove_nodes := remove_nodes f; add_buckets := add_buckets f;
     increase_limit := b |}.

Section Provisioner.

Variable env : Env.

(** The methods of [FirestoreManager].  Its client keeps no state and its
    token is a function of the configuration, so a manager is its
    configuration; the functions below that take a [firestore] argument in
    the script take only [config] here. *)
Section FirestoreManager.

Variable config : ProvisioningConfig.

Definition gettoken : M string :=
  match get_token (project config) (storage_deployment_name config)
                  (deployment_unique_name config) with
  | Some (String c s) => ret (String c s)
  | _ => raise (ProvisioningError "Failed to get Firestore token")
  end.

(** [deployment_name if deployment_name else self.config.deployment_unique_name] *)
Definition deployment_or_current (deployment_name : option string) : string :=
  match deployment_name with
  | Some (String c s) => String c s
  | _ => deployment_unique_name config
  end.

Definition fs_get (key : string) (deployment_name : option string) : M string :=
  let* token := gettoken in
  let deployment := deployment_or_current deployment_name in
  get_document env key (project config) (storage_deployment_name config)
               deployment token.

Definition fs_put (key value : string) : M unit :=
  let* token := gettoken in
  let* success :=
    put_document env key (project config) (storage_deployment_name config)
                 (deployment_unique_name config) token value in
  if negb success
  then raise (ProvisioningError ("Failed to put Firestore document: " +:+ key))
  else ret tt.

Definition update_status (status : string) : M unit :=
  let* token := gettoken in
  let* success :=
    put_status_with_timestamp env (project config)
      (storage_deployment_name config) (deployment_unique_name config)
      token status in
  if negb success
  then raise (ProvisioningError ("Failed to put Firestore status: " +:+ status))
  else ret tt.

Definition put_list (key : string) (value_list : list string) : M unit :=
  let serialized_value := serialize_list_for_firestore value_list in
  fs_put key serialized_value.

Definition get_list (key : string) (deployment_name : option string)
  : M (list string) :=
  let* value := fs_get key deployment_name in
  ret (deserialize_list_from_firestore value).

End FirestoreManager.

(* --------------------------------------------------------------------- *)
(** *** Quorum: waiting, version, survey, membership *)
(* --------------------------------------------------------------------- *)

(** [wait_for_active_quorum]: one unit of fuel per poll. *)
Fixpoint wait_for_active_quorum (fuel : nat) (qq_host : string) : M unit :=
  match fuel with
  | O => diverge
  | S fuel' =>
      let* formed :=
        try_except_ProvisioningError
          (let* result := qq_command env "node_state_get" qq_host in
           ret (PyStr.contains "ACTIVE" (snd result)))
          (ret false) in
      if formed then ret tt
      else sleep 5 ;;; wait_for_active_quorum fuel' qq_host
  end.

(** The characters [0-9.] *)
Definition digit_or_dot (c : ascii) : bool :=
  PyStr.isdecimal_char c || Ascii.eqb c "."%char.

Definition lines_with (needle stdout : string) : list string :=
  List.filter (PyStr.contains needle) (PyStr.split LF stdout).

Definition get_qfsd_version (node_ip : string) : M string :=
  let* result := qq_command env "version" node_ip in
  match lines_with "revision_id" (snd result) with
  | line :: _ => ret (PyStr.keep digit_or_dot line)
  | [] => ret ""
  end.

(** The probing loop of [survey_cluster_state]. *)
Fixpoint survey_nodes (node_ips : list string) (out_quorum in_quorum : nat)
  : M (nat * nat) :=
  match node_ips with
  | [] => ret (out_quorum, in_quorum)
  | node_ip :: rest =>
      let* counts :=
        try_except_ProvisioningError
          (let* result := qq_command env "node_state_get" node_ip in
           let quorum_status := snd result in
           if negb (PyStr.contains "ACTIVE" quorum_status)
           then ret (S out_quorum, in_quorum)
           else ret (out_quorum, S in_quorum))
          (ret (S out_quorum, in_quorum)) in
      survey_nodes rest (fst counts) (snd counts)
  end.

(** Returns [(out_quorum_count, in_quorum_count, qfsd_version)]. *)
Definition survey_cluster_state (config : ProvisioningConfig)
  : M (nat * nat * string) :=
  update_status config "Checking quorum state and boot status" ;;;
  let* counts := survey_nodes (node_ips config) 0 0 in
  let* qfsd_version :=
    match node_ips config with
    | first :: _ => get_qfsd_version first
    | [] => ret ""
    end in
  update_status config
    ("Qumulo Core version " +:+ qfsd_version +:+ " running on all "
     +:+ PyStr.of_nat (length (node_ips config)) +:+ " nodes.") ;;;
  fs_put config "installed-version" qfsd_version ;;;
  let* org_ver := fs_get config "creation-version" None in
  (if String.eqb org_ver "null"
   then fs_put config "creation-version" qfsd_version
   else ret tt) ;;;
  ret (fst counts, snd counts, qfsd_version).

Definition validate_qfsd_version (config : ProvisioningConfig)
    (qfsd_version : string) : M unit :=
  let* check_version := lift (vercomp qfsd_version "7.6.0") in
  if (check_version =? 0)%Z || (check_version =? 2)%Z then ret tt
  else
    let error_msg :=
      "Qumulo Core version >= 7.6.0 is required. If this is a new deployment destroy it and redeploy with >= 7.6.0." in
    update_status config error_msg ;;;
    raise (ProvisioningError error_msg).

(** [re.search(r'"<key>":\s*\[(.*?)\]', text)]: group 1 of the leftmost
    match.  After the key and any whitespace comes a bracket, then the
    shortest run of characters other than a line feed that a closing
    bracket follows. *)
Fixpoint up_to_bracket (s : string) : option string :=
  match s with
  | EmptyString => None
  | String c r =>
      if Ascii.eqb c "]"%char then Some EmptyString
      else if Ascii.eqb c LF then None
      else option_map (String c) (up_to_bracket r)
  end.

Fixpoint drop_prefix (p s : string) : option string :=
  match p, s with
  | EmptyString, _ => Some s
  | String a p', String b s' => if Ascii.eqb a b then drop_prefix p' s' else None
  | String _ _, EmptyString => None
  end.

Definition match_node_list_here (key text : string) : option string :=
  match drop_prefix (dquote +:+ key +:+ dquote +:+ ":") text with
  | Some after_key =>
      match PyStr.lstrip_by PyStr.isspace after_key with
      | String c r => if Ascii.eqb c "["%char then up_to_bracket r else None
      | EmptyString => None
      end
  | None => None
  end.

Fixpoint search_node_list (key text : string) : option string :=
  match match_node_list_here key text with
  | Some group => Some group
  | None =>
      match text with
      | EmptyString => None
      | String _ r => search_node_list key r
      end
  end.

Definition parse_node_list (m : option string) : list string :=
  match m with
  | Some group =>
      match PyStr.strip group with
      | EmptyString => []
      | nodes_str =>
          map (PyStr.strip_chars (" " +:+ dquote)) (PyStr.split ","%char nodes_str)
      end
  | None => []
  end.

(** Returns [(all_nodes, in_nodes, out_nodes)]. *)
Definition parse_quorum_details (qq_host : string)
  : M (list string * list string * list string) :=
  let* result := qq_command env "raw GET /v1/debug/quorum/details" qq_host in
  let quorum_details := snd result in
  let all_nodes := parse_node_list (search_node_list "all_nodes" quorum_details) in
  let in_nodes := parse_node_list (search_node_list "in_nodes" quorum_details) in
  let out_nodes := parse_node_list (search_node_list "out_nodes" quorum_details) in
  ret (all_nodes, in_nodes, out_nodes).

(* --------------------------------------------------------------------- *)
(** *** Determine cluster operations *)
(* --------------------------------------------------------------------- *)

Definition no_operations : OperationFlags :=
  {| new_cluster := false; add_nodes := false; remove_nodes := false;
     add_buckets := false; increase_limit := false |}.

(** [[x for x in items if x not in seen]] *)
Definition not_in (seen items : list string) : list string :=
  List.filter (fun x => negb (mem x seen)) items.

Definition nonempty_list {A : Type} (l : list A) : bool :=
  match l with [] => false | _ => true end.

Definition determine_cluster_operations (config : ProvisioningConfig)
    (out_quorum in_quorum : nat) (admin_password : string)
  : M OperationFlags :=
  let operation_flags := no_operations in
  let* operation_flags :=
    if ((out_quorum =? length (node_ips config))%nat && (in_quorum =? 0)%nat)
    then
      update_status config "All nodes out of quorum, NEW CLUSTER" ;;;
      ret (set_new_cluster true operation_flags)
    else
      let qq_host := node1_ip config in
      qq_command env ("login -u admin -p " +:+ admin_password) qq_host ;;;
      let* '(all_nodes, in_nodes, out_nodes) := parse_quorum_details qq_host in
      if (0 <? length out_nodes)%nat then
        let error_msg :=
          "One or more nodes out of quorum in existing cluster. Rectify and restart the provisioner instance." in
        update_status config error_msg ;;;
        raise (ProvisioningError error_msg)
      else
        update_status config
          "Cluster in full quorum, checking for node add, node delete, and bucket additions" ;;;
        let* old_ips_str := fs_get config "node-ips" None in
        if negb (String.eqb old_ips_str "null") then
          let* old_ips := get_list config "node-ips" None in
          let new_ips := node_ips config in
          let upgrade_ips := not_in old_ips new_ips in
          let* operation_flags :=
            match upgrade_ips with
            | first :: _ =>
                let* add_ver := get_qfsd_version first in
                let* current_ver := fs_get config "installed-version" None in
                if negb (String.eqb current_ver add_ver) then
                  let error_msg :=
                    "Cluster is running ver=" +:+ current_ver
                    +:+ ". Can't add nodes running ver=" +:+ add_ver
                    +:+ ". Update CloudFormation or Terraform with previous node count to remove these nodes. Exiting." in
                  update_status config error_msg ;;;
                  raise (ProvisioningError error_msg)
                else ret (set_add_nodes true operation_flags)
            | [] => ret operation_flags
            end in
          if (Z.of_nat (length old_ips) >? target_node_count config)%Z
          then ret (set_remove_nodes true operation_flags)
          else ret operation_flags
        else ret operation_flags in
  let* '(old_bucket_names, old_bucket_uris, old_limit_str) :=
    if replace_cluster config then
      let* names := get_list config "bucket-names" (existing_deployment_name config) in
      let* uris := get_list config "bucket-uris" (existing_deployment_name config) in
      let* limit := fs_get config "soft-capacity-limit" (existing_deployment_name config) in
      ret (names, uris, limit)
    else
      let* names := get_list config "bucket-names" None in
      let* uris := get_list config "bucket-uris" None in
      let* limit := fs_get config "soft-capacity-limit" None in
      ret (names, uris, limit) in
  if negb (new_cluster operation_flags) || replace_cluster config then
    let new_bucket_names := not_in old_bucket_names (bucket_names config) in
    let new_bucket_uris := not_in old_bucket_uris (bucket_uris config) in
    let operation_flags :=
      if nonempty_list new_bucket_names && nonempty_list new_bucket_uris
      then set_add_buckets true operation_flags
      else operation_flags in
    if negb (String.eqb old_limit_str "null") then
      let* old_limit := lift (int_of old_limit_str) in
      if (capacity_limit config >? old_limit)%Z
         && negb (add_buckets operation_flags)
      then ret (set_increase_limit true operation_flags)
      else ret operation_flags
    else ret operation_flags
  else ret operation_flags.

(* --------------------------------------------------------------------- *)
(** *** Execute cluster operations *)
(* --------------------------------------------------------------------- *)

Definition bucket_list_cmd (bucket_name project : string) : string :=
  "storage objects list " +:+ dquote +:+ "gs://" +:+ bucket_name +:+ dquote
  +:+ " --project=" +:+ project +:+ " --limit=1".

Fixpoint check_buckets_empty (bucket_names : list string) (project : string)
  : M unit :=
  match bucket_names with
  | [] => ret tt
  | bucket_name :: rest =>
      let* result := gcloud_command env (bucket_list_cmd bucket_name project) in
      if PyStr.nonempty (PyStr.strip (snd result)) then
        raise (ProvisioningError
                 ("Bucket " +:+ bucket_name
                  +:+ " NOT EMPTY. Empty bucket(s) and restart provisioner."))
      else check_buckets_empty rest project
  end.

(** Returns [(product_type, s3_type, cnq_type)]. *)
Definition get_storage_product_type (storage_type : string)
  : result (string * string * string) :=
  if String.eqb storage_type "hot_gcs_std"
  then Ok ("ACTIVE_WITH_STANDARD_STORAGE", "Standard", "Hot")
  else if String.eqb storage_type "hot_s3_int"
  then Ok ("ACTIVE_WITH_INTELLIGENT_STORAGE", "Intelligent Tiering", "Hot")
  else if String.eqb storage_type "cold_s3_ia"
  then Ok ("ARCHIVE_WITH_IA_STORAGE", "Infrequent Access", "Cold")
  else if String.eqb storage_type "cold_s3_gir"
  then Ok ("ARCHIVE_WITH_GIR_STORAGE", "Glacier Instant Retrieval", "Cold")
  else Raise (ProvisioningError ("Unknown storage type: " +:+ storage_type)).

(** [[f"{ip},{fid}" for ip, fid in zip(ips, fault_ids)]] *)
Definition pair_ips_fault_ids (ips fault_ids : list string) : list string :=
  map (fun p => fst p +:+ "," +:+ snd p) (combine ips fault_ids).

Definition membership_cmd (node_ips_fault_ids : list string) : string :=
  "modify_object_backed_cluster_membership --node-ips-and-fault-domains "
  +:+ PyStr.join " " node_ips_fault_ids +:+ " --batch".

(** [[line for line in stdout.split('\n') if needle in line][0]] *)
Definition first_line_with (needle stdout : string) : result string :=
  index (lines_with needle stdout) 0.

(** The cluster id of a [node_state_get] answer. *)
Definition cluster_uuid (stdout : string) : result string :=
  let? cluster_id_line := first_line_with "cluster_id" stdout in
  Ok (PyStr.strip
        (PyStr.replace "," ""
           (PyStr.replace dquote ""
              (PyStr.replace "cluster_id: " "" cluster_id_line)))).

Definition calc_refill_bps (refill_bps disk_count : Z) : Z :=
  if negb (refill_bps =? 0)%Z && negb (disk_count =? 0)%Z
  then ((refill_bps * 1000 * 1000) / 4096)%Z
  else 0%Z.

Definition tunable_cmd (qq_host tunable : string) (value : Z) : string :=
  let json_data :=
    "{" +:+ json_str "configured_value" +:+ ": "
    +:+ json_str (PyStr.of_Z value) +:+ "}" in
  "echo '" +:+ json_data +:+ "' | ./qq --host " +:+ qq_host
  +:+ " raw PUT /v1/tunables/" +:+ tunable.

Definition apply_cluster_tunables (fuel : nat) (qq_host : string)
    (refill_iops refill_bps disk_count : Z) : M unit :=
  (if negb (refill_iops =? 0)%Z
   then run_command env
          (tunable_cmd qq_host "credit_accountant_io_refill_iops" refill_iops)
          None true ;;; ret tt
   else ret tt) ;;;
  (if negb (refill_bps =? 0)%Z && negb (disk_count =? 0)%Z
   then run_command env
          (tunable_cmd qq_host "credit_accountant_th_refill_blocks_per_second"
             ((refill_bps * 1000 * 1000) / 4096)%Z)
          None true ;;; ret tt
   else ret tt) ;;;
  qq_command env "raw POST /v1/debug/quorum/abandon-series" qq_host ;;;
  wait_for_active_quorum fuel qq_host ;;;
  set_qfsd_log_level env qq_host "QM_LOG_INFO".

(** The loop that records the node id of each address. *)
Fixpoint get_node_ids (ips : list string) (existing_node_ids : list string)
  : M (list string) :=
  match ips with
  | [] => ret existing_node_ids
  | node_ip :: rest =>
      let* result := qq_command env "node_state_get" node_ip in
      let* node_id_line := lift (first_line_with "node_id" (snd result)) in
      let qid := PyStr.keep digit_or_dot node_id_line in
      get_node_ids rest (existing_node_ids ++ [qid])
  end.

(** The loop [while True] that validates a membership change: one unit of
    fuel per poll. *)
Fixpoint wait_for_membership (fuel : nat) (qq_host : string) (expected : nat)
  : M unit :=
  match fuel with
  | O => diverge
  | S fuel' =>
      let* '(all_nodes, in_nodes, out_nodes) := parse_quorum_details qq_host in
      if ((length all_nodes =? expected) && (length in_nodes =? expected)
          && (length out_nodes =? 0))%nat
      then ret tt
      else sleep 10 ;;; wait_for_membership fuel' qq_host expected
  end.

(** The loop [for node_id in all_nodes] that verifies the old nodes are
    gone. *)
Fixpoint check_old_nodes_removed (all_nodes old_node_ids : list string)
  : M unit :=
  match all_nodes with
  | [] => ret tt
  | node_id :: rest =>
      if mem node_id old_node_ids then
        raise (ProvisioningError
                 ("**Old Node: " +:+ node_id
                  +:+ " not removed from quorum. Slack Support."))
      else check_old_nodes_removed rest old_node_ids
  end.

Section Executor.

(** The two floating-IP procedures read and write [network_config.json];
    no property below depends on what they do, and they stand here as
    arbitrary commands. *)
Variable apply_initial_floating_ips : ProvisioningConfig -> string -> M unit.
Variable maybe_update_floating_ips : ProvisioningConfig -> string -> M unit.

Definition create_cluster_cmd (config : ProvisioningConfig)
    (product_type : string) (mod_bucket_uris node_ips_fault_ids : list string)
  : string :=
  PyStr.join " "
    [ "create_object_backed_cluster";
      "--cluster-name " +:+ cluster_name config;
      "--admin-password " +:+ def_password config;
      "--accept-eula";
      "--host-instance-id " +:+ admin_password config;
      "--product-type " +:+ product_type;
      "--object-storage-uris " +:+ PyStr.join " " mod_bucket_uris;
      "--node-ips-and-fault-domains " +:+ PyStr.join " " node_ips_fault_ids;
      "--usable-capacity-clamp " +:+ PyStr.of_Z (capacity_limit config) ].

Definition create_new_cluster (fuel : nat) (config : ProvisioningConfig)
    (admin_password : string) : M unit :=
  check_buckets_empty (bucket_names config) (project config) ;;;
  let* '(product_type, s3_type, cnq_type) :=
    lift (get_storage_product_type (cluster_persistent_storage_type config)) in
  let mod_bucket_uris := bucket_uris config in
  let node_ips_fault_ids :=
    pair_ips_fault_ids (node_ips config) (fault_domain_ids config) in
  let qq_host := node1_ip config in
  update_status config
    ("Forming first quorum and configuring cluster with "
     +:+ PyStr.of_nat (length (node_ips config)) +:+ " nodes") ;;;
  set_qfsd_log_level env qq_host "QM_LOG_DEBUG" ;;;
  qq_command env
    (create_cluster_cmd config product_type mod_bucket_uris node_ips_fault_ids)
    qq_host ;;;
  wait_for_active_quorum fuel qq_host ;;;
  let* result := qq_command env "node_state_get" qq_host in
  let* uuid := lift (cluster_uuid (snd result)) in
  fs_put config "uuid" uuid ;;;
  put_list config "node-ips" (node_ips config) ;;;
  put_list config "fault-domain-ids" (fault_domain_ids config) ;;;
  put_list config "instance-ids" (instance_ids config) ;;;
  fs_put config "creation-number-azs" (PyStr.of_Z (number_azs config)) ;;;
  fs_put config "cluster-type" ("CNQ=" +:+ cnq_type +:+ ", GCS=" +:+ s3_type) ;;;
  fs_put config "soft-capacity-limit" (PyStr.of_Z (capacity_limit config)) ;;;
  put_list config "bucket-uris" (bucket_uris config) ;;;
  put_list config "bucket-names" (bucket_names config) ;;;
  fs_put config "new-cluster" "false" ;;;
  update_status config "Setting cluster tunables if necessary" ;;;
  qq_command env ("login -u admin -p " +:+ def_password config) qq_host ;;;
  apply_cluster_tunables fuel qq_host (tun_refill_iops config)
    (tun_refill_bps config) (tun_disk_count config) ;;;
  fs_put config "tunables"
    ("refill_IOPS=" +:+ PyStr.of_Z (tun_refill_iops config) +:+ ", refill_Bps="
     +:+ PyStr.of_Z (calc_refill_bps (tun_refill_bps config) (tun_disk_count config))) ;;;
  (if dev_environment config
   then qq_command env
          "set_monitoring_conf --mq-host staging-missionq.qumulo.com --nexus-host api.spog-staging.qumulo.com"
          qq_host ;;; ret tt
   else ret tt) ;;;
  apply_initial_floating_ips config qq_host ;;;
  qq_command env
    ("change_password -o " +:+ def_password config +:+ " -p " +:+ admin_password)
    qq_host ;;;
  ret tt.

Definition replace_existing_cluster (fuel : nat) (config : ProvisioningConfig)
    (admin_password : string) : M unit :=
  let node_ips_fault_ids :=
    pair_ips_fault_ids (node_ips config) (fault_domain_ids config) in
  let* existing_ips_str := fs_get config "node-ips" (existing_deployment_name config) in
  let* existing_ids_str := fs_get config "instance-ids" (existing_deployment_name config) in
  if String.eqb existing_ips_str "null" || String.eqb existing_ids_str "null"
  then raise (ProvisioningError
                "Cannot find existing cluster information for replacement")
  else
    let* existing_ips := get_list config "node-ips" (existing_deployment_name config) in
    let* existing_ids := get_list config "instance-ids" (existing_deployment_name config) in
    update_status config
      "Detected CLUSTER REPLACE. Updating firewall rule for internode communication and detecting node IDs." ;;;
    (match existing_deployment_name config with
     | Some (String c s) =>
         let existing := String c s in
         let tags := existing +:+ "-cluster," +:+ deployment_unique_name config
                     +:+ "-cluster" in
         gcloud_command env
           ("compute firewall-rules update " +:+ existing +:+ "-qumulo-internal "
            +:+ "--source-tags=" +:+ tags +:+ " --target-tags=" +:+ tags) ;;;
         ret tt
     | _ => ret tt
     end) ;;;
    let* existing_node_ids := get_node_ids (map PyStr.strip existing_ips) [] in
    update_status config
      "Detected CLUSTER REPLACE. Adding new nodes to quorum and removing existing nodes from quorum." ;;;
    let* first_ip := lift (index existing_ips 0) in
    qq_command env ("login -u admin -p " +:+ admin_password) (PyStr.strip first_ip) ;;;
    set_qfsd_log_level env (PyStr.strip first_ip) "QM_LOG_DEBUG" ;;;
    qq_command env (membership_cmd node_ips_fault_ids) (PyStr.strip first_ip) ;;;
    update_status config "Detected CLUSTER REPLACE. Waiting for new quorum." ;;;
    let qq_host := node1_ip config in
    wait_for_active_quorum fuel qq_host ;;;
    sleep 1 ;;;
    update_status config
      "Detected CLUSTER REPLACE. New quorum formed, validating node replacement." ;;;
    wait_for_membership fuel qq_host (length (node_ips config)) ;;;
    let* '(all_nodes, _, _) := parse_quorum_details qq_host in
    check_old_nodes_removed all_nodes existing_node_ids ;;;
    update_status config
      ("Detected CLUSTER REPLACE: New quorum formed with "
       +:+ PyStr.of_nat (length (node_ips config)) +:+ " new nodes as requested.") ;;;
    let* existing_cluster_type :=
      fs_get config "cluster-type" (existing_deployment_name config) in
    let* result := qq_command env "node_state_get" qq_host in
    let* uuid := lift (cluster_uuid (snd result)) in
    fs_put config "uuid" uuid ;;;
    put_list config "node-ips" (node_ips config) ;;;
    put_list config "fault-domain-ids" (fault_domain_ids config) ;;;
    put_list config "instance-ids" (instance_ids config) ;;;
    fs_put config "creation-number-azs" (PyStr.of_Z (number_azs config)) ;;;
    fs_put config "cluster-type" existing_cluster_type ;;;
    fs_put config "soft-capacity-limit" (PyStr.of_Z (capacity_limit config)) ;;;
    put_list config "bucket-uris" (bucket_uris config) ;;;
    put_list config "bucket-names" (bucket_names config) ;;;
    qq_command env ("login -u admin -p " +:+ admin_password) qq_host ;;;
    maybe_update_floating_ips config qq_host ;;;
    fs_put config "new-cluster" "false" ;;;
    update_status config "Setting cluster tunables if necessary" ;;;
    apply_cluster_tunables fuel qq_host (tun_refill_iops config)
      (tun_refill_bps config) (tun_disk_count config).

Definition add_cluster_nodes (fuel : nat) (config : ProvisioningConfig)
    (upgrade_ips : list string) : M unit :=
  let qq_host := node1_ip config in
  update_status config
    ("Quorum already exists, adding nodes to cluster ("
     +:+ PyStr.of_nat (length (node_ips config)) +:+ " total nodes)") ;;;
  let node_ips_fault_ids :=
    pair_ips_fault_ids (node_ips config) (fault_domain_ids config) in
  qq_command env (membership_cmd node_ips_fault_ids) qq_host ;;;
  let* first_new := lift (index upgrade_ips 0) in
  wait_for_active_quorum fuel first_new ;;;
  put_list config "node-ips" (node_ips config) ;;;
  put_list config "fault-domain-ids" (fault_domain_ids config) ;;;
  put_list config "instance-ids" (instance_ids config).

Definition remove_cluster_nodes (fuel : nat) (config : ProvisioningConfig)
  : M unit :=
  let qq_host := node1_ip config in
  let* existing_node_ids := get_node_ids (node_ips config) [] in
  let remaining_node_ips := slice_to (node_ips config) (target_node_count config) in
  let remaining_fault_ids :=
    slice_to (fault_domain_ids config) (target_node_count config) in
  let remaining_instance_ids :=
    slice_to (instance_ids config) (target_node_count config) in
  let removed_node_ids := slice_from existing_node_ids (target_node_count config) in
  update_status config
    ("Quorum already exists, removing "
     +:+ PyStr.of_nat (length removed_node_ids) +:+ " nodes from cluster.") ;;;
  let node_ips_fault_ids :=
    pair_ips_fault_ids remaining_node_ips remaining_fault_ids in
  qq_command env (membership_cmd node_ips_fault_ids) qq_host ;;;
  wait_for_active_quorum fuel qq_host ;;;
  update_status config "New quorum formed, validating node removal." ;;;
  wait_for_membership fuel qq_host (length remaining_node_ips) ;;;
  let* '(all_nodes, _, _) := parse_quorum_details qq_host in
  check_old_nodes_removed all_nodes removed_node_ids ;;;
  update_status config
    ("New quorum formed with " +:+ PyStr.of_nat (length remaining_node_ips)
     +:+ " node(s) as requested.") ;;;
  put_list config "node-ips" remaining_node_ips ;;;
  put_list config "fault-domain-ids" remaining_fault_ids ;;;
  put_list config "instance-ids" remaining_instance_ids.

Definition update_capacity_limit (fuel : nat) (config : ProvisioningConfig)
    (qq_host : string) : M unit :=
  update_status config
    ("Increasing soft capacity limit to " +:+ PyStr.of_Z (capacity_limit config)) ;;;
  set_qfsd_log_level env qq_host "QM_LOG_DEBUG" ;;;
  qq_command env
    ("capacity_clamp_set --clamp " +:+ PyStr.of_Z (capacity_limit config))
    qq_host ;;;
  wait_for_active_quorum fuel qq_host ;;;
  set_qfsd_log_level env qq_host "QM_LOG_INFO" ;;;
  fs_put config "soft-capacity-limit" (PyStr.of_Z (capacity_limit config)).

Definition add_object_buckets (fuel : nat) (config : ProvisioningConfig)
    (qq_host : string) : M unit :=
  let* '(old_bucket_names, old_bucket_uris) :=
    if replace_cluster config then
      let* names := get_list config "bucket-names" (existing_deployment_name config) in
      let* uris := get_list config "bucket-uris" (existing_deployment_name config) in
      ret (names, uris)
    else
      let* names := get_list config "bucket-names" None in
      let* uris := get_list config "bucket-uris" None in
      ret (names, uris) in
  let new_bucket_names := not_in old_bucket_names (bucket_names config) in
  let new_bucket_uris := not_in old_bucket_uris (bucket_uris config) in
  check_buckets_empty new_bucket_names (project config) ;;;
  update_status config
    ("Adding " +:+ PyStr.of_nat (length new_bucket_names)
     +:+ " buckets for persistent storage") ;;;
  set_qfsd_log_level env qq_host "QM_LOG_DEBUG" ;;;
  qq_command env
    ("add_object_storage_uris --uris " +:+ PyStr.join " " new_bucket_uris)
    qq_host ;;;
  put_list config "bucket-uris" (bucket_uris config) ;;;
  put_list config "bucket-names" (bucket_names config) ;;;
  update_capacity_limit fuel config qq_host.

(** The loop of [update_instance_labels]; [i] is the index of the first
    instance of [ids]. *)
Fixpoint label_instances (config : ProvisioningConfig) (i : nat)
    (ids : list string) : M unit :=
  match ids with
  | [] => ret tt
  | instance_id :: rest =>
      let node_number := PyStr.of_nat (i + 1) in
      let* node_ip := lift (index (node_ips config) i) in
      let* result := qq_command env "node_state_get" node_ip in
      let* node_id_line := lift (first_line_with "node_id" (snd result)) in
      let qid := PyStr.keep PyStr.isdecimal_char node_id_line in
      let* zone_result :=
        gcloud_command env
          ("compute instances list --project=" +:+ project config
           +:+ " --filter=" +:+ dquote +:+ "id=( " +:+ instance_id +:+ " )" +:+ dquote
           +:+ " --format=" +:+ dquote +:+ "value(zone)" +:+ dquote) in
      let zone := PyStr.strip (snd zone_result) in
      let node_name := deployment_unique_name config +:+ "-node-" +:+ node_number in
      gcloud_command env
        ("compute instances update " +:+ node_name
         +:+ " --project=" +:+ project config +:+ " --zone=" +:+ zone
         +:+ " --update-labels=name=" +:+ node_name +:+ "-" +:+ qid) ;;;
      label_instances config (S i) rest
  end.

Definition update_instance_labels (config : ProvisioningConfig) : M unit :=
  update_status config "Updating cluster labels" ;;;
  label_instances config 0 (instance_ids config).

Definition execute_cluster_operations (fuel : nat) (config : ProvisioningConfig)
    (admin_password : string) (operation_flags : OperationFlags) : M unit :=
  let qq_host := node1_ip config in
  (if new_cluster operation_flags then
     if replace_cluster config
     then replace_existing_cluster fuel config admin_password
     else create_new_cluster fuel config admin_password
   else
     if replace_cluster config then
       let error_msg := "Cannot replace cluster without deploying new nodes" in
       raise (ProvisioningError error_msg)
     else
       qq_command env ("login -u admin -p " +:+ admin_password) qq_host ;;;
       (if add_nodes operation_flags then
          let* old_ips := get_list config "node-ips" None in
          let upgrade_ips := not_in old_ips (node_ips config) in
          add_cluster_nodes fuel config upgrade_ips
        else ret tt) ;;;
       (if remove_nodes operation_flags
        then remove_cluster_nodes fuel config
        else ret tt) ;;;
       maybe_update_floating_ips config qq_host) ;;;
  (if increase_limit operation_flags
   then update_capacity_limit fuel config qq_host
   else ret tt) ;;;
  (if add_buckets operation_flags
   then add_object_buckets fuel config qq_host
   else ret tt) ;;;
  update_instance_labels config.

End Executor.

End Provisioner.

(* ===================================================================== *)
(** ** Definitions used by the statements *)
(* ===================================================================== *)

(** The number [vercomp] reads a field of a version as:
    [int(p) if p.isdigit() else 0]; [None] when [int] refuses the field. *)
Definition field_number (p : string) : option Z :=
  if PyStr.isdigit p then PyStr.int p else Some 0%Z.

(** A list of numbers padded with zeros to length [n]. *)
Definition zero_pad (n : nat) (fields : list Z) : list Z :=
  fields ++ repeat 0%Z (n - length fields).

(** The comparison of two versions given as lists of numbers of the same
    length, field by field from the left, with the result codes of
    [vercomp]: 0 equal, 1 less, 2 greater. *)
Fixpoint compare_fields (a b : list Z) : Z :=
  match a, b with
  | x :: a', y :: b' =>
      if (x >? y)%Z then 2%Z
      else if (x <? y)%Z then 1%Z
      else compare_fields a' b'
  | _, _ => 0%Z
  end.

(** An item the list encoding can carry: no comma, no whitespace at either
    end. *)
Definition first_char_ok (p : ascii -> bool) (s : string) : bool :=
  match s with
  | EmptyString => true
  | String c _ => negb (p c)
  end.

Fixpoint last_char_ok (p : ascii -> bool) (s : string) : bool :=
  match s with
  | EmptyString => true
  | String c EmptyString => negb (p c)
  | String _ r => last_char_ok p r
  end.

Definition encodable (x : string) : bool :=
  negb (PyStr.existsb_str (Ascii.eqb ","%char) x)
  && first_char_ok PyStr.isspace x && last_char_ok PyStr.isspace x.

(** The interaction by which [check_buckets_empty] lists a bucket. *)
Definition bucket_listing (project bucket_name : string) : event :=
  Run ("gcloud " +:+ bucket_list_cmd bucket_name project).

(** A listing that shows an object: the command succeeded and printed
    something other than whitespace. *)
Definition lists_an_object (o : proc_outcome) : bool :=
  match o with
  | Exited returncode stdout =>
      (returncode =? 0)%Z && PyStr.nonempty (PyStr.strip stdout)
  | TimedOut => false
  end.

(** The documents other than the status logs are the same in two worlds. *)
Definition same_docs (w w' : World) : Prop :=
  forall path : doc_path,
    snd path <> "last-run-status" -> db w' !! path = db w !! path.

(** A command that leaves every document other than a status log as it
    found it, however it ends. *)
Definition keeps_docs {A : Type} (m : M A) : Prop :=
  forall w r w', m w = (r, w') -> same_docs w w'.

(** The text persisted under a key, as [get_document] would read it. *)
Definition stored_text (d : gmap doc_path (gmap string field_value))
    (project database collection key : string) : string :=
  match d !! (project, database, collection, key) with
  | Some fields => field_text key fields
  | None => "null"
  end.

Definition persisted (config : ProvisioningConfig) (w : World) (key : string)
    (deployment_name : option string) : string :=
  stored_text (db w) (project config) (storage_deployment_name config)
    (deployment_or_current config deployment_name) key.

(** The access token is granted and the requests get their answers,
    whenever the script asks. *)
Definition token_granted (o : proc_outcome) : bool :=
  match o with
  | Exited returncode stdout =>
      (returncode =? 0)%Z && PyStr.nonempty (PyStr.strip stdout)
  | TimedOut => false
  end.

Definition store_reachable (env : Env) : Prop :=
  forall t, token_granted (shell env t access_token_cmd) = true
            /\ http_ok env t = true.

(** A command all of whose results satisfy [P]. *)
Definition returns {A : Type} (m : M A) (P : A -> Prop) : Prop :=
  forall w a w', m w = (Ok a, w') -> P a.

(** The deployment whose record the planner diffs buckets and capacity
    against. *)
Definition diff_source (config : ProvisioningConfig) : option string :=
  if replace_cluster config then existing_deployment_name config else None.

(** The addresses whose node ids [remove_cluster_nodes] records as removed:
    those of [config.node_ips] beyond [remaining_node_ips]. *)
Definition removed_node_ips (config : ProvisioningConfig) : list string :=
  slice_from (node_ips config) (target_node_count config).

(** The command by which the survey probes a node. *)
Definition probe_cmd (node_ip : string) : string :=
  "./qq --host " +:+ node_ip +:+ " " +:+ "node_state_get".

(** A probe that reports the node in quorum: the command succeeded and its
    output holds ACTIVE. *)
Definition reports_active (o : proc_outcome) : bool :=
  match o with
  | Exited returncode stdout =>
      (returncode =? 0)%Z && PyStr.contains "ACTIVE" stdout
  | TimedOut => false
  end.

(** The number of nodes of [ips] whose probe reports ACTIVE when the nodes
    are probed in order from time [t] on. *)
Fixpoint active_probes (env : Env) (t : nat) (ips : list string) : nat :=
  match ips with
  | [] => 0
  | ip :: rest =>
      (if reports_active (shell env t (probe_cmd ip)) then 1 else 0)
      + active_probes env (S t) rest
  end.

(** The world after the commands [cmds] have been run in order. *)
Definition after_commands (cmds : list string) (w : World) : World :=
  {| db := db w; trace := trace w ++ map Run cmds |}.

(** The steps of [remove_cluster_nodes] before it verifies the removal:
    the node ids are recorded, the membership change is issued and the
    script waits until the membership has the remaining size.  The result
    is [removed_node_ids]. *)
Definition removal_converged (env : Env) (fuel : nat)
    (config : ProvisioningConfig) : M (list string) :=
  let qq_host := node1_ip config in
  let* existing_node_ids := get_node_ids env (node_ips config) [] in
  let remaining_node_ips := slice_to (node_ips config) (target_node_count config) in
  let remaining_fault_ids :=
    slice_to (fault_domain_ids config) (target_node_count config) in
  let removed_node_ids := slice_from existing_node_ids (target_node_count config) in
  update_status env config
    ("Quorum already exists, removing "
     +:+ PyStr.of_nat (length removed_node_ids) +:+ " nodes from cluster.") ;;;
  qq_command env
    (membership_cmd (pair_ips_fault_ids remaining_node_ips remaining_fault_ids))
    qq_host ;;;
  wait_for_active_quorum env fuel qq_host ;;;
  update_status env config "New quorum formed, validating node removal." ;;;
  wait_for_membership env fuel qq_host (length remaining_node_ips) ;;;
  ret removed_node_ids.

(** The steps of [remove_cluster_nodes] after the verification. *)
Definition removal_persisted (env : Env) (config : ProvisioningConfig) : M unit :=
  let remaining_node_ips := slice_to (node_ips config) (target_node_count config) in
  update_status env config
    ("New quorum formed with " +:+ PyStr.of_nat (length remaining_node_ips)
     +:+ " node(s) as requested.") ;;;
  put_list env config "node-ips" remaining_node_ips ;;;
  put_list env config "fault-domain-ids"
    (slice_to (fault_domain_ids config) (target_node_count config)) ;;;
  put_list env config "instance-ids"
    (slice_to (instance_ids config) (target_node_count config)).

(** The verification both operations end their membership change with:
    the membership is parsed once more and none of [old_node_ids] may be
    in it. *)
Definition verify_then (env : Env) (qq_host : string)
    (old_node_ids : list string) (finish : M unit) : M unit :=
  let* '(all_nodes, _, _) := parse_quorum_details env qq_host in
  check_old_nodes_removed all_nodes old_node_ids ;;;
  finish.

(** The steps of [replace_existing_cluster] before it verifies the swap.
    The result is [existing_node_ids], the ids of the nodes of the prior
    deployment. *)
Definition replacement_converged (env : Env) (fuel : nat)
    (config : ProvisioningConfig) (admin_password : string) : M (list string) :=
  let node_ips_fault_ids :=
    pair_ips_fault_ids (node_ips config) (fault_domain_ids config) in
  let* existing_ips_str :=
    fs_get env config "node-ips" (existing_deployment_name config) in
  let* existing_ids_str :=
    fs_get env config "instance-ids" (existing_deployment_name config) in
  if String.eqb existing_ips_str "null" || String.eqb existing_ids_str "null"
  then raise (ProvisioningError
                "Cannot find existing cluster information for replacement")
  else
    let* existing_ips :=
      get_list env config "node-ips" (existing_deployment_name config) in
    let* existing_ids :=
      get_list env config "instance-ids" (existing_deployment_name config) in
    update_status env config
      "Detected CLUSTER REPLACE. Updating firewall rule for internode communication and detecting node IDs." ;;;
    (match existing_deployment_name config with
     | Some (String c s) =>
         let existing := String c s in
         let tags := existing +:+ "-cluster," +:+ deployment_unique_name config
                     +:+ "-cluster" in
         gcloud_command env
           ("compute firewall-rules update " +:+ existing +:+ "-qumulo-internal "
            +:+ "--source-tags=" +:+ tags +:+ " --target-tags=" +:+ tags) ;;;
         ret tt
     | _ => ret tt
     end) ;;;
    let* existing_node_ids := get_node_ids env (map PyStr.strip existing_ips) [] in
    update_status env config
      "Detected CLUSTER REPLACE. Adding new nodes to quorum and removing existing nodes from quorum." ;;;
    let* first_ip := lift (index existing_ips 0) in
    qq_command env ("login -u admin -p " +:+ admin_password) (PyStr.strip first_ip) ;;;
    set_qfsd_log_level env (PyStr.strip first_ip) "QM_LOG_DEBUG" ;;;
    qq_command env (membership_cmd node_ips_fault_ids) (PyStr.strip first_ip) ;;;
    update_status env config "Detected CLUSTER REPLACE. Waiting for new quorum." ;;;
    let qq_host := node1_ip config in
    wait_for_active_quorum env fuel qq_host ;;;
    sleep 1 ;;;
    update_status env config
      "Detected CLUSTER REPLACE. New quorum formed, validating node replacement." ;;;
    wait_for_membership env fuel qq_host (length (node_ips config)) ;;;
    ret existing_node_ids.

(** The steps of [replace_existing_cluster] after the verification. *)
Definition replacement_persisted (env : Env)
    (maybe_update_floating_ips : ProvisioningConfig -> string -> M unit)
    (fuel : nat) (config : ProvisioningConfig) (admin_password : string)
  : M unit :=
  let qq_host := node1_ip config in
  update_status env config
    ("Detected CLUSTER REPLACE: New quorum formed with "
     +:+ PyStr.of_nat (length (node_ips config)) +:+ " new nodes as requested.") ;;;
  let* existing_cluster_type :=
    fs_get env config "cluster-type" (existing_deployment_name config) in
  let* result := qq_command env "node_state_get" qq_host in
  let* uuid := lift (cluster_uuid (snd result)) in
  fs_put env config "uuid" uuid ;;;
  put_list env config "node-ips" (node_ips config) ;;;
  put_list env config "fault-domain-ids" (fault_domain_ids config) ;;;
  put_list env config "instance-ids" (instance_ids config) ;;;
  fs_put env config "creation-number-azs" (PyStr.of_Z (number_azs config)) ;;;
  fs_put env config "cluster-type" existing_cluster_type ;;;
  fs_put env config "soft-capacity-limit" (PyStr.of_Z (capacity_limit config)) ;;;
  put_list env config "bucket-uris" (bucket_uris config) ;;;
  put_list env config "bucket-names" (bucket_names config) ;;;
  qq_command env ("login -u admin -p " +:+ admin_password) qq_host ;;;
  maybe_update_floating_ips config qq_host ;;;
  fs_put env config "new-cluster" "false" ;;;
  update_status env config "Setting cluster tunables if necessary" ;;;
  apply_cluster_tunables env fuel qq_host (tun_refill_iops config)
    (tun_refill_bps config) (tun_disk_count config).

(** The membership-change commands of a trace, in order. *)
Definition membership_changes (events : list event) : list string :=
  flat_map (fun ev => match ev with
                      | Run cmd =>
                          if PyStr.contains "modify_object_backed_cluster_membership" cmd
                          then [cmd] else []
                      | _ => []
                      end) events.

(* ===================================================================== *)
(** ** Example deployments *)
(* ===================================================================== *)

Module Example.

(** A deployment of three nodes and one bucket. *)
Definition config : ProvisioningConfig := {|
  cluster_name := "cnq";
  admin_password := "temporary";
  project := "proj";
  region := "us-central1";
  zone := "us-central1-a";
  gcs_bucket := "utility-bucket";
  subnet_cidr := "10.0.0.0/24";
  node_ips := ["10.0.0.1"; "10.0.0.2"; "10.0.0.3"];
  node1_ip := "10.0.0.1";
  fault_domain_ids := ["1"; "2"; "3"];
  instance_ids := ["101"; "102"; "103"];
  target_node_count := 3;
  number_azs := 1;
  cluster_persistent_storage_type := "hot_gcs_std";
  bucket_names := ["bucket-1"];
  bucket_uris := ["gs://bucket-1/"];
  capacity_limit := 1099511627776;
  floating_ips := [];
  cluster_secrets_name := "cnq-secrets";
  storage_deployment_name := "state";
  deployment_unique_name := "deploy-b";
  existing_deployment_name := None;
  functions_gcs_prefix := "functions/";
  install_gcs_prefix := "install/";
  qumulo_package_url := "https://example.invalid/qumulo.deb";
  tun_refill_iops := 0;
  tun_refill_bps := 0;
  tun_disk_count := 0;
  flash_tput := 0;
  flash_iops := 0;
  replace_cluster := false;
  dev_environment := false;
  def_password := "Admin123!"
|}.

Definition with_nodes (ips fault_ids ids : list string) (count : Z)
    (c : ProvisioningConfig) : ProvisioningConfig := {|
  cluster_name := cluster_name c; admin_password := admin_password c;
  project := project c; region := region c; zone := zone c;
  gcs_bucket := gcs_bucket c; subnet_cidr := subnet_cidr c;
  node_ips := ips; node1_ip := node1_ip c; fault_domain_ids := fault_ids;
  instance_ids := ids; target_node_count := count; number_azs := number_azs c;
  cluster_persistent_storage_type := cluster_persistent_storage_type c;
  bucket_names := bucket_names c; bucket_uris := bucket_uris c;
  capacity_limit := capacity_limit c; floating_ips := floating_ips c;
  cluster_secrets_name := cluster_secrets_name c;
  storage_deployment_name := storage_deployment_name c;
  deployment_unique_name := deployment_unique_name c;
  existing_deployment_name := existing_deployment_name c;
  functions_gcs_prefix := functions_gcs_prefix c;
  install_gcs_prefix := install_gcs_prefix c;
  qumulo_package_url := qumulo_package_url c;
  tun_refill_iops := tun_refill_iops c; tun_refill_bps := tun_refill_bps c;
  tun_disk_count := tun_disk_count c; flash_tput := flash_tput c;
  flash_iops := flash_iops c; replace_cluster := replace_cluster c;
  dev_environment := dev_environment c; def_password := def_password c
|}.

(** The same deployment as the replacement of deployment [deploy-a], with
    a second bucket. *)
Definition replacing (c : ProvisioningConfig) : ProvisioningConfig := {|
  cluster_name := cluster_name c; admin_password := admin_password c;
  project := project c; region := region c; zone := zone c;
  gcs_bucket := gcs_bucket c; subnet_cidr := subnet_cidr c;
  node_ips := node_ips c; node1_ip := node1_ip c;
  fault_domain_ids := fault_domain_ids c; instance_ids := instance_ids c;
  target_node_count := target_node_count c; number_azs := number_azs c;
  cluster_persistent_storage_type := cluster_persistent_storage_type c;
  bucket_names := ["bucket-1"; "bucket-2"];
  bucket_uris := ["gs://bucket-1/"; "gs://bucket-2/"];
  capacity_limit := capacity_limit c; floating_ips := floating_ips c;
  cluster_secrets_name := cluster_secrets_name c;
  storage_deployment_name := storage_deployment_name c;
  deployment_unique_name := deployment_unique_name c;
  existing_deployment_name := Some "deploy-a";
  functions_gcs_prefix := functions_gcs_prefix c;
  install_gcs_prefix := install_gcs_prefix c;
  qumulo_package_url := qumulo_package_url c;
  tun_refill_iops := tun_refill_iops c; tun_refill_bps := tun_refill_bps c;
  tun_disk_count := tun_disk_count c; flash_tput := flash_tput c;
  flash_iops := flash_iops c; replace_cluster := true;
  dev_environment := dev_environment c; def_password := def_password c
|}.

Definition noon : datetime :=
  {| dt_month := Jul; dt_day := 17; dt_hour := 12; dt_minute := 34;
     dt_second := 56 |}.

(** An environment in which the store is reachable, the clock stands at
    [noon] and the other commands answer as [answer] says. *)
Definition env_of (answer : nat -> string -> proc_outcome) : Env := {|
  shell := fun t cmd =>
    if String.eqb cmd access_token_cmd then Exited 0 "ya29.token" else answer t cmd;
  http_ok := fun _ => true;
  clock := fun _ => noon
|}.

(** One document of the store: the field carries the document's key. *)
Definition doc (collection key value : string)
  : doc_path * gmap string field_value :=
  (("proj", "state", collection, key), {[ key := StringValue value ]}).

Definition world_of (docs : list (doc_path * gmap string field_value)) : World :=
  {| db := list_to_map docs; trace := [] |}.

(** The answers of a healthy cluster: every node is ACTIVE and reports the
    last field of its address as its node id, the version is 7.6.0 and the
    membership is [members], all in quorum. *)
Definition node_state (node_id : string) : string :=
  "node_id: " +:+ node_id +:+ String LF ("state: ACTIVE" +:+ String LF
  ("cluster_id: " +:+ dquote +:+ "5d2c-77aa" +:+ dquote)).

Definition quorum_details (members : string) : string :=
  "{" +:+ dquote +:+ "all_nodes" +:+ dquote +:+ ": [" +:+ members +:+ "], "
  +:+ dquote +:+ "in_nodes" +:+ dquote +:+ ": [" +:+ members +:+ "], "
  +:+ dquote +:+ "out_nodes" +:+ dquote +:+ ": []}".

Definition last_field (host : string) : string :=
  List.last (PyStr.split "."%char host) "".

(** The host a [qq] command line is addressed to. *)
Definition host_of (cmd : string) : string :=
  match PyStr.split " "%char cmd with
  | _ :: _ :: host :: _ => host
  | _ => ""
  end.

Definition healthy (members : string) (t : nat) (cmd : string) : proc_outcome :=
  if PyStr.contains "node_state_get" cmd
  then Exited 0 (node_state (last_field (host_of cmd)))
  else if PyStr.contains "quorum/details" cmd
  then Exited 0 (quorum_details members)
  else if PyStr.contains " version" cmd
  then Exited 0 ("revision_id: Qumulo Core 7.6.0")
  else Exited 0 "".

(** No node answers: every command other than the token's fails. *)
Definition unreachable (t : nat) (cmd : string) : proc_outcome := Exited 1 "".

(** A bucket listing shows an object; everything else is healthy. *)
Definition bucket_in_use (members : string) (t : nat) (cmd : string)
  : proc_outcome :=
  if PyStr.contains "storage objects list" cmd
  then Exited 0 "gs://bucket-1/data.bin"
  else healthy members t cmd.

(** The second node accepts the probe and never answers. *)
Definition hung (t : nat) (cmd : string) : proc_outcome :=
  if String.eqb cmd (probe_cmd "10.0.0.2") then TimedOut else healthy "" t cmd.

(** The store is reachable except for the interaction at time [t0]. *)
Definition env_losing (t0 : nat) : Env := {|
  shell := shell (env_of (healthy ""));
  http_ok := fun t => negb (t =? t0)%nat;
  clock := fun _ => noon
|}.

(** A status log that already holds one status. *)
Definition status_log : list (doc_path * gmap string field_value) :=
  [ (("proj", "state", "deploy-b", "last-run-status"),
     {[ "last-run-status" := StringValue "null";
        "Jul_16_101010" := StringValue "BOOTED. Internet up." ]}) ].

(** A deployment without floating IPs: the two procedures do nothing. *)
Definition no_floating_ips (c : ProvisioningConfig) (qq_host : string) : M unit :=
  ret tt.

(** The record of the running three-node cluster of deployment
    [collection]. *)
Definition cluster_record (collection limit : string)
  : list (doc_path * gmap string field_value) :=
  [ doc collection "node-ips" "10.0.0.1,10.0.0.2,10.0.0.3";
    doc collection "installed-version" "7.6.0";
    doc collection "bucket-names" "bucket-1";
    doc collection "bucket-uris" "gs://bucket-1/";
    doc collection "soft-capacity-limit" limit;
    doc collection "last-run-status" "null" ].

Definition four_nodes (count : Z) : ProvisioningConfig :=
  with_nodes ["10.0.0.1"; "10.0.0.2"; "10.0.0.3"; "10.0.0.4"]
    ["1"; "2"; "3"; "4"] ["101"; "102"; "103"; "104"] count config.

Definition three_nodes (count : Z) : ProvisioningConfig :=
  with_nodes ["10.0.0.1"; "10.0.0.2"; "10.0.0.3"]
    ["1"; "2"; "3"] ["101"; "102"; "103"] count config.

Definition only (new add remove buckets limit : bool) : OperationFlags :=
  {| new_cluster := new; add_nodes := add; remove_nodes := remove;
     add_buckets := buckets; increase_limit := limit |}.

End Example.

(* ===================================================================== *)
(** ** Further definitions used by the statements *)
(* ===================================================================== *)

From Stdlib Require DecimalPos.

(** The document of the current deployment's record kept under [key]. *)
Definition record_path (config : ProvisioningConfig) (key : string)
  : string * string * string * string :=
  (project config, storage_deployment_name config,
   deployment_unique_name config, key).

(** The configuration names its project, its database and its deployment,
    which is what [get_token] asks for. *)
Definition names_store (config : ProvisioningConfig) : bool :=
  PyStr.nonempty (project config)
  && PyStr.nonempty (storage_deployment_name config)
  && PyStr.nonempty (deployment_unique_name config).

(** A command whose interactions, however it ends, all satisfy [P]. *)
Definition emits {A : Type} (P : event -> Prop) (m : M A) : Prop :=
  forall w r w', m w = (r, w') ->
    exists events, trace w' = trace w ++ events /\ Forall P events.

(** The configuration [c] under another deployment name. *)
Definition with_deployment (name : string) (c : ProvisioningConfig)
  : ProvisioningConfig := {|
  cluster_name := cluster_name c; admin_password := admin_password c;
  project := project c; region := region c; zone := zone c;
  gcs_bucket := gcs_bucket c; subnet_cidr := subnet_cidr c;
  node_ips := node_ips c; node1_ip := node1_ip c;
  fault_domain_ids := fault_domain_ids c; instance_ids := instance_ids c;
  target_node_count := target_node_count c; number_azs := number_azs c;
  cluster_persistent_storage_type := cluster_persistent_storage_type c;
  bucket_names := bucket_names c; bucket_uris := bucket_uris c;
  capacity_limit := capacity_limit c; floating_ips := floating_ips c;
  cluster_secrets_name := cluster_secrets_name c;
  storage_deployment_name := storage_deployment_name c;
  deployment_unique_name := name;
  existing_deployment_name := existing_deployment_name c;
  functions_gcs_prefix := functions_gcs_prefix c;
  install_gcs_prefix := install_gcs_prefix c;
  qumulo_package_url := qumulo_package_url c;
  tun_refill_iops := tun_refill_iops c; tun_refill_bps := tun_refill_bps c;
  tun_disk_count := tun_disk_count c; flash_tput := flash_tput c;
  flash_iops := flash_iops c; replace_cluster := replace_cluster c;
  dev_environment := dev_environment c; def_password := def_password c
|}.

(** The status log of the current deployment. *)
Definition status_path (config : ProvisioningConfig)
  : string * string * string * string :=
  record_path config "last-run-status".

(** The reading of a status label back into the time it was made from. *)
Definition month_of_abbr (s : string) : option month :=
  if String.eqb s "Jan" then Some Jan else if String.eqb s "Feb" then Some Feb
  else if String.eqb s "Mar" then Some Mar else if String.eqb s "Apr" then Some Apr
  else if String.eqb s "May" then Some May else if String.eqb s "Jun" then Some Jun
  else if String.eqb s "Jul" then Some Jul else if String.eqb s "Aug" then Some Aug
  else if String.eqb s "Sep" then Some Sep else if String.eqb s "Oct" then Some Oct
  else if String.eqb s "Nov" then Some Nov else if String.eqb s "Dec" then Some Dec
  else None.

Definition two_digit_value (a b : ascii) : nat :=
  10 * (nat_of_ascii a - 48) + (nat_of_ascii b - 48).

Definition read_status_field_key (key : string) : option datetime :=
  match key with
  | String m1 (String m2 (String m3 (String _ (String d1 (String d2 (String _
      (String h1 (String h2 (String n1 (String n2 (String s1 (String s2
         EmptyString)))))))))))) =>
      match month_of_abbr (String m1 (String m2 (String m3 EmptyString))) with
      | Some m =>
          Some {| dt_month := m; dt_day := two_digit_value d1 d2;
                  dt_hour := two_digit_value h1 h2;
                  dt_minute := two_digit_value n1 n2;
                  dt_second := two_digit_value s1 s2 |}
      | None => None
      end
  | _ => None
  end.

(** A time whose day, hour, minute and second have at most two digits, as
    every time of the calendar has. *)
Definition two_digit_fields (now : datetime) : Prop :=
  dt_day now < 100 /\ dt_hour now < 100 /\ dt_minute now < 100
  /\ dt_second now < 100.

(** The result code of [vercomp] with its arguments exchanged. *)
Definition opposite (c : Z) : Z :=
  if (c =? 1)%Z then 2%Z else if (c =? 2)%Z then 1%Z else c.

(** The message [validate_qfsd_version] fails with. *)
Definition version_error_msg : string :=
  "Qumulo Core version >= 7.6.0 is required. If this is a new deployment destroy it and redeploy with >= 7.6.0.".

(** The longest literal CPython's [int] reads by default. *)
Definition int_max_str_digits : nat := 4300.

(** The failures of a command: every exception it raises satisfies [E]. *)
Definition raises_only {A : Type} (E : exn -> Prop) (m : M A) : Prop :=
  forall w e w', m w = (Raise e, w') -> E e.

(** A command that always ends, by a result or by an exception. *)
Definition never_hangs {A : Type} (m : M A) : Prop :=
  forall w w', m w <> (Diverge, w').

Definition is_ProvisioningError (e : exn) : Prop :=
  exists msg, e = ProvisioningError msg.

(** The failures of a command run with a timeout. *)
Definition is_command_failure (e : exn) : Prop :=
  (exists msg, e = ProvisioningError msg) \/ (exists cmd, e = TimeoutExpired cmd).

(** A probe that answers without reporting ACTIVE: the command failed, or
    its output does not hold ACTIVE. *)
Definition still_forming (o : proc_outcome) : bool :=
  match o with
  | Exited returncode stdout =>
      negb ((returncode =? 0)%Z && PyStr.contains "ACTIVE" stdout)
  | TimedOut => false
  end.

(** [k] polls that were followed by a sleep. *)
Definition poll_events (cmd : string) (seconds k : nat) : list event :=
  concat (repeat [Run cmd; Sleep seconds] k).

(** The world after the interactions [events]. *)
Definition after_events (events : list event) (w : World) : World :=
  {| db := db w; trace := trace w ++ events |}.

(** The command by which the membership of the quorum is read. *)
Definition details_cmd (qq_host : string) : string :=
  "./qq --host " +:+ qq_host +:+ " " +:+ "raw GET /v1/debug/quorum/details".

(** The membership a quorum-details answer shows has [expected] nodes, all
    of them in quorum. *)
Definition membership_settled (expected : nat) (quorum_details : string) : bool :=
  ((length (parse_node_list (search_node_list "all_nodes" quorum_details))
    =? expected)
   && (length (parse_node_list (search_node_list "in_nodes" quorum_details))
       =? expected)
   && (length (parse_node_list (search_node_list "out_nodes" quorum_details))
       =? 0))%nat.

(** A cluster whose nodes fail the probe before time [t0] and are healthy
    from then on. *)
Definition forming_until (t0 : nat) (t : nat) (cmd : string) : proc_outcome :=
  if PyStr.contains "node_state_get" cmd && (t <? t0)%nat
  then Exited 1 ""
  else Example.healthy "" t cmd.

(** A cluster whose membership shows [before] until time [t0] and [after]
    from then on. *)
Definition settling_at (t0 : nat) (before after : string) (t : nat) (cmd : string)
  : proc_outcome :=
  Example.healthy (if (t <? t0)%nat then before else after) t cmd.


(** A command that writes, of the documents other than the status logs,
    at most those of the current deployment's record under [keys],
    however it ends. *)
Definition writes_only (config : ProvisioningConfig) (keys : list string)
    {A : Type} (m : M A) : Prop :=
  forall w r w', m w = (r, w') ->
    forall path : doc_path,
      snd path <> "last-run-status" ->
      (forall key, In key keys -> path <> record_path config key) ->
      db w' !! path = db w !! path.

(** The command that logs in to the cluster. *)
Definition login_cmd (qq_host admin_password : string) : string :=
  "./qq --host " +:+ qq_host +:+ " " +:+ ("login -u admin -p " +:+ admin_password).

(** The command that asks a node for its version, and the version
    [get_qfsd_version] reads from its output. *)
Definition version_cmd (node_ip : string) : string :=
  "./qq --host " +:+ node_ip +:+ " " +:+ "version".

Definition version_of (stdout : string) : string :=
  match lines_with "revision_id" stdout with
  | line :: _ => PyStr.keep digit_or_dot line
  | [] => ""
  end.

Definition partial_quorum_msg : string :=
  "One or more nodes out of quorum in existing cluster. Rectify and restart the provisioner instance.".

(** The two phases of [determine_cluster_operations]: the membership
    (new cluster, or nodes to add and remove), then the buckets and the
    capacity limit. *)
Definition plan_membership (env : Env) (config : ProvisioningConfig)
    (out_quorum in_quorum : nat) (admin_password : string)
  : M OperationFlags :=
  let operation_flags := no_operations in
  if ((out_quorum =? length (node_ips config))%nat && (in_quorum =? 0)%nat)
  then
    update_status env config "All nodes out of quorum, NEW CLUSTER" ;;;
    ret (set_new_cluster true operation_flags)
  else
    let qq_host := node1_ip config in
    qq_command env ("login -u admin -p " +:+ admin_password) qq_host ;;;
    let* '(all_nodes, in_nodes, out_nodes) := parse_quorum_details env qq_host in
    if (0 <? length out_nodes)%nat then
      let error_msg :=
        "One or more nodes out of quorum in existing cluster. Rectify and restart the provisioner instance." in
      update_status env config error_msg ;;;
      raise (ProvisioningError error_msg)
    else
      update_status env config
        "Cluster in full quorum, checking for node add, node delete, and bucket additions" ;;;
      let* old_ips_str := fs_get env config "node-ips" None in
      if negb (String.eqb old_ips_str "null") then
        let* old_ips := get_list env config "node-ips" None in
        let new_ips := node_ips config in
        let upgrade_ips := not_in old_ips new_ips in
        let* operation_flags :=
          match upgrade_ips with
          | first :: _ =>
              let* add_ver := get_qfsd_version env first in
              let* current_ver := fs_get env config "installed-version" None in
              if negb (String.eqb current_ver add_ver) then
                let error_msg :=
                  "Cluster is running ver=" +:+ current_ver
                  +:+ ". Can't add nodes running ver=" +:+ add_ver
                  +:+ ". Update CloudFormation or Terraform with previous node count to remove these nodes. Exiting." in
                update_status env config error_msg ;;;
                raise (ProvisioningError error_msg)
              else ret (set_add_nodes true operation_flags)
          | [] => ret operation_flags
          end in
        if (Z.of_nat (length old_ips) >? target_node_count config)%Z
        then ret (set_remove_nodes true operation_flags)
        else ret operation_flags
      else ret operation_flags.

Definition plan_storage (env : Env) (config : ProvisioningConfig)
    (operation_flags : OperationFlags) : M OperationFlags :=
  let* '(old_bucket_names, old_bucket_uris, old_limit_str) :=
    if replace_cluster config then
      let* names := get_list env config "bucket-names" (existing_deployment_name config) in
      let* uris := get_list env config "bucket-uris" (existing_deployment_name config) in
      let* limit := fs_get env config "soft-capacity-limit" (existing_deployment_name config) in
      ret (names, uris, limit)
    else
      let* names := get_list env config "bucket-names" None in
      let* uris := get_list env config "bucket-uris" None in
      let* limit := fs_get env config "soft-capacity-limit" None in
      ret (names, uris, limit) in
  if negb (new_cluster operation_flags) || replace_cluster config then
    let new_bucket_names := not_in old_bucket_names (bucket_names config) in
    let new_bucket_uris := not_in old_bucket_uris (bucket_uris config) in
    let operation_flags :=
      if nonempty_list new_bucket_names && nonempty_list new_bucket_uris
      then set_add_buckets true operation_flags
      else operation_flags in
    if negb (String.eqb old_limit_str "null") then
      let* old_limit := lift (int_of old_limit_str) in
      if (capacity_limit config >? old_limit)%Z
         && negb (add_buckets operation_flags)
      then ret (set_increase_limit true operation_flags)
      else ret operation_flags
    else ret operation_flags
  else ret operation_flags.

(** Quorum details that list node 3 as out of quorum, and a cluster that
    answers with them. *)
Definition partial_details : string :=
  "{" +:+ json_str "all_nodes" +:+ ": [" +:+ json_str "1" +:+ ", "
  +:+ json_str "2" +:+ ", " +:+ json_str "3" +:+ "], "
  +:+ json_str "in_nodes" +:+ ": [" +:+ json_str "1" +:+ ", "
  +:+ json_str "2" +:+ "], "
  +:+ json_str "out_nodes" +:+ ": [" +:+ json_str "3" +:+ "]}".

Definition degraded (t : nat) (cmd : string) : proc_outcome :=
  if PyStr.contains "quorum/details" cmd then Exited 0 partial_details
  else Example.healthy "" t cmd.

(** The interactions of reading the store and of reporting a status: the
    clock, the access token, a [GET], and a [PATCH] of a status log. *)
Definition is_store_read (ev : event) : Prop :=
  match ev with
  | ReadClock => True
  | Run cmd => cmd = access_token_cmd
  | Request GET _ _ => True
  | Request PATCH path _ => snd path = "last-run-status"
  | Sleep _ => False
  end.

(** The interactions of planning: those of reading and reporting, the
    login, the quorum details and the version of a node. *)
Definition is_planner_event (admin_password : string) (ev : event) : Prop :=
  is_store_read ev
  \/ exists node_ip,
       ev = Run (login_cmd node_ip admin_password)
       \/ ev = Run (details_cmd node_ip)
       \/ ev = Run (version_cmd node_ip).

(** The keys under which the record holds the nodes of the cluster. *)
Definition node_keys : list string :=
  ["node-ips"; "fault-domain-ids"; "instance-ids"].


(** The storage types [get_storage_product_type] knows. *)
Definition known_storage_types : list string :=
  ["hot_gcs_std"; "hot_s3_int"; "cold_s3_ia"; "cold_s3_gir"].

(** The interactions of the guard of a bucket operation: reads of the
    store and listings of buckets. *)
Definition is_guard_event (project : string) (ev : event) : Prop :=
  is_store_read ev \/ exists bucket_name, ev = bucket_listing project bucket_name.

(* ===================================================================== *)
(** ** [provision.py]: environment setup and the entry point *)
(* ===================================================================== *)

(** [try: body  except Exception as e: handler(e)] *)
Definition try_except_Exception {A : Type} (body : M A) (handler : exn -> M A)
  : M A :=
  fun w =>
    match body w with
    | (Raise e, w') => handler e w'
    | other => other
    end.

(** The command of [chkurl], as the script's text has it (Terraform's
    [templatefile] reads the doubled percent sign as a single one). *)
Definition chkurl_cmd (url : string) (no_sec : bool) : string :=
  let k := if no_sec then "k" else "" in
  "curl -sL" +:+ k +:+ " -w " +:+ dquote +:+ "%%{http_code}\n" +:+ dquote +:+ " "
  +:+ dquote +:+ url +:+ dquote
  +:+ " -o /dev/null --connect-timeout 10 --retry 3 --retry-delay 5 --max-time 60".

(** Returns [True] if the URL is reachable (HTTP 200), [False]
    otherwise. *)
Definition chkurl (env : Env) (url : string) (no_sec : bool) : M bool :=
  try_except_Exception
    (let* result := run_command env (chkurl_cmd url no_sec) (Some 70) false in
     ret (String.eqb (PyStr.strip (snd result)) "200"))
    (fun _ => ret false).

Definition getqq (env : Env) (ip file_name : string) : M unit :=
  run_command env
    ("wget --quiet --no-check-certificate -O " +:+ dquote +:+ file_name +:+ dquote
     +:+ " " +:+ dquote +:+ "https://" +:+ ip +:+ "/static/qq" +:+ dquote)
    None true ;;;
  run_command env ("chmod 777 " +:+ dquote +:+ "./" +:+ file_name +:+ dquote)
    None true ;;;
  ret tt.

Definition getsecret (env : Env) (name project : string) : M string :=
  let* result :=
    gcloud_command env
      ("secrets versions access latest --project=" +:+ dquote +:+ project
       +:+ dquote +:+ " --secret=" +:+ dquote +:+ name +:+ dquote) in
  ret (PyStr.strip (snd result)).

Definition mq_url : string := "https://api.missionq.qumulo.com/".

Definition validate_connectivity (env : Env) (config : ProvisioningConfig)
  : M unit :=
  (let* mq_up := chkurl env "https://api.missionq.qumulo.com/" false in
   if mq_up then update_status env config "BOOTED. MQ up for metrics."
   else
     update_status env config "BOOTED. MQ NOT reachable. Aborting deployment." ;;;
     raise (ProvisioningError "MQ not reachable")) ;;;
  sleep 2 ;;;
  (let* internet_up := chkurl env "https://google.com" false in
   if internet_up then update_status env config "BOOTED. Internet up."
   else update_status env config
          "BOOTED. Internet NOT reachable. NAT or VPC endpoints are required.") ;;;
  sleep 2.

Definition install_required_packages (env : Env) : M unit :=
  (let* result := run_command env "apt list --installed jq" None false in
   if negb (fst result =? 0)%Z || negb (PyStr.contains "jq" (snd result))
   then run_command env "apt-get install -y jq" None true ;;; ret tt
   else ret tt) ;;;
  (let* result := run_command env "apt list --installed wget" None false in
   if negb (fst result =? 0)%Z || negb (PyStr.contains "wget" (snd result))
   then run_command env "apt-get install -y wget" None true ;;; ret tt
   else ret tt).

(** Returns the admin password to use for operations. *)
Definition setup_admin_password (env : Env) (config : ProvisioningConfig)
  : M string :=
  if replace_cluster config then
    let* existing_secrets_name :=
      fs_get env config "cluster-secrets-name" (existing_deployment_name config) in
    let* admin_password := getsecret env existing_secrets_name (project config) in
    run_command env
      ("echo -n " +:+ dquote +:+ admin_password +:+ dquote
       +:+ " | gcloud secrets versions add " +:+ cluster_secrets_name config
       +:+ " --project=" +:+ project config +:+ " --data-file=-")
      None true ;;;
    ret admin_password
  else
    getsecret env (cluster_secrets_name config) (project config).

Definition node_state_url (node_ip : string) : string :=
  "https://" +:+ node_ip +:+ ":8000/v1/node/state".

(** [while not chkurl(url, no_sec=True): time.sleep(5)]: one unit of fuel
    per poll. *)
Fixpoint wait_for_url (env : Env) (fuel : nat) (url : string) : M unit :=
  match fuel with
  | O => diverge
  | S fuel' =>
      let* up := chkurl env url true in
      if up then ret tt
      else sleep 5 ;;; wait_for_url env fuel' url
  end.

(** The loop of [wait_for_nodes_ready]; [i] is the index of the first
    address of [ips]. *)
Fixpoint wait_for_each_node (env : Env) (fuel : nat) (config : ProvisioningConfig)
    (i : nat) (ips : list string) : M unit :=
  match ips with
  | [] => ret tt
  | node_ip :: rest =>
      (if (i =? 1)%nat
       then update_status env config
              "Qumulo Core running on node 1. Waiting for other nodes to run Qumulo Core."
       else ret tt) ;;;
      wait_for_url env fuel (node_state_url node_ip) ;;;
      (if (i =? 0)%nat then getqq env node_ip "qq" else ret tt) ;;;
      wait_for_each_node env fuel config (S i) rest
  end.

Definition wait_for_nodes_ready (env : Env) (fuel : nat)
    (config : ProvisioningConfig) : M unit :=
  update_status env config
    ("Waiting for node 1 to run Qumulo Core. Package location: "
     +:+ qumulo_package_url config) ;;;
  wait_for_each_node env fuel config 0 (node_ips config).

(** Returns [(admin_password, out_quorum, in_quorum)]. *)
Definition initialize_and_validate (env : Env) (fuel : nat)
    (config : ProvisioningConfig) : M (string * nat * nat) :=
  let* last_run_status := fs_get env config "last-run-status" None in
  (if String.eqb last_run_status "null"
   then update_status env config "null"
   else ret tt) ;;;
  validate_connectivity env config ;;;
  update_status env config "Installing jq and reading secrets" ;;;
  install_required_packages env ;;;
  let* admin_password := setup_admin_password env config in
  wait_for_nodes_ready env fuel config ;;;
  let* '(out_quorum, in_quorum, qfsd_version) := survey_cluster_state env config in
  validate_qfsd_version env config qfsd_version ;;;
  ret (admin_password, out_quorum, in_quorum).

(** [str(e)].  The text of a [ValueError] quotes the literal that [int]
    refused, which the exception of the model does not carry: it is the
    parameter [value_error_text].  Every [TimeoutExpired] that reaches
    the entry point comes from a command run with the timeout of 300
    seconds. *)
Definition str_exn (value_error_text : string) (e : exn) : string :=
  match e with
  | ProvisioningError msg => msg
  | TimeoutExpired cmd => "Command '" +:+ cmd +:+ "' timed out after 300 seconds"
  | ValueError => value_error_text
  | IndexError => "list index out of range"
  end.

Definition provision (env : Env)
    (apply_initial_floating_ips maybe_update_floating_ips
       : ProvisioningConfig -> string -> M unit)
    (value_error_text : string) (fuel : nat) (config : ProvisioningConfig)
  : M unit :=
  try_except_Exception
    (let* '(admin_password, out_quorum, in_quorum) :=
       initialize_and_validate env fuel config in
     let* operation_flags :=
       determine_cluster_operations env config out_quorum in_quorum
         admin_password in
     execute_cluster_operations env apply_initial_floating_ips
       maybe_update_floating_ips fuel config admin_password operation_flags ;;;
     update_status env config "Shutting down provisioning instance")
    (fun e =>
       update_status env config ("ERROR: " +:+ str_exn value_error_text e) ;;;
       raise e).

(** The steps of [initialize_and_validate] after the status log is
    initialised. *)
Definition initialize_checks (env : Env) (fuel : nat)
    (config : ProvisioningConfig) : M (string * nat * nat) :=
  validate_connectivity env config ;;;
  update_status env config "Installing jq and reading secrets" ;;;
  install_required_packages env ;;;
  let* admin_password := setup_admin_password env config in
  wait_for_nodes_ready env fuel config ;;;
  let* '(out_quorum, in_quorum, qfsd_version) := survey_cluster_state env config in
  validate_qfsd_version env config qfsd_version ;;;
  ret (admin_password, out_quorum, in_quorum).

(** What [chkurl] makes of the answer of its command: the return code is
    not looked at. *)
Definition url_ok (o : proc_outcome) : bool :=
  match o with
  | Exited _ stdout => String.eqb (PyStr.strip stdout) "200"
  | TimedOut => false
  end.

(** The steps of [provision] inside its [try]. *)
Definition provision_steps (env : Env)
    (apply_initial_floating_ips maybe_update_floating_ips
       : ProvisioningConfig -> string -> M unit)
    (fuel : nat) (config : ProvisioningConfig) : M unit :=
  let* '(admin_password, out_quorum, in_quorum) :=
    initialize_and_validate env fuel config in
  let* operation_flags :=
    determine_cluster_operations env config out_quorum in_quorum admin_password in
  execute_cluster_operations env apply_initial_floating_ips
    maybe_update_floating_ips fuel config admin_password operation_flags ;;;
  update_status env config "Shutting down provisioning instance".

(** No request to the store gets its answer. *)
Definition store_unreachable (env : Env) : Prop :=
  forall t, http_ok env t = false.

(** An environment in which no request to the store gets its answer. *)
Definition env_offline : Env := {|
  shell := shell (Example.env_of (Example.healthy ""));
  http_ok := fun _ => false;
  clock := fun _ => Example.noon
|}.

(** The cluster answers as [answer] says, except that the check of
    [url] does not see a 200. *)
Definition url_down (url : string) (answer : nat -> string -> proc_outcome)
    (t : nat) (cmd : string) : proc_outcome :=
  if String.eqb cmd (chkurl_cmd url false) then Exited 0 "000"
  else if PyStr.contains "curl " cmd then Exited 0 "200"
  else answer t cmd.

(** The keys under which the floating-IP procedures record what they
    applied. *)
Definition float_keys : list string := ["float-ips"; "floating-ip-count"].

(** The keys of the record that a plan for an existing cluster lets the
    executor write. *)
Definition plan_keys (flags : OperationFlags) : list string :=
  float_keys
  ++ (if add_nodes flags || remove_nodes flags then node_keys else [])
  ++ (if increase_limit flags || add_buckets flags
      then ["soft-capacity-limit"] else [])
  ++ (if add_buckets flags then ["bucket-uris"; "bucket-names"] else []).

Definition no_prior_record_msg : string :=
  "Cannot find existing cluster information for replacement".

(* ===================================================================== *)
(** ** Version comparison and the list encoding *)
(* ===================================================================== *)

Lemma compare_fields_refl (a : list Z) : compare_fields a a = 0%Z.
Proof.
  induction a as [|x a IH]; [reflexivity|]. cbn [compare_fields].
  rewrite Z.gtb_ltb, Z.ltb_irrefl. exact IH.
Qed.

Lemma field_numbers_unique (parts : list string) (a b : list Z) :
  Forall2 (fun p n => field_number p = Some n) parts a ->
  Forall2 (fun p n => field_number p = Some n) parts b ->
  a = b.
Proof.
  intros Ha. revert b. induction Ha as [|p n parts a Hp _ IH]; intros b Hb.
  - inversion Hb. reflexivity.
  - inversion Hb as [|? m ? b' Hq Hb']; subst. f_equal; [congruence|auto].
Qed.

Lemma field_numbers_pad (parts : list string) (a : list Z) (n : nat) :
  Forall2 (fun p n => field_number p = Some n) parts a ->
  Forall2 (fun p n => field_number p = Some n)
    (parts ++ repeat "0" (n - length parts)) (zero_pad n a).
Proof.
  intros H. unfold zero_pad. rewrite <- (Forall2_length _ _ _ H).
  apply Forall2_app; [exact H|].
  induction (n - length parts) as [|k IH]; constructor; [reflexivity|exact IH].
Qed.

(** The loop of [vercomp] from index [length pre1] on, over lists whose
    fields read as the numbers [a] and [b]. *)
Lemma vercomp_loop_numeric :
  forall (parts1 parts2 : list string) (a b : list Z),
    Forall2 (fun p n => field_number p = Some n) parts1 a ->
    Forall2 (fun p n => field_number p = Some n) parts2 b ->
    length a = length b ->
    forall pre1 pre2 : list string,
      length pre1 = length pre2 ->
      vercomp_loop (seq (length pre1) (length parts1))
        (pre1 ++ parts1) (pre2 ++ parts2)
      = Ok (compare_fields a b).
Proof.
  intros parts1 parts2 a b H1. revert parts2 b.
  induction H1 as [|p1 x parts1 a Hp1 _ IH]; intros parts2 b H2 Hlen pre1 pre2 Hpre.
  - destruct b; [|discriminate]. reflexivity.
  - destruct H2 as [|p2 y parts2 b Hp2 H2]; [discriminate|].
    cbn [length seq vercomp_loop compare_fields].
    unfold index.
    rewrite nth_error_app2, Nat.sub_diag by lia. cbn [nth_error rbind].
    rewrite (nth_error_app2 pre2) by lia.
    replace (length pre1 - length pre2) with 0 by lia.
    cbn [nth_error rbind].
    unfold field_number in Hp1, Hp2. unfold int_of.
    assert (E1 : (if PyStr.isdigit p1
                  then match PyStr.int p1 with Some n => Ok n | None => Raise ValueError end
                  else Ok 0%Z) = Ok x)
      by (destruct (PyStr.isdigit p1); [rewrite Hp1|inversion Hp1]; reflexivity).
    assert (E2 : (if PyStr.isdigit p2
                  then match PyStr.int p2 with Some n => Ok n | None => Raise ValueError end
                  else Ok 0%Z) = Ok y)
      by (destruct (PyStr.isdigit p2); [rewrite Hp2|inversion Hp2]; reflexivity).
    rewrite E1. cbn [rbind]. rewrite E2. cbn [rbind].
    destruct (x >? y)%Z; [reflexivity|]. destruct (x <? y)%Z; [reflexivity|].
    specialize (IH parts2 b H2 ltac:(cbn in Hlen; lia) (pre1 ++ [p1]) (pre2 ++ [p2])).
    rewrite !length_app in IH. cbn [length] in IH.
    rewrite <- !app_assoc in IH. cbn [app] in IH.
    rewrite Nat.add_1_r in IH. apply IH. lia.
Qed.

(** C6. [vercomp] compares numerically, field by field, the shorter version
    padded with zeros: "7.6.0" against "7.6.0" is equal (0), "7.5.9"
    against "7.6.0" is less (1), and "7.10" against "7.6.0" is greater (2),
    which a comparison of the texts would not give.  In general, for
    versions whose dot-separated fields read as the numbers [a] and [b],
    the result is the comparison of [a] and [b], padded with zeros to the
    same length, by their first differing field. *)
Theorem vercomp_numeric :
  vercomp "7.6.0" "7.6.0" = Ok 0%Z
  /\ vercomp "7.5.9" "7.6.0" = Ok 1%Z
  /\ vercomp "7.10" "7.6.0" = Ok 2%Z
  /\ forall (version1 version2 : string) (a b : list Z),
       Forall2 (fun p n => field_number p = Some n)
         (PyStr.split "."%char version1) a ->
       Forall2 (fun p n => field_number p = Some n)
         (PyStr.split "."%char version2) b ->
       let n := Nat.max (length a) (length b) in
       vercomp version1 version2
       = Ok (compare_fields (zero_pad n a) (zero_pad n b)).
Proof.
  split; [vm_compute; reflexivity|].
  split; [vm_compute; reflexivity|].
  split; [vm_compute; reflexivity|].
  intros version1 version2 a b Ha Hb n. unfold vercomp.
  destruct (String.eqb_spec version1 version2) as [->|_].
  - rewrite (field_numbers_unique _ _ _ Ha Hb). symmetry. f_equal.
    apply compare_fields_refl.
  - pose proof (Forall2_length _ _ _ Ha) as La.
    pose proof (Forall2_length _ _ _ Hb) as Lb.
    rewrite La, Lb. fold n.
    pose proof (field_numbers_pad _ _ n Ha) as Pa.
    pose proof (field_numbers_pad _ _ n Hb) as Pb.
    rewrite La in Pa. rewrite Lb in Pb.
    assert (Hn : length (PyStr.split "."%char version1
                         ++ repeat "0" (n - length a)) = n).
    { rewrite length_app, repeat_length, La. lia. }
    rewrite <- Hn at 1.
    apply (vercomp_loop_numeric _ _ _ _ Pa Pb) with (pre1 := []) (pre2 := []).
    + unfold zero_pad. rewrite !length_app, !repeat_length. lia.
    + reflexivity.
Qed.

(** The general statement at "7.10" against "7.6.0": the fields read as
    7, 10 and 7, 6, 0, and 7, 10, 0 is greater than 7, 6, 0. *)
Lemma vercomp_numeric_witness :
  Forall2 (fun p n => field_number p = Some n)
    (PyStr.split "."%char "7.10") [7; 10]%Z
  /\ Forall2 (fun p n => field_number p = Some n)
       (PyStr.split "."%char "7.6.0") [7; 6; 0]%Z
  /\ vercomp "7.10" "7.6.0"
     = Ok (compare_fields (zero_pad 3 [7; 10]%Z) (zero_pad 3 [7; 6; 0]%Z))
  /\ compare_fields (zero_pad 3 [7; 10]%Z) (zero_pad 3 [7; 6; 0]%Z) = 2%Z.
Proof.
  assert (H1 : Forall2 (fun p n => field_number p = Some n)
                 (PyStr.split "."%char "7.10") [7; 10]%Z)
    by (repeat constructor).
  assert (H2 : Forall2 (fun p n => field_number p = Some n)
                 (PyStr.split "."%char "7.6.0") [7; 6; 0]%Z)
    by (repeat constructor).
  split; [exact H1|]. split; [exact H2|]. split; [|reflexivity].
  destruct vercomp_numeric as (_ & _ & _ & H).
  exact (H "7.10" "7.6.0" [7; 10]%Z [7; 6; 0]%Z H1 H2).
Defined.

Lemma split_no_sep (sep : ascii) (x : string) :
  PyStr.existsb_str (Ascii.eqb sep) x = false -> PyStr.split sep x = [x].
Proof.
  induction x as [|c x IH]; simpl; [reflexivity|].
  intros H. apply orb_false_elim in H as [Hc Hx].
  rewrite Ascii.eqb_sym, Hc, (IH Hx). reflexivity.
Qed.

Lemma split_app_sep (sep : ascii) (x r : string) :
  PyStr.existsb_str (Ascii.eqb sep) x = false ->
  PyStr.split sep (x +:+ String sep r) = x :: PyStr.split sep r.
Proof.
  induction x as [|c x IH]; simpl.
  - intros _. rewrite Ascii.eqb_refl. reflexivity.
  - intros H. apply orb_false_elim in H as [Hc Hx].
    rewrite Ascii.eqb_sym, Hc, (IH Hx). reflexivity.
Qed.

Lemma split_join (sep : ascii) (items : list string) :
  items <> [] ->
  Forall (fun x => PyStr.existsb_str (Ascii.eqb sep) x = false) items ->
  PyStr.split sep (PyStr.join (String sep EmptyString) items) = items.
Proof.
  induction items as [|x [|y rest] IH]; intros Hne Hall.
  - congruence.
  - simpl. apply split_no_sep. by inversion Hall.
  - inversion Hall as [|? ? Hx Hrest]; subst.
    change (PyStr.join (String sep EmptyString) (x :: y :: rest))
      with (x +:+ String sep (PyStr.join (String sep EmptyString) (y :: rest))).
    rewrite (split_app_sep _ _ _ Hx), IH; [reflexivity|discriminate|assumption].
Qed.

Lemma lstrip_by_first (p : ascii -> bool) (s : string) :
  first_char_ok p s = true -> PyStr.lstrip_by p s = s.
Proof.
  destruct s as [|c r]; simpl; [reflexivity|].
  intros H. apply negb_true_iff in H. rewrite H. reflexivity.
Qed.

Lemma rstrip_by_last (p : ascii -> bool) (s : string) :
  last_char_ok p s = true -> PyStr.rstrip_by p s = s.
Proof.
  induction s as [|c r IH]; [reflexivity|].
  intros H. simpl in *. destruct r as [|c' r'].
  - simpl. apply negb_true_iff in H. rewrite H. reflexivity.
  - rewrite (IH H). reflexivity.
Qed.

Lemma strip_encodable (x : string) : encodable x = true -> PyStr.strip x = x.
Proof.
  unfold encodable. intros H.
  apply andb_true_iff in H as [H Hl]. apply andb_true_iff in H as [_ Hf].
  unfold PyStr.strip, PyStr.strip_by.
  rewrite (lstrip_by_first _ _ Hf). apply rstrip_by_last, Hl.
Qed.

Lemma map_strip_encodable (items : list string) :
  Forall (fun x => encodable x = true) items -> map PyStr.strip items = items.
Proof.
  induction 1 as [|x l Hx _ IH]; simpl; [reflexivity|].
  rewrite (strip_encodable _ Hx), IH. reflexivity.
Qed.

(** C5, as the code has it. The encoding joins with commas and decoding
    strips each item, reads the empty text and the text "null" as the
    empty list: the round trip holds for the lists whose items hold no
    comma and no leading or trailing whitespace, other than the one-item
    lists [[""]] and [["null"]].  The empty list encodes to the empty
    string, which decodes to the empty list. *)
Theorem list_round_trip (items : list string) :
  Forall (fun x => encodable x = true) items ->
  items <> [""] -> items <> ["null"] ->
  deserialize_list_from_firestore (serialize_list_for_firestore items) = items
  /\ serialize_list_for_firestore [] = ""
  /\ deserialize_list_from_firestore "" = [].
Proof.
  intros Hall Hne1 Hne2. split; [|split; reflexivity].
  destruct items as [|x rest]; [reflexivity|].
  assert (Hsplit : PyStr.split ","%char (PyStr.join "," (x :: rest)) = x :: rest).
  { apply split_join; [discriminate|].
    eapply Forall_impl; [exact Hall|]. intros y Hy. unfold encodable in Hy.
    apply andb_true_iff in Hy as [Hy _]. apply andb_true_iff in Hy as [Hy _].
    apply negb_true_iff in Hy. exact Hy. }
  unfold serialize_list_for_firestore, deserialize_list_from_firestore.
  destruct (PyStr.join "," (x :: rest)) as [|c s] eqn:Hj.
  - simpl in Hsplit. congruence.
  - destruct (String.eqb_spec (String c s) "null") as [Hnull|_].
    + rewrite Hnull in Hsplit. simpl in Hsplit. congruence.
    + cbn [PyStr.nonempty negb orb]. rewrite Hsplit.
      apply map_strip_encodable, Hall.
Qed.

(** The round trip at a three-address list and at the empty list. *)
Lemma list_round_trip_witness :
  deserialize_list_from_firestore
    (serialize_list_for_firestore ["10.0.0.1"; "10.0.0.2"; "10.0.0.3"])
  = ["10.0.0.1"; "10.0.0.2"; "10.0.0.3"]
  /\ serialize_list_for_firestore [] = ""
  /\ deserialize_list_from_firestore "" = [].
Proof.
  apply (list_round_trip ["10.0.0.1"; "10.0.0.2"; "10.0.0.3"]).
  - repeat constructor.
  - discriminate.
  - discriminate.
Defined.

(** C5 as stated fails: an item that holds a comma comes back as two
    items, an item with a leading space comes back without it, and the
    one-item lists [[""]] and [["null"]] come back empty. *)
Lemma list_round_trip_counterexample :
  deserialize_list_from_firestore (serialize_list_for_firestore ["a,b"]) <> ["a,b"]
  /\ deserialize_list_from_firestore (serialize_list_for_firestore [" a"]) <> [" a"]
  /\ deserialize_list_from_firestore (serialize_list_for_firestore [""]) <> [""]
  /\ deserialize_list_from_firestore (serialize_list_for_firestore ["null"]) <> ["null"].
Proof. repeat split; vm_compute; discriminate. Qed.

(* ===================================================================== *)
(** ** Reasoning about commands *)
(* ===================================================================== *)

Lemma bind_ok_inv {A B : Type} (m : M A) (k : A -> M B) w b w' :
  bind m k w = (Ok b, w') ->
  exists a w1, m w = (Ok a, w1) /\ k a w1 = (Ok b, w').
Proof.
  unfold bind. destruct (m w) as [[a|e|] w1]; intros H; try discriminate.
  exists a, w1. split; [reflexivity|exact H].
Qed.

Lemma bind_ok {A B : Type} (m : M A) (k : A -> M B) w a w1 :
  m w = (Ok a, w1) -> bind m k w = k a w1.
Proof. unfold bind. intros ->. reflexivity. Qed.

Lemma bind_raise {A B : Type} (m : M A) (k : A -> M B) w e w1 :
  m w = (Raise e, w1) -> bind m k w = (Raise e, w1).
Proof. unfold bind. intros ->. reflexivity. Qed.

Lemma bind_diverge {A B : Type} (m : M A) (k : A -> M B) w w1 :
  m w = (Diverge, w1) -> bind m k w = (Diverge, w1).
Proof. unfold bind. intros ->. reflexivity. Qed.

(** Every outcome of [bind m k] is an outcome of [k] after [m] returned,
    or the failure of [m] itself. *)
Lemma bind_inv {A B : Type} (m : M A) (k : A -> M B) w r w' :
  bind m k w = (r, w') ->
  (exists a w1, m w = (Ok a, w1) /\ k a w1 = (r, w'))
  \/ (exists e, m w = (Raise e, w') /\ r = Raise e)
  \/ (m w = (Diverge, w') /\ r = Diverge).
Proof.
  unfold bind. destruct (m w) as [[a|e|] w1]; intros H.
  - left. eauto.
  - right. left. inversion H; subst. eauto.
  - right. right. inversion H; subst. eauto.
Qed.

(* ===================================================================== *)
(** ** The executor refuses a replacement without new nodes *)
(* ===================================================================== *)

(** C10. With [replace_cluster] set and [new_cluster] not decided,
    [execute_cluster_operations] raises [ProvisioningError] "Cannot replace
    cluster without deploying new nodes" in the world it started from: no
    command, request or wait has been issued, whatever the other flags
    are. *)
Theorem replace_without_new_nodes_refused
    (env : Env) (apply_initial_floating_ips maybe_update_floating_ips
                  : ProvisioningConfig -> string -> M unit)
    (fuel : nat) (config : ProvisioningConfig) (admin_password : string)
    (operation_flags : OperationFlags) (w : World) :
  replace_cluster config = true ->
  new_cluster operation_flags = false ->
  execute_cluster_operations env apply_initial_floating_ips
    maybe_update_floating_ips fuel config admin_password operation_flags w
  = (Raise (ProvisioningError
              "Cannot replace cluster without deploying new nodes"), w).
Proof.
  intros Hreplace Hnew. unfold execute_cluster_operations.
  rewrite Hnew, Hreplace. reflexivity.
Qed.

(* ===================================================================== *)
(** ** The empty-bucket guard of cluster creation *)
(* ===================================================================== *)

Lemma run_command_effect (env : Env) cmd timeout check w r w' :
  run_command env cmd timeout check w = (r, w') ->
  w' = log_event (Run cmd) w.
Proof.
  unfold run_command. intros H.
  destruct (shell env (tick w) cmd) as [rc out|].
  - destruct (check && negb (rc =? 0)%Z); inversion H; reflexivity.
  - destruct timeout; inversion H; reflexivity.
Qed.

Lemma check_buckets_empty_effect (env : Env) (project : string) :
  forall (names : list string) w r w',
    check_buckets_empty env names project w = (r, w') ->
    exists checked,
      checked `prefix_of` names
      /\ db w' = db w
      /\ trace w' = trace w ++ map (bucket_listing project) checked
      /\ (r = Ok tt ->
          checked = names
          /\ forall k b, names !! k = Some b ->
               lists_an_object
                 (shell env (tick w + k) ("gcloud " +:+ bucket_list_cmd b project))
               = false).
Proof.
  induction names as [|b rest IH]; intros w r w' H.
  - inversion H; subst. exists []. rewrite app_nil_r.
    repeat split; try reflexivity. intros k b Hk. discriminate.
  - cbn [check_buckets_empty] in H.
    apply bind_inv in H as [(res & w1 & Hrun & H)|[(e & Hrun & ->)|[Hrun ->]]].
    + pose proof (run_command_effect _ _ _ _ _ _ _ Hrun) as ->.
      destruct (PyStr.nonempty (PyStr.strip res.2)) eqn:Hne.
      * inversion H; subst. exists [b]. repeat split; try reflexivity.
        -- apply prefix_cons, prefix_nil.
        -- discriminate.
        -- discriminate.
      * apply IH in H as (checked & Hpre & Hdb & Htr & Hok).
        exists (b :: checked). split; [by apply prefix_cons|].
        split; [exact Hdb|]. split.
        { rewrite Htr. cbn [log_event trace map]. rewrite <- app_assoc.
          reflexivity. }
        intros ->. destruct (Hok eq_refl) as [-> Hall].
        split; [reflexivity|]. intros [|k] b' Hk.
        -- inversion Hk; subst b'. rewrite Nat.add_0_r.
           unfold gcloud_command, run_command in Hrun. unfold lists_an_object.
           destruct (shell env (tick w) _) as [rc out|]; [|reflexivity].
           destruct (rc =? 0)%Z; [|reflexivity]. cbn [andb negb] in Hrun.
           inversion Hrun; subst res. cbn [snd] in Hne. rewrite Hne. reflexivity.
        -- specialize (Hall k b' Hk).
           replace (tick w + S k) with (tick (log_event (Run ("gcloud " +:+ bucket_list_cmd b project)) w) + k); [exact Hall|].
           unfold tick, log_event. cbn. rewrite length_app. cbn. lia.
    + pose proof (run_command_effect _ _ _ _ _ _ _ Hrun) as ->.
      exists [b]. repeat split; try reflexivity; try discriminate.
      apply prefix_cons, prefix_nil.
    + pose proof (run_command_effect _ _ _ _ _ _ _ Hrun) as ->.
      exists [b]. repeat split; try reflexivity; try discriminate.
      apply prefix_cons, prefix_nil.
Qed.

(** The check raises nothing but the refusal of a bucket, the failure of a
    listing or its timeout. *)
Lemma check_buckets_empty_raises (env : Env) (project : string) :
  forall (names : list string) w e w',
    check_buckets_empty env names project w = (Raise e, w') ->
    (exists msg, e = ProvisioningError msg) \/ (exists cmd, e = TimeoutExpired cmd).
Proof.
  induction names as [|b rest IH]; intros w e w' H; [discriminate|].
  cbn [check_buckets_empty] in H.
  apply bind_inv in H as [(res & w1 & Hrun & H)|[(e' & Hrun & He)|[_ He]]].
  - destruct (PyStr.nonempty (PyStr.strip res.2)).
    + inversion H; subst. left. eauto.
    + eapply IH, H.
  - inversion He; subst e'. clear He.
    unfold gcloud_command, run_command in Hrun.
    destruct (shell env (tick w) _) as [rc out|].
    + destruct (true && negb (rc =? 0)%Z); inversion Hrun; subst. left. eauto.
    + inversion Hrun; subst. right. eauto.
  - discriminate.
Qed.

(** C4. [create_new_cluster] begins with the emptiness check of the target
    buckets.  If the listing of some target bucket shows an object whenever
    it is asked, the check raises and [create_new_cluster] with it, and at
    that point the database is as before and the only interactions there
    have been are the listings of a leading part of the target buckets:
    the cluster-formation command, and every other command of cluster
    creation, has not been issued. *)
Theorem create_refuses_non_empty_bucket
    (env : Env) (apply_initial_floating_ips : ProvisioningConfig -> string -> M unit)
    (fuel : nat) (config : ProvisioningConfig) (admin_password : string)
    (w : World) (bucket_name : string) :
  In bucket_name (bucket_names config) ->
  (forall t, lists_an_object
               (shell env t ("gcloud " +:+ bucket_list_cmd bucket_name (project config)))
             = true) ->
  exists e w' checked,
    create_new_cluster env apply_initial_floating_ips fuel config admin_password w
    = (Raise e, w')
    /\ check_buckets_empty env (bucket_names config) (project config) w
       = (Raise e, w')
    /\ ((exists msg, e = ProvisioningError msg) \/ (exists cmd, e = TimeoutExpired cmd))
    /\ checked `prefix_of` bucket_names config
    /\ trace w' = trace w ++ map (bucket_listing (project config)) checked
    /\ db w' = db w.
Proof.
  intros Hin Hfull.
  destruct (check_buckets_empty env (bucket_names config) (project config) w)
    as [r w'] eqn:Hcheck.
  destruct (check_buckets_empty_effect _ _ _ _ _ _ Hcheck)
    as (checked & Hpre & Hdb & Htr & Hok).
  destruct r as [[]|e|].
  - destruct (Hok eq_refl) as [_ Hall].
    apply list_elem_of_In, list_elem_of_lookup in Hin as [k Hk].
    specialize (Hall k bucket_name Hk). rewrite Hfull in Hall. discriminate.
  - exists e, w', checked.
    split; [unfold create_new_cluster; apply bind_raise; exact Hcheck|].
    split; [reflexivity|].
    split; [eapply check_buckets_empty_raises, Hcheck|].
    repeat split; assumption.
  - exfalso. clear - Hcheck.
    revert w Hcheck. induction (bucket_names config) as [|b rest IH]; intros w H.
    + discriminate.
    + cbn [check_buckets_empty] in H.
      apply bind_inv in H as [(res & w1 & Hrun & H)|[(e & Hrun & He)|[Hrun _]]].
      * destruct (PyStr.nonempty (PyStr.strip res.2)); [discriminate|].
        eapply IH, H.
      * discriminate.
      * unfold gcloud_command, run_command in Hrun.
        destruct (shell env (tick w) _) as [rc out|]; [|discriminate].
        destruct (true && negb (rc =? 0)%Z); discriminate.
Qed.

(* ===================================================================== *)
(** ** What the commands do to the database *)
(* ===================================================================== *)

Lemma same_docs_refl w : same_docs w w.
Proof. intros path _. reflexivity. Qed.

Lemma same_docs_trans w1 w2 w3 :
  same_docs w1 w2 -> same_docs w2 w3 -> same_docs w1 w3.
Proof. intros H12 H23 path Hp. rewrite (H23 path Hp). apply H12, Hp. Qed.

Lemma same_docs_db w w' : db w' = db w -> same_docs w w'.
Proof. intros H path _. rewrite H. reflexivity. Qed.

Lemma persisted_same_docs config w w' key deployment_name :
  same_docs w w' -> key <> "last-run-status" ->
  persisted config w' key deployment_name = persisted config w key deployment_name.
Proof.
  intros H Hk. unfold persisted, stored_text. rewrite H; [reflexivity|exact Hk].
Qed.

Create HintDb keeps discriminated.

Lemma keeps_ret {A : Type} (a : A) : keeps_docs (ret a).
Proof. intros w r w' H. inversion H; subst. apply same_docs_refl. Qed.

Lemma keeps_raise {A : Type} (e : exn) : keeps_docs (@raise A e).
Proof. intros w r w' H. inversion H; subst. apply same_docs_refl. Qed.

Lemma keeps_diverge {A : Type} : keeps_docs (@diverge A).
Proof. intros w r w' H. inversion H; subst. apply same_docs_refl. Qed.

Lemma keeps_lift {A : Type} (x : result A) : keeps_docs (lift x).
Proof. intros w r w' H. inversion H; subst. apply same_docs_refl. Qed.

Lemma keeps_bind {A B : Type} (m : M A) (k : A -> M B) :
  keeps_docs m -> (forall a, keeps_docs (k a)) -> keeps_docs (bind m k).
Proof.
  intros Hm Hk w r w' H.
  apply bind_inv in H as [(a & w1 & H1 & H2)|[(e & H1 & _)|[H1 _]]].
  - eapply same_docs_trans; [eapply Hm, H1|eapply Hk, H2].
  - eapply Hm, H1.
  - eapply Hm, H1.
Qed.

Lemma keeps_try {A : Type} (body handler : M A) :
  keeps_docs body -> keeps_docs handler ->
  keeps_docs (try_except_ProvisioningError body handler).
Proof.
  intros Hb Hh w r w' H. unfold try_except_ProvisioningError in H.
  destruct (body w) as [[a|[msg|cmd| |]|] w1] eqn:Hbody;
    try (inversion H; subst; eapply Hb, Hbody).
  eapply same_docs_trans; [eapply Hb, Hbody|eapply Hh, H].
Qed.

Lemma keeps_log {A : Type} (f : World -> result A) (ev : World -> event) :
  keeps_docs (fun w => (f w, log_event (ev w) w)).
Proof. intros w r w' H. inversion H; subst. apply same_docs_db. reflexivity. Qed.

Lemma keeps_sleep n : keeps_docs (sleep n).
Proof. apply (keeps_log (fun _ => Ok tt) (fun _ => Sleep n)). Qed.

Lemma keeps_datetime_now env : keeps_docs (datetime_now env).
Proof. apply (keeps_log (fun w => Ok (clock env (tick w))) (fun _ => ReadClock)). Qed.

Lemma keeps_run_command env cmd timeout check :
  keeps_docs (run_command env cmd timeout check).
Proof.
  intros w r w' H. apply run_command_effect in H as ->.
  apply same_docs_db. reflexivity.
Qed.

Lemma keeps_qq_command env args host : keeps_docs (qq_command env args host).
Proof. apply keeps_run_command. Qed.

Lemma keeps_gcloud_command env args : keeps_docs (gcloud_command env args).
Proof. apply keeps_run_command. Qed.

Lemma keeps_get_access_token env : keeps_docs (_get_access_token env).
Proof.
  apply (keeps_log
           (fun w => Ok match shell env (tick w) access_token_cmd with
                        | Exited returncode stdout =>
                            if (returncode =? 0)%Z then Some (PyStr.strip stdout)
                            else None
                        | TimedOut => None
                        end)
           (fun _ => Run access_token_cmd)).
Qed.

Lemma keeps_send_get env path data : keeps_docs (send_request env GET path data).
Proof.
  intros w r w' H. unfold send_request in H.
  destruct (http_ok env (tick w)); inversion H; subst;
    apply same_docs_db; reflexivity.
Qed.

Lemma keeps_send_patch_status env project database collection data :
  keeps_docs (send_request env PATCH
                (project, database, collection, "last-run-status") data).
Proof.
  intros w r w' H. unfold send_request in H.
  destruct (http_ok env (tick w)); inversion H; subst.
  - intros path Hp. cbn. apply lookup_insert_ne. intros <-. apply Hp. reflexivity.
  - apply same_docs_db. reflexivity.
Qed.

#[local] Hint Resolve keeps_ret keeps_raise keeps_diverge keeps_lift keeps_sleep
  keeps_datetime_now keeps_run_command keeps_qq_command keeps_gcloud_command
  keeps_get_access_token keeps_send_get keeps_send_patch_status : keeps.

(** Decomposes a goal [keeps_docs m] along the structure of [m]. *)
Ltac keeps_step :=
  match goal with
  | |- keeps_docs (bind _ _) => apply keeps_bind; [|intros ?]
  | |- keeps_docs (try_except_ProvisioningError _ _) => apply keeps_try
  | |- keeps_docs (if ?c then _ else _) => destruct c
  | |- keeps_docs (match ?x with _ => _ end) => destruct x
  | |- keeps_docs _ => solve [auto with keeps]
  end.

Ltac keeps := repeat keeps_step.

Lemma keeps_make_request_get env path data :
  keeps_docs (_make_request env path GET data).
Proof. unfold _make_request. keeps. Qed.

Lemma keeps_make_request_patch_status env project database collection data :
  keeps_docs (_make_request env
                (project, database, collection, "last-run-status") PATCH data).
Proof. unfold _make_request. keeps. Qed.

#[local] Hint Resolve keeps_make_request_get keeps_make_request_patch_status : keeps.

Lemma keeps_get_document env key project database collection token :
  keeps_docs (get_document env key project database collection token).
Proof. unfold get_document. keeps. Qed.

Lemma keeps_put_status env project database collection token status :
  keeps_docs (put_status_with_timestamp env project database collection token status).
Proof. unfold put_status_with_timestamp. keeps. Qed.

Lemma keeps_gettoken config : keeps_docs (gettoken config).
Proof. unfold gettoken. keeps. Qed.

#[local] Hint Resolve keeps_get_document keeps_put_status keeps_gettoken : keeps.

Lemma keeps_fs_get env config key deployment_name :
  keeps_docs (fs_get env config key deployment_name).
Proof. unfold fs_get. keeps. Qed.

Lemma keeps_update_status env config status :
  keeps_docs (update_status env config status).
Proof. unfold update_status. keeps. Qed.

#[local] Hint Resolve keeps_fs_get keeps_update_status : keeps.

Lemma keeps_get_list env config key deployment_name :
  keeps_docs (get_list env config key deployment_name).
Proof. unfold get_list. keeps. Qed.

Lemma keeps_get_qfsd_version env node_ip : keeps_docs (get_qfsd_version env node_ip).
Proof. unfold get_qfsd_version. keeps. Qed.

Lemma keeps_parse_quorum_details env qq_host :
  keeps_docs (parse_quorum_details env qq_host).
Proof. unfold parse_quorum_details. keeps. Qed.

#[local] Hint Resolve keeps_get_list keeps_get_qfsd_version
  keeps_parse_quorum_details : keeps.

Lemma returns_ret {A : Type} (a : A) (P : A -> Prop) : P a -> returns (ret a) P.
Proof. intros HP w a' w' H. inversion H; subst. exact HP. Qed.

Lemma returns_raise {A : Type} (e : exn) (P : A -> Prop) : returns (raise e) P.
Proof. intros w a' w' H. discriminate. Qed.

Lemma returns_bind {A B : Type} (m : M A) (k : A -> M B) (P : B -> Prop) :
  (forall a, returns (k a) P) -> returns (bind m k) P.
Proof.
  intros Hk w b w' H. apply bind_ok_inv in H as (a & w1 & _ & H).
  eapply Hk, H.
Qed.

Lemma returns_bind_same {A : Type} (m : M A) (k : A -> M A) (P : A -> Prop) :
  returns m P -> (forall a, P a -> returns (k a) P) -> returns (bind m k) P.
Proof.
  intros Hm Hk w b w' H. apply bind_ok_inv in H as (a & w1 & H1 & H).
  eapply Hk; [eapply Hm, H1|exact H].
Qed.

Ltac returns_step :=
  match goal with
  | |- returns (bind _ _) _ =>
      first [ apply returns_bind_same; [|intros ? ?]
            | apply returns_bind; intros ? ]
  | |- returns (ret _) _ => apply returns_ret
  | |- returns (raise _) _ => apply returns_raise
  | |- returns (if ?c then _ else _) _ => destruct c
  | |- returns (match ?x with _ => _ end) _ => destruct x
  end.

(** What a read of the store can return: the sentinel, or the text
    persisted under the key. *)
Lemma get_document_value env key project database collection token w v w' :
  get_document env key project database collection token w = (Ok v, w') ->
  v = "null" \/ v = stored_text (db w) project database collection key.
Proof.
  unfold get_document, _make_request, _get_access_token, send_request, bind, ret,
    stored_text.
  destruct (negb _); [intros H; inversion H; auto|].
  destruct (shell env (tick w) access_token_cmd) as [rc out|];
    [destruct (rc =? 0)%Z; [destruct (PyStr.strip out)|]|];
    try (intros H; inversion H; auto; fail).
  cbn [log_event db trace tick].
  destruct (http_ok env _); [|intros H; inversion H; auto].
  destruct (db w !! _); intros H; inversion H; auto.
Qed.

Lemma fs_get_value env config key deployment_name w v w' :
  fs_get env config key deployment_name w = (Ok v, w') ->
  v = "null" \/ v = persisted config w key deployment_name.
Proof.
  unfold fs_get. intros H. apply bind_ok_inv in H as (token & w1 & Htok & H).
  assert (w1 = w) as ->.
  { unfold gettoken in Htok.
    destruct (get_token _ _ _) as [[|? ?]|]; inversion Htok; reflexivity. }
  apply get_document_value in H. exact H.
Qed.

(* ===================================================================== *)
(** ** The planner: capacity increase and bucket addition *)
(* ===================================================================== *)

(** C7. Whenever the planner returns, [increase_limit] is set only if the
    target capacity limit exceeds the persisted limit (the one read from
    the record the planner diffs against) and [add_buckets] is not set in
    the same plan; so no plan has both. *)
Theorem increase_limit_excludes_add_buckets
    (env : Env) (config : ProvisioningConfig) (out_quorum in_quorum : nat)
    (admin_password : string) (w w' : World) (flags : OperationFlags) :
  determine_cluster_operations env config out_quorum in_quorum admin_password w
  = (Ok flags, w') ->
  (increase_limit flags = true ->
   add_buckets flags = false
   /\ exists old_limit,
        PyStr.int (persisted config w "soft-capacity-limit" (diff_source config))
        = Some old_limit
        /\ (capacity_limit config > old_limit)%Z)
  /\ add_buckets flags && increase_limit flags = false.
Proof.
  intros H.
  cut (increase_limit flags = true ->
       add_buckets flags = false
       /\ exists old_limit,
            PyStr.int (persisted config w "soft-capacity-limit" (diff_source config))
            = Some old_limit
            /\ (capacity_limit config > old_limit)%Z).
  { intros Hc. split; [exact Hc|].
    destruct (increase_limit flags); [|apply andb_false_r].
    destruct (Hc eq_refl) as [-> _]. reflexivity. }
  unfold determine_cluster_operations in H.
  apply bind_ok_inv in H as (f1 & w1 & H1 & H).
  assert (Hf1 : add_buckets f1 = false /\ increase_limit f1 = false).
  { match type of H1 with
    | ?m _ = _ =>
        assert (Hr : returns m (fun f => add_buckets f = false
                                         /\ increase_limit f = false))
          by (repeat returns_step; cbn; intuition)
    end.
    exact (Hr _ _ _ H1). }
  assert (Hw1 : same_docs w w1).
  { match type of H1 with
    | ?m _ = _ => assert (Hk : keeps_docs m) by keeps
    end.
    exact (Hk _ _ _ H1). }
  destruct Hf1 as [Hab1 Hil1].
  apply bind_ok_inv in H as ([[names uris] limit] & w2 & H2 & H).
  assert (Hlimit : limit = "null"
                   \/ limit = persisted config w "soft-capacity-limit" (diff_source config)).
  { unfold diff_source. destruct (replace_cluster config);
      apply bind_ok_inv in H2 as (n & wa & Ha & H2);
      apply bind_ok_inv in H2 as (u & wb & Hb & H2);
      apply bind_ok_inv in H2 as (l & wc & Hc & H2);
      inversion H2; subst;
      apply fs_get_value in Hc as [Hc|Hc]; auto; right; rewrite Hc;
      apply persisted_same_docs; try discriminate;
      (eapply same_docs_trans; [exact Hw1|]);
      (eapply same_docs_trans; [eapply keeps_get_list, Ha|]);
      eapply keeps_get_list, Hb. }
  clear H1 H2.
  destruct (negb (new_cluster f1) || replace_cluster config).
  - destruct (negb (limit =? "null")%string) eqn:Hnull.
    + apply bind_ok_inv in H as (old_limit & w3 & Hint & H).
      unfold lift, int_of in Hint.
      destruct (PyStr.int limit) as [n|] eqn:Hn; [|discriminate].
      inversion Hint; subst old_limit w3. clear Hint.
      destruct Hlimit as [->|Hlimit]; [discriminate|].
      destruct ((capacity_limit config >? n)%Z && _) eqn:Hcond;
        inversion H; subst flags.
      * intros _. apply andb_true_iff in Hcond as [Hgt Hnb].
        apply negb_true_iff in Hnb. split; [exact Hnb|].
        exists n. rewrite <- Hlimit. split; [exact Hn|]. lia.
      * destruct (nonempty_list _ && nonempty_list _); cbn; congruence.
    + inversion H; subst flags.
      destruct (nonempty_list _ && nonempty_list _); cbn; congruence.
  - inversion H; subst flags. congruence.
Qed.

(* ===================================================================== *)
(** ** The planner: node and bucket decisions *)
(* ===================================================================== *)

Lemma mem_In (x : string) (items : list string) : mem x items = true <-> In x items.
Proof.
  unfold mem. rewrite existsb_exists. split.
  - intros (y & Hy & Heq). apply String.eqb_eq in Heq. subst. exact Hy.
  - intros H. exists x. split; [exact H|apply String.eqb_refl].
Qed.

Lemma not_in_In (seen items : list string) (x : string) :
  In x (not_in seen items) <-> In x items /\ ~ In x seen.
Proof.
  unfold not_in. rewrite filter_In, negb_true_iff, <- not_true_iff_false, mem_In.
  reflexivity.
Qed.

Lemma not_in_nonempty (seen items : list string) :
  nonempty_list (not_in seen items) = true
  <-> exists x, In x items /\ ~ In x seen.
Proof.
  split.
  - destruct (not_in seen items) as [|x l] eqn:E; [discriminate|]. intros _.
    exists x. apply not_in_In. rewrite E. left. reflexivity.
  - intros (x & Hx). apply not_in_In in Hx.
    destruct (not_in seen items); [contradiction|reflexivity].
Qed.

(** The token of a manager does not depend on the world. *)
Lemma gettoken_inv config w token w1 :
  gettoken config w = (Ok token, w1) ->
  w1 = w
  /\ PyStr.nonempty token = true
  /\ PyStr.nonempty (project config) = true
  /\ PyStr.nonempty (storage_deployment_name config) = true
  /\ PyStr.nonempty (deployment_unique_name config) = true
  /\ forall w2, gettoken config w2 = (Ok token, w2).
Proof.
  unfold gettoken, get_token.
  destruct (PyStr.nonempty (project config)); [|discriminate].
  destruct (PyStr.nonempty (storage_deployment_name config)); [|discriminate].
  destruct (PyStr.nonempty (deployment_unique_name config)); [|discriminate].
  cbn [andb].
  destruct (project config +:+ ":" +:+ _) as [|c s]; [discriminate|].
  intros H. inversion H; subst. repeat split; reflexivity.
Qed.

Lemma deployment_or_current_nonempty config deployment_name :
  PyStr.nonempty (deployment_unique_name config) = true ->
  PyStr.nonempty (deployment_or_current config deployment_name) = true.
Proof.
  intros H. unfold deployment_or_current.
  destruct deployment_name as [[|c s]|]; auto.
Qed.

(** A read never raises once the manager has its token. *)
Lemma get_document_total env key project database collection token w :
  exists v w', get_document env key project database collection token w = (Ok v, w').
Proof.
  unfold get_document, _make_request, _get_access_token, send_request, bind, ret.
  destruct (negb _); [eauto|].
  destruct (shell env (tick w) access_token_cmd) as [rc out|];
    [destruct (rc =? 0)%Z; [destruct (PyStr.strip out)|]|]; eauto.
  destruct (http_ok env _); eauto.
  destruct (db _ !! _); eauto.
Qed.

Lemma fs_get_total env config key deployment_name token w0 w0' w :
  gettoken config w0 = (Ok token, w0') ->
  exists v w', fs_get env config key deployment_name w = (Ok v, w').
Proof.
  intros Htok. apply gettoken_inv in Htok as (_ & _ & _ & _ & _ & Htok).
  unfold fs_get. rewrite (bind_ok _ _ _ _ _ (Htok w)).
  apply get_document_total.
Qed.


(** With the store reachable a read returns the persisted text. *)
Lemma fs_get_reachable env config key deployment_name w v w' :
  store_reachable env -> PyStr.nonempty key = true ->
  fs_get env config key deployment_name w = (Ok v, w') ->
  v = persisted config w key deployment_name.
Proof.
  intros Hreach Hkey H. unfold fs_get in H.
  apply bind_ok_inv in H as (token & w1 & Htok & H).
  apply gettoken_inv in Htok as (-> & Ht & Hp & Hd & Hc & _).
  pose proof (deployment_or_current_nonempty config deployment_name Hc) as Hc'.
  unfold get_document in H. rewrite Hkey, Hp, Hd, Hc', Ht in H. cbn [andb negb] in H.
  unfold _make_request, _get_access_token, send_request, bind, ret in H.
  destruct (Hreach (tick w)) as [Hgrant _].
  unfold token_granted in Hgrant.
  destruct (shell env (tick w) access_token_cmd) as [rc out|]; [|discriminate].
  apply andb_true_iff in Hgrant as [Hrc Hout]. rewrite Hrc in H.
  destruct (PyStr.strip out) as [|c s]; [discriminate|].
  destruct (Hreach (tick (log_event (Run access_token_cmd) w))) as [_ Hhttp].
  rewrite Hhttp in H. cbn [log_event db] in H.
  unfold persisted, stored_text.
  destruct (db w !! _); inversion H; reflexivity.
Qed.


Lemma In_slice_from {A : Type} (x : A) (items : list A) (n : Z) :
  In x (slice_from items n) -> In x items.
Proof.
  unfold slice_from. generalize (slice_bound items n). intros k.
  revert items. induction k as [|k IH]; intros [|y items]; simpl; auto.
Qed.

(** C2, as the code has it. On the existing-cluster path, with the store
    reachable and a persisted node-ips record [P], a plan the planner
    returns has [add_nodes] set exactly when the target list [T] holds an
    address that [P] lacks, and [remove_nodes] set exactly when [P] is
    longer than [target_node_count].  The two can be set together.  An
    address counted as an addition is not in [P], so it is not in the
    excess tail of [P]; it is among the addresses that RemoveNodes drops,
    the tail of [T] beyond [target_node_count], only if that tail holds an
    address that is not persisted. *)
Theorem node_diff_plan
    (env : Env) (config : ProvisioningConfig) (out_quorum in_quorum : nat)
    (admin_password : string) (w w' : World) (flags : OperationFlags) :
  store_reachable env ->
  ((out_quorum =? length (node_ips config))%nat && (in_quorum =? 0)%nat) = false ->
  persisted config w "node-ips" None <> "null" ->
  determine_cluster_operations env config out_quorum in_quorum admin_password w
  = (Ok flags, w') ->
  let P := deserialize_list_from_firestore (persisted config w "node-ips" None) in
  let T := node_ips config in
  (add_nodes flags = true <-> exists ip, In ip T /\ ~ In ip P)
  /\ (remove_nodes flags = true
      <-> (Z.of_nat (length P) > target_node_count config)%Z)
  /\ (forall ip, In ip (not_in P T) ->
        ~ In ip (slice_from P (target_node_count config)))
  /\ ((forall ip, In ip (removed_node_ips config) -> In ip P) ->
      forall ip, In ip (not_in P T) -> ~ In ip (removed_node_ips config)).
Proof.
  intros Hreach Hpath Hrecord H P T.
  assert (Hunseen : forall ip, In ip (not_in P T) -> ~ In ip P).
  { intros ip Hip. apply not_in_In in Hip. tauto. }
  cut ((add_nodes flags = true <-> nonempty_list (not_in P T) = true)
       /\ (remove_nodes flags = true
           <-> (Z.of_nat (length P) > target_node_count config)%Z)).
  { intros [Hadd Hremove]. split; [|split; [exact Hremove|split]].
    - rewrite Hadd. apply not_in_nonempty.
    - intros ip Hip Htail. apply (Hunseen ip Hip). eapply In_slice_from, Htail.
    - intros Hsub ip Hip Hrem. apply (Hunseen ip Hip), Hsub, Hrem. }
  unfold determine_cluster_operations in H. rewrite Hpath in H.
  apply bind_ok_inv in H as (f1 & w1 & H1 & H).
  (* the bucket and capacity phase leaves the node flags alone *)
  assert (Hkeep : add_nodes flags = add_nodes f1
                  /\ remove_nodes flags = remove_nodes f1).
  { match type of H with
    | ?m _ = _ =>
        assert (Hr : returns m (fun f => add_nodes f = add_nodes f1
                                         /\ remove_nodes f = remove_nodes f1))
          by (repeat returns_step;
              repeat match goal with
                     | |- context [if ?c then _ else _] => destruct c
                     end; cbn; auto)
    end.
    exact (Hr _ _ _ H). }
  destruct Hkeep as [-> ->]. clear H.
  (* the node phase *)
  apply bind_ok_inv in H1 as (login & wa & Hlogin & H1).
  apply bind_ok_inv in H1 as ([[all_nodes in_nodes] out_nodes] & wb & Hparse & H1).
  destruct (0 <? length out_nodes)%nat.
  { apply bind_ok_inv in H1 as (? & ? & _ & H1). discriminate. }
  apply bind_ok_inv in H1 as ([] & wc & Hstatus & H1).
  assert (Hwc : same_docs w wc).
  { eapply same_docs_trans; [eapply keeps_qq_command, Hlogin|].
    eapply same_docs_trans; [eapply keeps_parse_quorum_details, Hparse|].
    eapply keeps_update_status, Hstatus. }
  apply bind_ok_inv in H1 as (old_ips_str & wd & Hstr & H1).
  assert (Hwd : same_docs wc wd) by (eapply keeps_fs_get, Hstr).
  apply (fs_get_reachable _ _ "node-ips" _ _ _ _ Hreach eq_refl) in Hstr.
  rewrite (persisted_same_docs _ _ _ _ _ Hwc) in Hstr by discriminate.
  subst old_ips_str.
  destruct (String.eqb_spec (persisted config w "node-ips" None) "null")
    as [Hnull|_]; [contradiction|].
  cbn [negb] in H1.
  apply bind_ok_inv in H1 as (old_ips & we & Hlist & H1).
  unfold get_list in Hlist.
  apply bind_ok_inv in Hlist as (value & we' & Hvalue & Hlist).
  inversion Hlist; subst old_ips we'. clear Hlist.
  apply (fs_get_reachable _ _ "node-ips" _ _ _ _ Hreach eq_refl) in Hvalue.
  rewrite (persisted_same_docs _ w _ _ _) in Hvalue;
    [|eapply same_docs_trans; [exact Hwc|exact Hwd]|discriminate].
  subst value. fold P in H1. fold T in H1.
  apply bind_ok_inv in H1 as (f0 & wf & Hadd & H1).
  assert (Hf0 : f0 = if nonempty_list (not_in P T)
                     then set_add_nodes true no_operations else no_operations).
  { destruct (not_in P T) as [|first rest].
    - inversion Hadd. reflexivity.
    - apply bind_ok_inv in Hadd as (add_ver & ? & _ & Hadd).
      apply bind_ok_inv in Hadd as (current_ver & ? & _ & Hadd).
      destruct (negb (current_ver =? add_ver)%string).
      + apply bind_ok_inv in Hadd as (? & ? & _ & Hadd). discriminate.
      + inversion Hadd. reflexivity. }
  subst f0. clear Hadd.
  destruct (Z.of_nat (length P) >? target_node_count config)%Z eqn:Hlen;
    inversion H1; subst f1; clear H1;
    destruct (nonempty_list (not_in P T)); cbn; split; split;
    try discriminate; try reflexivity; try lia; intros _; lia.
Qed.

(* ===================================================================== *)
(** ** The quorum survey *)
(* ===================================================================== *)

Lemma after_commands_cons cmd cmds w :
  after_commands cmds (log_event (Run cmd) w) = after_commands (cmd :: cmds) w.
Proof.
  unfold after_commands, log_event. cbn. rewrite <- app_assoc. reflexivity.
Qed.

Lemma tick_log_event ev w : tick (log_event ev w) = S (tick w).
Proof. unfold tick, log_event. cbn. rewrite length_app. cbn. lia. Qed.

(** One probe of the survey: it ends in [log_event] of the probe, and it
    counts the node in when the probe reports ACTIVE, out otherwise,
    unless the probe times out. *)
Lemma survey_probe env node_ip out_quorum in_quorum w :
  shell env (tick w) (probe_cmd node_ip) <> TimedOut ->
  try_except_ProvisioningError
    (let* result := qq_command env "node_state_get" node_ip in
     let quorum_status := snd result in
     if negb (PyStr.contains "ACTIVE" quorum_status)
     then ret (S out_quorum, in_quorum)
     else ret (out_quorum, S in_quorum))
    (ret (S out_quorum, in_quorum)) w
  = (Ok (if reports_active (shell env (tick w) (probe_cmd node_ip))
         then (out_quorum, S in_quorum) else (S out_quorum, in_quorum)),
     log_event (Run (probe_cmd node_ip)) w).
Proof.
  intros Hno. unfold try_except_ProvisioningError, bind, qq_command, run_command.
  fold (probe_cmd node_ip).
  destruct (shell env (tick w) (probe_cmd node_ip)) as [rc out|]; [|contradiction].
  unfold reports_active. destruct (rc =? 0)%Z; cbn [andb negb snd].
  - destruct (PyStr.contains "ACTIVE" out); reflexivity.
  - reflexivity.
Qed.

Lemma survey_nodes_total env :
  (forall t ip, shell env t (probe_cmd ip) <> TimedOut) ->
  forall ips out_quorum in_quorum w,
    let n := active_probes env (tick w) ips in
    survey_nodes env ips out_quorum in_quorum w
    = (Ok (out_quorum + (length ips - n), in_quorum + n),
       after_commands (map probe_cmd ips) w)
    /\ n <= length ips.
Proof.
  intros Hno. induction ips as [|ip rest IH]; intros o i w n.
  - subst n. cbn. rewrite !Nat.add_0_r. unfold after_commands. cbn.
    rewrite app_nil_r. split; [destruct w; reflexivity|lia].
  - cbn [survey_nodes].
    rewrite (bind_ok _ _ _ _ _ (survey_probe env ip o i w (Hno _ _))).
    subst n. cbn [active_probes length map].
    rewrite <- after_commands_cons, <- (tick_log_event (Run (probe_cmd ip)) w).
    destruct (reports_active (shell env (tick w) (probe_cmd ip)));
      cbn [fst snd];
      destruct (IH o (S i) (log_event (Run (probe_cmd ip)) w)) as [IHa Hle];
      destruct (IH (S o) i (log_event (Run (probe_cmd ip)) w)) as [IHb _];
      cbv zeta in IHa, IHb, Hle; split; try lia.
    + rewrite IHa.
      match goal with
      | |- (Ok (?a, ?b), _) = (Ok (?c, ?d), _) =>
          replace c with a by lia; replace d with b by lia; reflexivity
      end.
    + rewrite IHb.
      match goal with
      | |- (Ok (?a, ?b), _) = (Ok (?c, ?d), _) =>
          replace c with a by lia; replace d with b by lia; reflexivity
      end.
Qed.

Lemma survey_nodes_sum env :
  forall ips out_quorum in_quorum w o i w',
    survey_nodes env ips out_quorum in_quorum w = (Ok (o, i), w') ->
    o + i = out_quorum + in_quorum + length ips.
Proof.
  induction ips as [|ip rest IH]; intros o0 i0 w o i w' H.
  - inversion H; subst. cbn. lia.
  - cbn [survey_nodes] in H.
    apply bind_ok_inv in H as ([o1 i1] & w1 & Hprobe & H).
    apply IH in H. cbn [fst snd length] in *.
    assert (o1 + i1 = S (o0 + i0)); [|lia].
    unfold try_except_ProvisioningError, bind in Hprobe.
    destruct (qq_command env "node_state_get" ip w) as [[res|[msg|cmd| |]|] w2];
      try discriminate.
    + destruct (negb _); inversion Hprobe; lia.
    + inversion Hprobe; lia.
Qed.

(** C9, as the code has it. The probing loop of the survey visits the
    configured nodes in order and, unless a probe reaches its timeout,
    always completes: a probe that fails or does not report ACTIVE counts
    its node out of quorum and the loop goes on.  Whenever the survey
    returns, its counts add up to the number of configured nodes. *)
Theorem survey_counts (env : Env) (config : ProvisioningConfig) :
  (forall w out_quorum in_quorum qfsd_version w',
     survey_cluster_state env config w
     = (Ok (out_quorum, in_quorum, qfsd_version), w') ->
     out_quorum + in_quorum = length (node_ips config))
  /\ ((forall t ip, shell env t (probe_cmd ip) <> TimedOut) ->
      forall w,
        let n := active_probes env (tick w) (node_ips config) in
        survey_nodes env (node_ips config) 0 0 w
        = (Ok (length (node_ips config) - n, n),
           after_commands (map probe_cmd (node_ips config)) w)
        /\ n <= length (node_ips config)).
Proof.
  split.
  - intros w o i v w' H. unfold survey_cluster_state in H.
    apply bind_ok_inv in H as ([] & w1 & _ & H).
    apply bind_ok_inv in H as ([o1 i1] & w2 & Hnodes & H).
    apply survey_nodes_sum in Hnodes.
    apply bind_ok_inv in H as (ver & w3 & _ & H).
    apply bind_ok_inv in H as ([] & w4 & _ & H).
    apply bind_ok_inv in H as ([] & w5 & _ & H).
    apply bind_ok_inv in H as (org & w6 & _ & H).
    apply bind_ok_inv in H as ([] & w7 & _ & H).
    inversion H; subst. cbn [fst snd]. lia.
  - intros Hno w. apply (survey_nodes_total env Hno (node_ips config) 0 0 w).
Qed.

(* ===================================================================== *)
(** ** Node removal and replacement are verified *)
(* ===================================================================== *)

Lemma bind_assoc {A B C : Type} (m : M A) (f : A -> M B) (g : B -> M C) w :
  bind (bind m f) g w = bind m (fun a => bind (f a) g) w.
Proof. unfold bind. destruct (m w) as [[a|e|] w1]; reflexivity. Qed.

Lemma bind_ext {A B : Type} (m : M A) (f g : A -> M B) w :
  (forall a w1, f a w1 = g a w1) -> bind m f w = bind m g w.
Proof. intros H. unfold bind. destruct (m w) as [[a|e|] w1]; auto. Qed.

(** Moves the continuation of the right-hand side inside, step by step,
    until both sides are the same sequence. *)
Ltac reassociate :=
  repeat first
    [ reflexivity
    | rewrite bind_assoc; apply bind_ext; intros ? ?
    | match goal with
      | |- _ = bind (if ?c then _ else _) _ _ => destruct c
      end ].

(** [remove_cluster_nodes] is: converge, verify, persist. *)
Lemma remove_cluster_nodes_view env fuel config w :
  remove_cluster_nodes env fuel config w
  = bind (removal_converged env fuel config)
      (fun removed_node_ids =>
         verify_then env (node1_ip config) removed_node_ids
           (removal_persisted env config)) w.
Proof. unfold remove_cluster_nodes, removal_converged. reassociate. Qed.

(** [replace_existing_cluster] is: converge, verify, persist. *)
Lemma replace_existing_cluster_view env maybe_update_floating_ips fuel config
    admin_password w :
  replace_existing_cluster env maybe_update_floating_ips fuel config admin_password w
  = bind (replacement_converged env fuel config admin_password)
      (fun existing_node_ids =>
         verify_then env (node1_ip config) existing_node_ids
           (replacement_persisted env maybe_update_floating_ips fuel config
              admin_password)) w.
Proof. unfold replace_existing_cluster, replacement_converged. reassociate. Qed.

Lemma check_old_nodes_removed_ok all_nodes old_node_ids w w' :
  check_old_nodes_removed all_nodes old_node_ids w = (Ok tt, w') ->
  Forall (fun node_id => ~ In node_id old_node_ids) all_nodes.
Proof.
  induction all_nodes as [|node_id rest IH]; intros H; [constructor|].
  cbn [check_old_nodes_removed] in H.
  destruct (mem node_id old_node_ids) eqn:Hmem; [discriminate|].
  constructor; [|exact (IH H)].
  rewrite <- mem_In, Hmem. discriminate.
Qed.

Lemma check_old_nodes_removed_raise all_nodes old_node_ids w :
  Exists (fun node_id => In node_id old_node_ids) all_nodes ->
  exists node_id,
    In node_id all_nodes /\ In node_id old_node_ids
    /\ check_old_nodes_removed all_nodes old_node_ids w
       = (Raise (ProvisioningError
                   ("**Old Node: " +:+ node_id
                    +:+ " not removed from quorum. Slack Support.")), w).
Proof.
  induction all_nodes as [|node_id rest IH]; intros H; [inversion H|].
  cbn [check_old_nodes_removed].
  destruct (mem node_id old_node_ids) eqn:Hmem.
  - exists node_id. apply mem_In in Hmem. repeat split; auto. left. reflexivity.
  - inversion H as [? ? Hhead|? ? Htail]; subst.
    + apply mem_In in Hhead. congruence.
    + destruct (IH Htail) as (id & Hin & Hold & Hrun).
      exists id. repeat split; auto. right. exact Hin.
Qed.

Lemma verify_then_ok env qq_host old_node_ids finish w w' :
  verify_then env qq_host old_node_ids finish w = (Ok tt, w') ->
  exists all_nodes in_nodes out_nodes w1,
    parse_quorum_details env qq_host w = (Ok (all_nodes, in_nodes, out_nodes), w1)
    /\ Forall (fun node_id => ~ In node_id old_node_ids) all_nodes.
Proof.
  unfold verify_then. intros H.
  apply bind_ok_inv in H as ([[all_nodes in_nodes] out_nodes] & w1 & Hparse & H).
  apply bind_ok_inv in H as ([] & w2 & Hcheck & _).
  exists all_nodes, in_nodes, out_nodes, w1. split; [exact Hparse|].
  eapply check_old_nodes_removed_ok, Hcheck.
Qed.

Lemma verify_then_raise env qq_host old_node_ids finish w
    all_nodes in_nodes out_nodes w1 :
  parse_quorum_details env qq_host w = (Ok (all_nodes, in_nodes, out_nodes), w1) ->
  Exists (fun node_id => In node_id old_node_ids) all_nodes ->
  exists msg,
    verify_then env qq_host old_node_ids finish w
    = (Raise (ProvisioningError msg), w1).
Proof.
  intros Hparse Hex. unfold verify_then.
  rewrite (bind_ok _ _ _ _ _ Hparse).
  destruct (check_old_nodes_removed_raise _ _ w1 Hex) as (id & _ & _ & Hrun).
  eexists. apply bind_raise. exact Hrun.
Qed.

(** The ids [remove_cluster_nodes] checks against were recorded by the
    first step of the operation, one probe per configured node, before
    anything else was asked of the cluster. *)
Lemma get_node_ids_trace env :
  forall ips acc w ids w',
    get_node_ids env ips acc w = (Ok ids, w') ->
    w' = after_commands (map probe_cmd ips) w.
Proof.
  induction ips as [|ip rest IH]; intros acc w ids w' H.
  - inversion H; subst. unfold after_commands. cbn. rewrite app_nil_r.
    destruct w'; reflexivity.
  - cbn [get_node_ids] in H.
    apply bind_ok_inv in H as (res & w1 & Hrun & H).
    apply run_command_effect in Hrun as ->.
    apply bind_ok_inv in H as (line & w2 & Hline & H).
    assert (w2 = log_event (Run (probe_cmd ip)) w) as ->.
    { unfold lift in Hline. inversion Hline. reflexivity. }
    apply IH in H as ->. cbn [map]. apply after_commands_cons.
Qed.

Lemma removal_converged_recorded env fuel config w removed w2 :
  removal_converged env fuel config w = (Ok removed, w2) ->
  exists existing_node_ids,
    get_node_ids env (node_ips config) [] w
    = (Ok existing_node_ids, after_commands (map probe_cmd (node_ips config)) w)
    /\ removed = slice_from existing_node_ids (target_node_count config).
Proof.
  unfold removal_converged. intros H.
  apply bind_ok_inv in H as (ids & w1 & Hids & H).
  pose proof (get_node_ids_trace _ _ _ _ _ _ Hids) as ->.
  exists ids. split; [exact Hids|].
  repeat (apply bind_ok_inv in H as (? & ? & _ & H)).
  inversion H. reflexivity.
Qed.

(** The ids [replace_existing_cluster] checks against were recorded by
    probing the nodes of the prior deployment's record, in the steps that
    come before the membership change. *)
Lemma replacement_converged_recorded env fuel config admin_password w ids w2 :
  replacement_converged env fuel config admin_password w = (Ok ids, w2) ->
  exists existing_ips w0 w1,
    get_list env config "node-ips" (existing_deployment_name config) w0
    = (Ok existing_ips, w1)
    /\ exists w3,
         get_node_ids env (map PyStr.strip existing_ips) [] w3
         = (Ok ids, after_commands (map probe_cmd (map PyStr.strip existing_ips)) w3).
Proof.
  unfold replacement_converged. intros H.
  apply bind_ok_inv in H as (ips_str & wa & _ & H).
  apply bind_ok_inv in H as (ids_str & wb & _ & H).
  destruct (_ || _); [discriminate|].
  apply bind_ok_inv in H as (existing_ips & wc & Hlist & H).
  apply bind_ok_inv in H as (existing_ids & wd & _ & H).
  apply bind_ok_inv in H as ([] & we & _ & H).
  apply bind_ok_inv in H as ([] & wf & _ & H).
  apply bind_ok_inv in H as (recorded & wg & Hids & H).
  pose proof (get_node_ids_trace _ _ _ _ _ _ Hids) as ->.
  exists existing_ips, wb, wc. split; [exact Hlist|]. exists wf.
  repeat (apply bind_ok_inv in H as (? & ? & _ & H)).
  inversion H; subst. exact Hids.
Qed.

(** C3. When [remove_cluster_nodes] returns normally, the membership it
    parsed after the convergence loop holds none of the removed node ids,
    which were recorded by the probes that open the operation, before the
    membership change; and when that membership holds a removed id, the
    operation raises [ProvisioningError] at that point.  The node swap of
    [replace_existing_cluster] does the same with the ids of all the nodes
    of the prior deployment. *)
Theorem old_nodes_verified_removed
    (env : Env) (maybe_update_floating_ips : ProvisioningConfig -> string -> M unit)
    (fuel : nat) (config : ProvisioningConfig) (admin_password : string)
    (w : World) :
  (forall w',
     remove_cluster_nodes env fuel config w = (Ok tt, w') ->
     exists existing_node_ids w2 all_nodes in_nodes out_nodes w3,
       get_node_ids env (node_ips config) [] w
       = (Ok existing_node_ids, after_commands (map probe_cmd (node_ips config)) w)
       /\ removal_converged env fuel config w
          = (Ok (slice_from existing_node_ids (target_node_count config)), w2)
       /\ parse_quorum_details env (node1_ip config) w2
          = (Ok (all_nodes, in_nodes, out_nodes), w3)
       /\ Forall (fun node_id =>
                    ~ In node_id (slice_from existing_node_ids
                                    (target_node_count config))) all_nodes)
  /\ (forall removed_node_ids w2 all_nodes in_nodes out_nodes w3,
        removal_converged env fuel config w = (Ok removed_node_ids, w2) ->
        parse_quorum_details env (node1_ip config) w2
        = (Ok (all_nodes, in_nodes, out_nodes), w3) ->
        Exists (fun node_id => In node_id removed_node_ids) all_nodes ->
        exists msg,
          remove_cluster_nodes env fuel config w
          = (Raise (ProvisioningError msg), w3))
  /\ (forall w',
        replace_existing_cluster env maybe_update_floating_ips fuel config
          admin_password w = (Ok tt, w') ->
        exists existing_ips w0 existing_node_ids w2 all_nodes in_nodes out_nodes w3,
          get_node_ids env (map PyStr.strip existing_ips) [] w0
          = (Ok existing_node_ids,
             after_commands (map probe_cmd (map PyStr.strip existing_ips)) w0)
          /\ replacement_converged env fuel config admin_password w
             = (Ok existing_node_ids, w2)
          /\ parse_quorum_details env (node1_ip config) w2
             = (Ok (all_nodes, in_nodes, out_nodes), w3)
          /\ Forall (fun node_id => ~ In node_id existing_node_ids) all_nodes)
  /\ (forall existing_node_ids w2 all_nodes in_nodes out_nodes w3,
        replacement_converged env fuel config admin_password w
        = (Ok existing_node_ids, w2) ->
        parse_quorum_details env (node1_ip config) w2
        = (Ok (all_nodes, in_nodes, out_nodes), w3) ->
        Exists (fun node_id => In node_id existing_node_ids) all_nodes ->
        exists msg,
          replace_existing_cluster env maybe_update_floating_ips fuel config
            admin_password w
          = (Raise (ProvisioningError msg), w3)).
Proof.
  repeat split.
  - intros w' H. rewrite remove_cluster_nodes_view in H.
    apply bind_ok_inv in H as (removed & w2 & Hconv & H).
    destruct (removal_converged_recorded _ _ _ _ _ _ Hconv) as (ids & Hids & ->).
    apply verify_then_ok in H as (all_nodes & in_nodes & out_nodes & w3 & Hparse & Hall).
    exists ids, w2, all_nodes, in_nodes, out_nodes, w3. auto.
  - intros removed w2 all_nodes in_nodes out_nodes w3 Hconv Hparse Hex.
    destruct (verify_then_raise env _ _ (removal_persisted env config) _ _ _ _ _
                Hparse Hex) as (msg & Hraise).
    exists msg. rewrite remove_cluster_nodes_view, (bind_ok _ _ _ _ _ Hconv).
    exact Hraise.
  - intros w' H. rewrite replace_existing_cluster_view in H.
    apply bind_ok_inv in H as (ids & w2 & Hconv & H).
    destruct (replacement_converged_recorded _ _ _ _ _ _ _ Hconv)
      as (existing_ips & _ & _ & _ & w0 & Hids).
    apply verify_then_ok in H as (all_nodes & in_nodes & out_nodes & w3 & Hparse & Hall).
    exists existing_ips, w0, ids, w2, all_nodes, in_nodes, out_nodes, w3. auto.
  - intros ids w2 all_nodes in_nodes out_nodes w3 Hconv Hparse Hex.
    destruct (verify_then_raise env _ _
                (replacement_persisted env maybe_update_floating_ips fuel config
                   admin_password) _ _ _ _ _ Hparse Hex) as (msg & Hraise).
    exists msg. rewrite replace_existing_cluster_view, (bind_ok _ _ _ _ _ Hconv).
    exact Hraise.
Qed.

(* ===================================================================== *)
(** ** The status log *)
(* ===================================================================== *)

Lemma make_request_reachable env path method data w :
  store_reachable env ->
  _make_request env path method data w
  = send_request env method path data (log_event (Run access_token_cmd) w).
Proof.
  intros Hreach. unfold _make_request, _get_access_token, bind.
  destruct (Hreach (tick w)) as [Hgrant _]. unfold token_granted in Hgrant.
  destruct (shell env (tick w) access_token_cmd) as [rc out|]; [|discriminate].
  apply andb_true_iff in Hgrant as [-> Hout].
  destruct (PyStr.strip out); [discriminate|reflexivity].
Qed.

(** C8, as the code has it. With the store reachable, a status update with
    non-empty arguments on an existing last-run-status document succeeds
    and stores, in place of the document, its fields with the field keyed
    by the month+day+time label set to the status: every field under
    another key is as it was and every other document is untouched; when
    the label is not yet a key of the document the update adds exactly one
    field, and when it is, the update replaces that field's value. *)
Theorem status_update_adds_field
    (env : Env) (project database collection token status : string)
    (w : World) (fields : gmap string field_value) :
  store_reachable env ->
  PyStr.nonempty project && PyStr.nonempty database && PyStr.nonempty collection
  && PyStr.nonempty token && PyStr.nonempty status = true ->
  db w !! (project, database, collection, "last-run-status") = Some fields ->
  let field_key := status_field_key (clock env (tick w)) in
  exists w' fields',
    put_status_with_timestamp env project database collection token status w
    = (Ok true, w')
    /\ db w' !! (project, database, collection, "last-run-status") = Some fields'
    /\ fields' !! field_key = Some (StringValue status)
    /\ (forall k, k <> field_key -> fields' !! k = fields !! k)
    /\ (fields !! field_key = None ->
        size fields' = S (size fields) /\ dom fields' = {[ field_key ]} ∪ dom fields)
    /\ (forall v, fields !! field_key = Some v -> size fields' = size fields)
    /\ (forall path, path <> (project, database, collection, "last-run-status") ->
          db w' !! path = db w !! path).
Proof.
  intros Hreach Hargs Hdoc field_key.
  unfold put_status_with_timestamp. rewrite Hargs. cbn [negb].
  unfold datetime_now at 1. unfold bind at 1.
  fold field_key.
  rewrite bind_assoc || idtac.
  unfold bind at 1. rewrite make_request_reachable by exact Hreach.
  unfold send_request at 1.
  destruct (Hreach (tick (log_event (Run access_token_cmd) (log_event ReadClock w))))
    as [_ ->].
  cbn [log_event db]. rewrite Hdoc.
  unfold bind at 1. rewrite make_request_reachable by exact Hreach.
  unfold send_request.
  match goal with
  | |- context [http_ok env ?t] => destruct (Hreach t) as [_ ->]
  end.
  cbn [ret default]. eexists. exists (<[field_key := StringValue status]> fields).
  split; [reflexivity|]. cbn [set_db db log_event].
  split; [apply lookup_insert_eq|].
  split; [apply lookup_insert_eq|].
  split; [intros k Hk; apply lookup_insert_ne; congruence|].
  split; [intros Hnew; split;
          [apply map_size_insert_None, Hnew|apply dom_insert_L]|].
  split; [intros v Hv; apply map_size_insert_Some; rewrite Hv; eauto|].
  intros path Hpath. apply lookup_insert_ne. congruence.
Qed.

(* ===================================================================== *)
(** ** The properties at the example deployments *)
(* ===================================================================== *)

Import Example.

Lemma env_of_reachable answer : store_reachable (env_of answer).
Proof. intros t. split; reflexivity. Qed.



(** A fourth node joins the persisted three-node cluster: the plan is
    [add_nodes] alone. *)
Lemma node_diff_plan_witness :
  let P := ["10.0.0.1"; "10.0.0.2"; "10.0.0.3"] in
  let T := node_ips (four_nodes 4) in
  determine_cluster_operations (env_of (healthy "1, 2, 3")) (four_nodes 4) 1 3 "pw"
    (world_of (cluster_record "deploy-b" "1099511627776"))
  = (Ok (only false true false false false),
     snd (determine_cluster_operations (env_of (healthy "1, 2, 3")) (four_nodes 4)
            1 3 "pw" (world_of (cluster_record "deploy-b" "1099511627776"))))
  /\ (add_nodes (only false true false false false) = true
      <-> exists ip, In ip T /\ ~ In ip P)
  /\ (remove_nodes (only false true false false false) = true
      <-> (Z.of_nat (length P) > target_node_count (four_nodes 4))%Z)
  /\ (forall ip, In ip (not_in P T) ->
        ~ In ip (slice_from P (target_node_count (four_nodes 4))))
  /\ ((forall ip, In ip (removed_node_ips (four_nodes 4)) -> In ip P) ->
      forall ip, In ip (not_in P T) -> ~ In ip (removed_node_ips (four_nodes 4))).
Proof.
  assert (Hrun :
    determine_cluster_operations (env_of (healthy "1, 2, 3")) (four_nodes 4) 1 3 "pw"
      (world_of (cluster_record "deploy-b" "1099511627776"))
    = (Ok (only false true false false false),
       snd (determine_cluster_operations (env_of (healthy "1, 2, 3")) (four_nodes 4)
              1 3 "pw" (world_of (cluster_record "deploy-b" "1099511627776")))))
    by (vm_compute; reflexivity).
  assert (Hrecord :
    persisted (four_nodes 4) (world_of (cluster_record "deploy-b" "1099511627776"))
      "node-ips" None <> "null")
    by (vm_compute; discriminate).
  intros P T. split; [exact Hrun|].
  exact (node_diff_plan (env_of (healthy "1, 2, 3")) (four_nodes 4) 1 3 "pw"
           (world_of (cluster_record "deploy-b" "1099511627776")) _ _
           (env_of_reachable _) eq_refl Hrecord Hrun).
Defined.

(** C2 as stated fails in its last part. The target lists a fourth node
    and asks for two: the plan sets [add_nodes] and [remove_nodes], the
    address 10.0.0.4 is counted as an addition and is among the addresses
    RemoveNodes drops, and the executor, carrying out this plan, first
    issues the membership change that adds it and then the one that keeps
    only the first two nodes. *)
Lemma node_diff_plan_counterexample :
  let env := env_of (healthy "1, 2") in
  let w := world_of (cluster_record "deploy-b" "1099511627776") in
  let plan := determine_cluster_operations env (four_nodes 2) 1 3 "pw" w in
  let run := execute_cluster_operations env no_floating_ips no_floating_ips 3
               (four_nodes 2) "pw" (only false true true false false) (snd plan) in
  fst plan = Ok (only false true true false false)
  /\ In "10.0.0.4" (not_in ["10.0.0.1"; "10.0.0.2"; "10.0.0.3"]
                      (node_ips (four_nodes 2)))
  /\ In "10.0.0.4" (removed_node_ips (four_nodes 2))
  /\ fst run = Ok tt
  /\ membership_changes (trace (snd run))
     = [ "./qq --host 10.0.0.1 modify_object_backed_cluster_membership --node-ips-and-fault-domains 10.0.0.1,1 10.0.0.2,2 10.0.0.3,3 10.0.0.4,4 --batch";
         "./qq --host 10.0.0.1 modify_object_backed_cluster_membership --node-ips-and-fault-domains 10.0.0.1,1 10.0.0.2,2 --batch" ].
Proof.
  cbv zeta.
  split; [vm_compute; reflexivity|].
  split; [vm_compute; tauto|].
  split; [vm_compute; tauto|].
  split; vm_compute; reflexivity.
Qed.

(** The third node of a three-node cluster is removed, and the membership
    afterwards is nodes 1 and 2: the removal returns and the membership it
    verified holds no removed id.  Had the membership kept node 3, the
    removal would have raised. *)
Lemma old_nodes_verified_removed_witness :
  let env := env_of (healthy "1, 2") in
  let w := world_of (cluster_record "deploy-b" "1099511627776") in
  remove_cluster_nodes env 3 (three_nodes 2) w
  = (Ok tt, snd (remove_cluster_nodes env 3 (three_nodes 2) w))
  /\ (exists existing_node_ids w2 all_nodes in_nodes out_nodes w3,
        get_node_ids env (node_ips (three_nodes 2)) [] w
        = (Ok existing_node_ids,
           after_commands (map probe_cmd (node_ips (three_nodes 2))) w)
        /\ removal_converged env 3 (three_nodes 2) w
           = (Ok (slice_from existing_node_ids (target_node_count (three_nodes 2))), w2)
        /\ parse_quorum_details env (node1_ip (three_nodes 2)) w2
           = (Ok (all_nodes, in_nodes, out_nodes), w3)
        /\ Forall (fun node_id =>
                     ~ In node_id (slice_from existing_node_ids
                                     (target_node_count (three_nodes 2))))
             all_nodes)
  /\ fst (remove_cluster_nodes (env_of (healthy "1, 3")) 3 (three_nodes 2) w)
     = Raise (ProvisioningError
                "**Old Node: 3 not removed from quorum. Slack Support.").
Proof.
  intros env w.
  assert (Hrun : remove_cluster_nodes env 3 (three_nodes 2) w
                 = (Ok tt, snd (remove_cluster_nodes env 3 (three_nodes 2) w)))
    by (vm_compute; reflexivity).
  split; [exact Hrun|]. split.
  - exact (proj1 (old_nodes_verified_removed env no_floating_ips 3 (three_nodes 2)
                    "pw" w) _ Hrun).
  - vm_compute. reflexivity.
Defined.

(** The one target bucket holds an object: cluster creation raises after
    listing it, and has done nothing else. *)
Lemma create_refuses_non_empty_bucket_witness :
  let env := env_of (bucket_in_use "") in
  In "bucket-1" (bucket_names config)
  /\ exists e w' checked,
       create_new_cluster env no_floating_ips 3 config "pw" (world_of [])
       = (Raise e, w')
       /\ check_buckets_empty env (bucket_names config) (project config)
            (world_of []) = (Raise e, w')
       /\ ((exists msg, e = ProvisioningError msg)
           \/ (exists cmd, e = TimeoutExpired cmd))
       /\ checked `prefix_of` bucket_names config
       /\ trace w' = trace (world_of [])
                     ++ map (bucket_listing (project config)) checked
       /\ db w' = db (world_of []).
Proof.
  intros env. split; [left; reflexivity|].
  apply (create_refuses_non_empty_bucket env no_floating_ips 3 config "pw"
           (world_of []) "bucket-1").
  - left. reflexivity.
  - intros t. reflexivity.
Defined.

(** The persisted limit is 1000 bytes and the target one tebibyte, with no
    bucket to add: the plan is [increase_limit] alone. *)
Lemma increase_limit_excludes_add_buckets_witness :
  let env := env_of (healthy "1, 2, 3") in
  let w := world_of (cluster_record "deploy-b" "1000") in
  let flags := only false false false false true in
  determine_cluster_operations env config 0 3 "pw" w
  = (Ok flags, snd (determine_cluster_operations env config 0 3 "pw" w))
  /\ (increase_limit flags = true ->
      add_buckets flags = false
      /\ exists old_limit,
           PyStr.int (persisted config w "soft-capacity-limit" (diff_source config))
           = Some old_limit
           /\ (capacity_limit config > old_limit)%Z)
  /\ add_buckets flags && increase_limit flags = false.
Proof.
  intros env w flags.
  assert (Hrun : determine_cluster_operations env config 0 3 "pw" w
                 = (Ok flags, snd (determine_cluster_operations env config 0 3 "pw" w)))
    by (vm_compute; reflexivity).
  split; [exact Hrun|].
  exact (increase_limit_excludes_add_buckets env config 0 3 "pw" w _ flags Hrun).
Defined.

(** A first status on the empty log of deployment [deploy-b]. *)
Lemma status_update_adds_field_witness :
  let env := env_of (healthy "") in
  let w := world_of (cluster_record "deploy-b" "1000") in
  let fields : gmap string field_value :=
    {[ "last-run-status" := StringValue "null" ]} in
  exists w' fields',
    put_status_with_timestamp env "proj" "state" "deploy-b" "proj:state:deploy-b"
      "BOOTED. Internet up." w = (Ok true, w')
    /\ db w' !! ("proj", "state", "deploy-b", "last-run-status") = Some fields'
    /\ fields' !! "Jul_17_123456" = Some (StringValue "BOOTED. Internet up.")
    /\ (forall k, k <> "Jul_17_123456" -> fields' !! k = fields !! k)
    /\ (fields !! "Jul_17_123456" = None ->
        size fields' = S (size fields)
        /\ dom fields' = {[ "Jul_17_123456" ]} ∪ dom fields)
    /\ (forall v, fields !! "Jul_17_123456" = Some v -> size fields' = size fields)
    /\ (forall path, path <> ("proj", "state", "deploy-b", "last-run-status") ->
          db w' !! path = db w !! path).
Proof.
  intros env w fields.
  apply (status_update_adds_field env "proj" "state" "deploy-b"
           "proj:state:deploy-b" "BOOTED. Internet up." w fields
           (env_of_reachable _)).
  - reflexivity.
  - vm_compute. reflexivity.
Defined.

(** C8 as stated fails when two updates fall in the same second: the
    second update finds its label already a key of the document, replaces
    the first status and adds no field. *)
Lemma status_update_counterexample :
  let env := env_of (healthy "") in
  let put := put_status_with_timestamp env "proj" "state" "deploy-b"
               "proj:state:deploy-b" in
  let w0 := world_of (cluster_record "deploy-b" "1000") in
  let w1 := snd (put "MQ NOT reachable" w0) in
  let w2 := snd (put "ERROR: MQ not reachable" w1) in
  let log (w : World) :=
    map_to_list (default ∅ (db w !! ("proj", "state", "deploy-b", "last-run-status"))) in
  fst (put "MQ NOT reachable" w0) = Ok true
  /\ fst (put "ERROR: MQ not reachable" w1) = Ok true
  /\ In ("Jul_17_123456", StringValue "MQ NOT reachable") (log w1)
  /\ ~ In ("Jul_17_123456", StringValue "MQ NOT reachable") (log w2)
  /\ In ("Jul_17_123456", StringValue "ERROR: MQ not reachable") (log w2)
  /\ length (log w2) = length (log w1).
Proof.
  cbv zeta.
  split; [vm_compute; reflexivity|].
  split; [vm_compute; reflexivity|].
  split; [vm_compute; tauto|].
  split; [vm_compute; intuition discriminate|].
  split; [vm_compute; tauto|].
  vm_compute; reflexivity.
Qed.

(** What the statement above leaves aside: when the read of the existing
    document gets no answer and the write does, the update takes the
    document for missing and writes a fresh one, without the statuses
    logged before. *)
Lemma status_update_after_lost_read :
  let w0 := world_of status_log in
  let r := put_status_with_timestamp (env_losing 2) "proj" "state" "deploy-b"
             "proj:state:deploy-b" "Shutting down provisioning instance" w0 in
  fst r = Ok true
  /\ map_to_list (default ∅ (db (snd r)
                              !! ("proj", "state", "deploy-b", "last-run-status")))
     ≡ₚ [ ("last-run-status", StringValue "null");
          ("Jul_17_123456", StringValue "Shutting down provisioning instance") ].
Proof.
  cbv zeta. split; [vm_compute; reflexivity|].
  vm_compute. first [reflexivity | apply perm_swap].
Qed.

(** The survey of three healthy nodes counts three in quorum, and its
    probing loop completes whatever the nodes answer. *)
Lemma survey_counts_witness :
  let env := env_of (healthy "1, 2, 3") in
  survey_cluster_state env config (world_of [])
  = (Ok (0, 3, "7.6.0"), snd (survey_cluster_state env config (world_of [])))
  /\ 0 + 3 = length (node_ips config)
  /\ (let n := active_probes env (tick (world_of [])) (node_ips config) in
      survey_nodes env (node_ips config) 0 0 (world_of [])
      = (Ok (length (node_ips config) - n, n),
         after_commands (map probe_cmd (node_ips config)) (world_of []))
      /\ n <= length (node_ips config)).
Proof.
  intros env.
  assert (Hrun : survey_cluster_state env config (world_of [])
                 = (Ok (0, 3, "7.6.0"),
                    snd (survey_cluster_state env config (world_of []))))
    by (vm_compute; reflexivity).
  split; [exact Hrun|]. split.
  - exact (proj1 (survey_counts env config) _ _ _ _ _ Hrun).
  - apply (proj2 (survey_counts env config)).
    intros t ip. unfold env, env_of, healthy. cbn [shell].
    repeat match goal with
           | |- context [if ?c then _ else _] => destruct c
           end; discriminate.
Defined.

(** C9 as stated fails when the first node does not answer: its probe
    fails and counts it out, the other probes go on, and the version query
    to the first node then raises; the survey returns no counts. *)
Lemma survey_counts_counterexample :
  let r := survey_cluster_state (env_of unreachable) config (world_of []) in
  fst r = Raise (ProvisioningError
                   "Command failed with exit code 1: ./qq --host 10.0.0.1 version")
  /\ (forall out_quorum in_quorum qfsd_version w',
        r <> (Ok (out_quorum, in_quorum, qfsd_version), w')).
Proof.
  cbv zeta. split; [vm_compute; reflexivity|].
  intros o i v w' H. apply (f_equal fst) in H. vm_compute in H. discriminate.
Qed.

(** What the statement of the survey leaves aside: a probe that reaches
    its timeout raises [TimeoutExpired], which the [except] clause of the
    probing loop does not catch, and the survey ends there. *)
Lemma survey_probe_timeout_aborts :
  let r := survey_cluster_state (env_of hung) config (world_of []) in
  fst r = Raise (TimeoutExpired "./qq --host 10.0.0.2 node_state_get")
  /\ membership_changes (trace (snd r)) = []
  /\ List.last (trace (snd r)) ReadClock = Run "./qq --host 10.0.0.2 node_state_get".
Proof.
  cbv zeta. split; [vm_compute; reflexivity|]. split; vm_compute; reflexivity.
Qed.

(** A replacement whose plan lacks [new_cluster] is refused at once. *)
Lemma replace_without_new_nodes_refused_witness :
  let env := env_of (healthy "1, 2, 3") in
  let w := world_of (cluster_record "deploy-b" "1000") in
  replace_cluster (replacing config) = true
  /\ execute_cluster_operations env no_floating_ips no_floating_ips 3
       (replacing config) "pw" (only false true false true false) w
     = (Raise (ProvisioningError
                 "Cannot replace cluster without deploying new nodes"), w).
Proof.
  intros env w. split; [reflexivity|].
  apply (replace_without_new_nodes_refused env no_floating_ips no_floating_ips 3
           (replacing config) "pw" (only false true false true false) w);
    reflexivity.
Defined.

(* ===================================================================== *)
(** ** The state store: writes, reads and refusals *)
(* ===================================================================== *)

Lemma names_store_gettoken config w :
  names_store config = true ->
  exists token, gettoken config w = (Ok token, w) /\ PyStr.nonempty token = true.
Proof.
  unfold names_store, gettoken, get_token. intros ->.
  destruct (project config +:+ ":" +:+ _) as [|c s] eqn:E.
  - destruct (project config); discriminate.
  - eexists. split; reflexivity.
Qed.

Lemma gettoken_names_store config w token w1 :
  gettoken config w = (Ok token, w1) -> names_store config = true.
Proof.
  intros H. apply gettoken_inv in H as (_ & _ & Hp & Hd & Hc & _).
  unfold names_store. rewrite Hp, Hd, Hc. reflexivity.
Qed.

Lemma unnamed_gettoken config w :
  names_store config = false ->
  gettoken config w = (Raise (ProvisioningError "Failed to get Firestore token"), w).
Proof. unfold names_store, gettoken, get_token. intros ->. reflexivity. Qed.

(** What a write does: it stores the one-field document, or it fails and
    leaves the database as it was. *)
Lemma fs_put_effect env config key value w r w' :
  fs_put env config key value w = (r, w') ->
  (r = Ok tt
   /\ db w' = <[record_path config key := {[ key := StringValue value ]}]> (db w))
  \/ (r = Raise (ProvisioningError ("Failed to put Firestore document: " +:+ key))
      /\ db w' = db w)
  \/ (r = Raise (ProvisioningError "Failed to get Firestore token") /\ w' = w).
Proof.
  unfold fs_put. intros H.
  apply bind_inv in H as [(token & w1 & Htok & H)|[(e & Htok & ->)|[Htok _]]].
  - apply gettoken_inv in Htok as (-> & _).
    unfold put_document, _make_request, _get_access_token, send_request,
      bind, ret, raise in H.
    destruct (negb _); [inversion H; auto|].
    destruct (shell env (tick w) access_token_cmd) as [rc out|];
      [destruct (rc =? 0)%Z; [destruct (PyStr.strip out)|]|];
      try (inversion H; subst; auto; fail).
    destruct (http_ok env _); inversion H; subst; auto.
  - right. right. unfold gettoken in Htok.
    destruct (get_token _ _ _) as [[|? ?]|]; inversion Htok; auto.
  - unfold gettoken in Htok. destruct (get_token _ _ _) as [[|? ?]|]; discriminate.
Qed.

Lemma fs_put_reachable env config key value w :
  store_reachable env -> names_store config = true -> PyStr.nonempty key = true ->
  fs_put env config key value w
  = (Ok tt,
     set_db (<[record_path config key := {[ key := StringValue value ]}]> (db w))
       (log_event (Request PATCH (record_path config key)
                     (Some {[ key := StringValue value ]}))
          (log_event (Run access_token_cmd) w))).
Proof.
  intros Hreach Hnames Hkey. unfold fs_put.
  destruct (names_store_gettoken config w Hnames) as (token & Htok & Hne).
  rewrite (bind_ok _ _ _ _ _ Htok). unfold put_document.
  unfold names_store in Hnames.
  apply andb_true_iff in Hnames as [Hnames Hc].
  apply andb_true_iff in Hnames as [Hp Hd].
  rewrite Hkey, Hp, Hd, Hc, Hne. cbn [andb negb].
  unfold bind at 1. unfold bind at 1.
  rewrite make_request_reachable by exact Hreach.
  unfold send_request.
  destruct (Hreach (tick (log_event (Run access_token_cmd) w))) as [_ ->].
  reflexivity.
Qed.

Lemma persisted_insert config w w' key value key' deployment_name :
  db w' = <[record_path config key := {[ key := StringValue value ]}]> (db w) ->
  persisted config w' key' deployment_name
  = if decide (record_path config key
               = (project config, storage_deployment_name config,
                  deployment_or_current config deployment_name, key'))
    then value
    else persisted config w key' deployment_name.
Proof.
  intros Hdb. unfold persisted, stored_text. rewrite Hdb.
  rewrite lookup_insert. case_decide as Heq; [|reflexivity].
  unfold record_path in Heq. inversion Heq; subst key'.
  unfold field_text. rewrite lookup_singleton_eq. reflexivity.
Qed.

Lemma persisted_put_same config w w' key value :
  db w' = <[record_path config key := {[ key := StringValue value ]}]> (db w) ->
  persisted config w' key None = value.
Proof.
  intros Hdb. rewrite (persisted_insert _ _ _ _ _ _ _ Hdb).
  rewrite decide_True; reflexivity.
Qed.

Lemma persisted_put_other config w w' key value key' deployment_name :
  db w' = <[record_path config key := {[ key := StringValue value ]}]> (db w) ->
  key' <> key ->
  persisted config w' key' deployment_name = persisted config w key' deployment_name.
Proof.
  intros Hdb Hne. rewrite (persisted_insert _ _ _ _ _ _ _ Hdb).
  rewrite decide_False; [reflexivity|]. unfold record_path. congruence.
Qed.

(** The round trip of the encoding, for the lists it can carry. *)
Lemma decode_encode (items : list string) :
  Forall (fun x => encodable x = true) items ->
  items <> [""] -> items <> ["null"] ->
  deserialize_list_from_firestore (serialize_list_for_firestore items) = items.
Proof.
  intros Hall Hne1 Hne2. destruct items as [|x rest]; [reflexivity|].
  assert (Hsplit : PyStr.split ","%char (PyStr.join "," (x :: rest)) = x :: rest).
  { apply split_join; [discriminate|].
    eapply Forall_impl; [exact Hall|]. intros y Hy. unfold encodable in Hy.
    apply andb_true_iff in Hy as [Hy _]. apply andb_true_iff in Hy as [Hy _].
    apply negb_true_iff in Hy. exact Hy. }
  unfold serialize_list_for_firestore, deserialize_list_from_firestore.
  destruct (PyStr.join "," (x :: rest)) as [|c s] eqn:Hj.
  - simpl in Hsplit. congruence.
  - destruct (String.eqb_spec (String c s) "null") as [Hnull|_].
    + rewrite Hnull in Hsplit. simpl in Hsplit. congruence.
    + cbn [PyStr.nonempty negb orb]. rewrite Hsplit.
      apply map_strip_encodable, Hall.
Qed.

(** X1. With the store reachable, what [put] writes under a key, [get]
    reads back from the current deployment's record; and a list written by
    [put_list] is read back by [get_list] as it was, when its items hold
    no comma and no whitespace at either end and it is not [[""]] or
    [["null"]]. *)
Theorem store_round_trip
    (env : Env) (config : ProvisioningConfig) (key value : string)
    (items : list string) (w : World) :
  store_reachable env -> names_store config = true ->
  PyStr.nonempty key = true ->
  (exists w1 w2,
     fs_put env config key value w = (Ok tt, w1)
     /\ fs_get env config key None w1 = (Ok value, w2)
     /\ db w2 = db w1)
  /\ (Forall (fun x => encodable x = true) items ->
      items <> [""] -> items <> ["null"] ->
      exists w1 w2,
        put_list env config key items w = (Ok tt, w1)
        /\ get_list env config key None w1 = (Ok items, w2)
        /\ db w2 = db w1).
Proof.
  intros Hreach Hnames Hkey.
  assert (Hread : forall v, exists w1 w2,
    fs_put env config key v w = (Ok tt, w1)
    /\ fs_get env config key None w1 = (Ok v, w2) /\ db w2 = db w1).
  { intros v. pose proof (fs_put_reachable env config key v w Hreach Hnames Hkey) as Hput.
    eexists. destruct (names_store_gettoken config w Hnames) as (token & Htok & _).
    destruct (fs_get_total env config key None _ _ _
                (fs_put env config key v w).2 Htok) as (v' & w2 & Hget).
    exists w2. split; [exact Hput|]. rewrite Hput in Hget. cbn [snd] in Hget.
    pose proof (fs_get_reachable _ _ _ _ _ _ _ Hreach Hkey Hget) as Hv.
    rewrite (persisted_put_same config w _ key v) in Hv by reflexivity.
    subst v'. split; [exact Hget|].
    unfold fs_get in Hget. apply bind_ok_inv in Hget as (t & w3 & Ht & Hget).
    apply gettoken_inv in Ht as (-> & _).
    unfold get_document, _make_request, _get_access_token, send_request, bind, ret
      in Hget.
    destruct (negb _); [inversion Hget; reflexivity|].
    destruct (shell env _ access_token_cmd) as [rc out|];
      [destruct (rc =? 0)%Z; [destruct (PyStr.strip out)|]|];
      try (inversion Hget; reflexivity).
    destruct (http_ok env _); [destruct (_ !! _)|]; inversion Hget; reflexivity. }
  split; [apply Hread|].
  intros Hall Hne1 Hne2.
  destruct (Hread (serialize_list_for_firestore items)) as (w1 & w2 & Hput & Hget & Hdb).
  exists w1, w2. split; [exact Hput|]. split; [|exact Hdb].
  unfold get_list. rewrite (bind_ok _ _ _ _ _ Hget). unfold ret.
  rewrite (decode_encode items Hall Hne1 Hne2). reflexivity.
Qed.

(** The store after writing, reading, and writing again at the example
    deployment. *)
Lemma store_round_trip_witness :
  let env := env_of (healthy "") in
  let items := ["10.0.0.1"; "10.0.0.2"] in
  store_reachable env /\ names_store config = true
  /\ (exists w1 w2,
        fs_put env config "uuid" "5d2c-77aa" (world_of []) = (Ok tt, w1)
        /\ fs_get env config "uuid" None w1 = (Ok "5d2c-77aa", w2)
        /\ db w2 = db w1)
  /\ (exists w1 w2,
        put_list env config "node-ips" items (world_of []) = (Ok tt, w1)
        /\ get_list env config "node-ips" None w1 = (Ok items, w2)
        /\ db w2 = db w1).
Proof.
  intros env items.
  split; [apply env_of_reachable|]. split; [reflexivity|].
  split.
  - exact (proj1 (store_round_trip env config "uuid" "5d2c-77aa" items (world_of [])
                    (env_of_reachable _) eq_refl eq_refl)).
  - apply (proj2 (store_round_trip env config "node-ips" "" items (world_of [])
                    (env_of_reachable _) eq_refl eq_refl)).
    + repeat constructor.
    + discriminate.
    + discriminate.
Defined.

(** X2. A write ends in one of three ways: it returns, and then the
    document of the key holds the value as its one field and every other
    document is as before; or it raises "Failed to put Firestore
    document" and the database is as before; or the manager has no token
    and nothing has happened. *)
Theorem store_write_effect
    (env : Env) (config : ProvisioningConfig) (key value : string)
    (w w' : World) (r : result unit) :
  fs_put env config key value w = (r, w') ->
  (r = Ok tt
   /\ db w' !! record_path config key = Some {[ key := StringValue value ]}
   /\ (forall path, path <> record_path config key -> db w' !! path = db w !! path)
   /\ persisted config w' key None = value)
  \/ (r = Raise (ProvisioningError ("Failed to put Firestore document: " +:+ key))
      /\ db w' = db w)
  \/ (r = Raise (ProvisioningError "Failed to get Firestore token") /\ w' = w).
Proof.
  intros H. destruct (fs_put_effect _ _ _ _ _ _ _ H) as [[-> Hdb]|[?|?]]; auto.
  left. split; [reflexivity|]. rewrite Hdb.
  split; [apply lookup_insert_eq|].
  split; [intros path Hp; apply lookup_insert_ne; congruence|].
  eapply persisted_put_same, Hdb.
Qed.

(** A write that gets no answer: the database is as before. *)
Lemma store_write_effect_witness :
  let env := env_losing 1 in
  let w := world_of (cluster_record "deploy-b" "1000") in
  fs_put env config "soft-capacity-limit" "2000" w
  = (Raise (ProvisioningError
              "Failed to put Firestore document: soft-capacity-limit"),
     snd (fs_put env config "soft-capacity-limit" "2000" w))
  /\ db (snd (fs_put env config "soft-capacity-limit" "2000" w)) = db w.
Proof.
  intros env w.
  assert (Hrun : fs_put env config "soft-capacity-limit" "2000" w
                 = (Raise (ProvisioningError
                             "Failed to put Firestore document: soft-capacity-limit"),
                    snd (fs_put env config "soft-capacity-limit" "2000" w)))
    by (vm_compute; reflexivity).
  split; [exact Hrun|].
  destruct (store_write_effect env config "soft-capacity-limit" "2000" w _ _ Hrun)
    as [[Hok _]|[[_ Hdb]|[Htok _]]].
  - discriminate.
  - exact Hdb.
  - discriminate.
Defined.

(** X3. A manager whose configuration leaves the project, the database or
    the deployment unnamed refuses every operation with "Failed to get
    Firestore token", and a named one refuses an empty status, each time
    without any interaction: the world is as before. *)
Theorem store_refusals
    (env : Env) (config : ProvisioningConfig) (key value status : string)
    (deployment_name : option string) (items : list string) (w : World) :
  (names_store config = false ->
   let refused {A : Type} : result A * World :=
     (Raise (ProvisioningError "Failed to get Firestore token"), w) in
   fs_get env config key deployment_name w = refused
   /\ fs_put env config key value w = refused
   /\ get_list env config key deployment_name w = refused
   /\ put_list env config key items w = refused
   /\ update_status env config status w = refused)
  /\ (names_store config = true ->
      update_status env config "" w
      = (Raise (ProvisioningError "Failed to put Firestore status: "), w)).
Proof.
  split.
  - intros Hnames refused.
    pose proof (unnamed_gettoken config w Hnames) as Htok.
    unfold get_list, put_list, fs_get, fs_put, update_status.
    repeat split; try (apply bind_raise; exact Htok).
    apply bind_raise, bind_raise. exact Htok.
  - intros Hnames. destruct (names_store_gettoken config w Hnames) as (token & Htok & _).
    unfold update_status. rewrite (bind_ok _ _ _ _ _ Htok).
    unfold put_status_with_timestamp. rewrite !andb_false_r. reflexivity.
Qed.

(** A configuration without a deployment name, and an empty status. *)
Lemma store_refusals_witness :
  let env := env_of (healthy "") in
  let unnamed := with_deployment "" config in
  let refused {A : Type} : result A * World :=
    (Raise (ProvisioningError "Failed to get Firestore token"), world_of []) in
  names_store unnamed = false /\ names_store config = true
  /\ (fs_get env unnamed "uuid" None (world_of []) = refused
      /\ fs_put env unnamed "uuid" "5d2c-77aa" (world_of []) = refused
      /\ get_list env unnamed "uuid" None (world_of []) = refused
      /\ put_list env unnamed "uuid" [] (world_of []) = refused
      /\ update_status env unnamed "BOOTED" (world_of []) = refused)
  /\ update_status env config "" (world_of [])
     = (Raise (ProvisioningError "Failed to put Firestore status: "), world_of []).
Proof.
  intros env unnamed refused. split; [reflexivity|]. split; [reflexivity|]. split.
  - exact (proj1 (store_refusals env unnamed "uuid" "5d2c-77aa" "BOOTED" None []
                    (world_of [])) eq_refl).
  - exact (proj2 (store_refusals env config "" "" "" None [] (world_of [])) eq_refl).
Defined.

(** X4. A read of a document that does not exist returns the sentinel
    "null", and so does a read that fails, whatever the store holds: when
    the access token is not granted or the request gets no answer.  The
    list read is then empty, and the database is as before. *)
Theorem store_read_sentinel
    (env : Env) (config : ProvisioningConfig) (key : string)
    (deployment_name : option string) (w : World) :
  names_store config = true ->
  db w !! (project config, storage_deployment_name config,
           deployment_or_current config deployment_name, key) = None
  \/ token_granted (shell env (tick w) access_token_cmd) = false
  \/ http_ok env (S (tick w)) = false ->
  exists w',
    fs_get env config key deployment_name w = (Ok "null", w')
    /\ get_list env config key deployment_name w = (Ok [], w')
    /\ db w' = db w.
Proof.
  intros Hnames Hcase.
  destruct (names_store_gettoken config w Hnames) as (token & Htok & Hne).
  assert (Hget : exists w', fs_get env config key deployment_name w = (Ok "null", w')
                            /\ db w' = db w).
  { unfold fs_get. rewrite (bind_ok _ _ _ _ _ Htok).
    unfold get_document, _make_request, _get_access_token, send_request, bind, ret.
    destruct (negb _); [eauto|].
    unfold token_granted in Hcase.
    destruct (shell env (tick w) access_token_cmd) as [rc out|]; [|eauto].
    destruct (rc =? 0)%Z; [|eauto].
    destruct (PyStr.strip out) as [|c s]; [eauto|].
    rewrite tick_log_event. cbn [log_event db PyStr.nonempty andb] in *.
    destruct (http_ok env (S (tick w))); [|eauto].
    destruct Hcase as [Hnone|[?|?]]; try discriminate.
    rewrite Hnone. eauto. }
  destruct Hget as (w' & Hget & Hdb). exists w'.
  split; [exact Hget|]. split; [|exact Hdb].
  unfold get_list. rewrite (bind_ok _ _ _ _ _ Hget). reflexivity.
Qed.

(** The persisted node addresses are read while the request gets no
    answer. *)
Lemma store_read_sentinel_witness :
  let w := world_of (cluster_record "deploy-b" "1000") in
  persisted config w "node-ips" None = "10.0.0.1,10.0.0.2,10.0.0.3"
  /\ exists w',
       fs_get (env_losing 1) config "node-ips" None w = (Ok "null", w')
       /\ get_list (env_losing 1) config "node-ips" None w = (Ok [], w')
       /\ db w' = db w.
Proof.
  intros w. split; [vm_compute; reflexivity|].
  apply (store_read_sentinel (env_losing 1) config "node-ips" None w eq_refl).
  right. right. reflexivity.
Defined.

(* ===================================================================== *)
(** ** The status log: its marker and its labels *)
(* ===================================================================== *)

Lemma status_field_key_not_marker (now : datetime) :
  status_field_key now <> "last-run-status".
Proof. unfold status_field_key. destruct (dt_month now); discriminate. Qed.

(** What a status update does with the store reachable: the label is
    added to the fields it read, or to the marker alone when there is no
    log yet. *)
Lemma update_status_reachable env config status w :
  store_reachable env -> names_store config = true ->
  PyStr.nonempty status = true ->
  exists w',
    update_status env config status w = (Ok tt, w')
    /\ db w'
       = <[status_path config :=
             <[status_field_key (clock env (tick w)) := StringValue status]>
               (default {[ "last-run-status" := StringValue "null" ]}
                  (db w !! status_path config))]> (db w)
    /\ tick w' = tick w + 5.
Proof.
  intros Hreach Hnames Hstatus.
  destruct (names_store_gettoken config w Hnames) as (token & Htok & Hne).
  unfold update_status. rewrite (bind_ok _ _ _ _ _ Htok).
  unfold names_store in Hnames.
  apply andb_true_iff in Hnames as [Hnames Hc].
  apply andb_true_iff in Hnames as [Hp Hd].
  unfold put_status_with_timestamp. rewrite Hp, Hd, Hc, Hne, Hstatus.
  cbn [andb negb].
  unfold bind at 1. unfold bind at 1. unfold datetime_now at 1.
  unfold bind at 1. rewrite make_request_reachable by exact Hreach.
  unfold send_request at 1.
  destruct (Hreach (tick (log_event (Run access_token_cmd) (log_event ReadClock w))))
    as [_ ->].
  unfold bind at 1. rewrite make_request_reachable by exact Hreach.
  unfold send_request.
  match goal with
  | |- context [http_ok env ?t] => destruct (Hreach t) as [_ ->]
  end.
  cbn [ret default]. eexists. split; [reflexivity|].
  cbn [set_db db log_event]. unfold status_path, record_path. split.
  - destruct (db w !! _); reflexivity.
  - unfold tick. cbn [trace set_db log_event]. rewrite !length_app. cbn. lia.
Qed.

(** X5. With the store reachable, a status update on a deployment without
    a log creates the log with the marker field "last-run-status" set to
    "null" and the status under its label; and on a log whose marker reads
    "null" an update leaves it so: what [get] reads under
    "last-run-status" is "null" before and after every update, and the
    documents of the record are untouched. *)
Theorem status_log_marker
    (env : Env) (config : ProvisioningConfig) (status : string) (w : World) :
  store_reachable env -> names_store config = true ->
  PyStr.nonempty status = true ->
  persisted config w "last-run-status" None = "null" ->
  exists w',
    update_status env config status w = (Ok tt, w')
    /\ persisted config w' "last-run-status" None = "null"
    /\ same_docs w w'
    /\ (db w !! status_path config = None ->
        db w' !! status_path config
        = Some (<[status_field_key (clock env (tick w)) := StringValue status]>
                  {[ "last-run-status" := StringValue "null" ]})).
Proof.
  intros Hreach Hnames Hstatus Hmarker.
  destruct (update_status_reachable env config status w Hreach Hnames Hstatus)
    as (w' & Hrun & Hdb & _).
  exists w'. split; [exact Hrun|]. split; [|split].
  - unfold persisted, stored_text in *. cbn [deployment_or_current] in *.
    rewrite Hdb. fold (record_path config "last-run-status").
    fold (status_path config). rewrite lookup_insert_eq.
    unfold field_text. rewrite lookup_insert_ne by apply status_field_key_not_marker.
    fold (record_path config "last-run-status") in Hmarker.
    fold (status_path config) in Hmarker.
    destruct (db w !! status_path config) as [fields|]; [exact Hmarker|reflexivity].
  - eapply keeps_update_status, Hrun.
  - intros Hnone. rewrite Hdb, lookup_insert_eq, Hnone. reflexivity.
Qed.

(** The first status of a deployment that has no log yet. *)
Lemma status_log_marker_witness :
  let env := env_of (healthy "") in
  exists w',
    update_status env config "BOOTED. Internet up." (world_of []) = (Ok tt, w')
    /\ persisted config w' "last-run-status" None = "null"
    /\ same_docs (world_of []) w'
    /\ (db (world_of []) !! status_path config = None ->
        db w' !! status_path config
        = Some (<["Jul_17_123456" := StringValue "BOOTED. Internet up."]>
                  {[ "last-run-status" := StringValue "null" ]})).
Proof.
  intros env.
  apply (status_log_marker env config "BOOTED. Internet up." (world_of [])
           (env_of_reachable _) eq_refl eq_refl).
  vm_compute. reflexivity.
Defined.

Lemma two_digits_shape (n : nat) :
  n < 100 ->
  exists a b, two_digits n = String a (String b EmptyString)
              /\ two_digit_value a b = n.
Proof.
  intros H.
  do 100 (destruct n as [|n]; [eexists; eexists; split; reflexivity|]).
  lia.
Qed.

(** X6. The label of a status update can be read back into the month,
    day, hour, minute and second it was made from; so two updates bear the
    same label only if they are made in the same second of the same day
    of the same month. *)
Theorem status_label_round_trip (now later : datetime) :
  two_digit_fields now -> two_digit_fields later ->
  read_status_field_key (status_field_key now) = Some now
  /\ (status_field_key now = status_field_key later -> now = later).
Proof.
  assert (Hread : forall t, two_digit_fields t ->
                    read_status_field_key (status_field_key t) = Some t).
  { intros [m d h n s] (Hd & Hh & Hn & Hs). cbn [dt_day dt_hour dt_minute dt_second] in *.
    unfold status_field_key. cbn [dt_month dt_day dt_hour dt_minute dt_second].
    destruct (two_digits_shape d Hd) as (d1 & d2 & -> & <-).
    destruct (two_digits_shape h Hh) as (h1 & h2 & -> & <-).
    destruct (two_digits_shape n Hn) as (n1 & n2 & -> & <-).
    destruct (two_digits_shape s Hs) as (s1 & s2 & -> & <-).
    destruct m; reflexivity. }
  intros Hnow Hlater. split; [apply Hread, Hnow|].
  intros Heq. apply (f_equal read_status_field_key) in Heq.
  rewrite (Hread now Hnow), (Hread later Hlater) in Heq. congruence.
Qed.

(** The label of noon on the seventeenth of July. *)
Lemma status_label_round_trip_witness :
  two_digit_fields noon
  /\ read_status_field_key (status_field_key noon) = Some noon
  /\ (status_field_key noon = status_field_key noon -> noon = noon).
Proof.
  assert (H : two_digit_fields noon) by (unfold two_digit_fields; cbn; lia).
  split; [exact H|]. exact (status_label_round_trip noon noon H H).
Defined.

(* ===================================================================== *)
(** ** Versions: reading, comparing, gating *)
(* ===================================================================== *)

(** [vercomp] on versions whose fields read as numbers. *)
Lemma vercomp_fields (version1 version2 : string) (a b : list Z) :
  Forall2 (fun p n => field_number p = Some n) (PyStr.split "."%char version1) a ->
  Forall2 (fun p n => field_number p = Some n) (PyStr.split "."%char version2) b ->
  vercomp version1 version2
  = Ok (compare_fields (zero_pad (Nat.max (length a) (length b)) a)
          (zero_pad (Nat.max (length a) (length b)) b)).
Proof.
  intros Ha Hb. set (n := Nat.max (length a) (length b)). unfold vercomp.
  destruct (String.eqb_spec version1 version2) as [->|_].
  - rewrite (field_numbers_unique _ _ _ Ha Hb). symmetry. f_equal.
    apply compare_fields_refl.
  - pose proof (Forall2_length _ _ _ Ha) as La.
    pose proof (Forall2_length _ _ _ Hb) as Lb.
    rewrite La, Lb. fold n.
    pose proof (field_numbers_pad _ _ n Ha) as Pa.
    pose proof (field_numbers_pad _ _ n Hb) as Pb.
    rewrite La in Pa. rewrite Lb in Pb.
    assert (Hn : length (PyStr.split "."%char version1
                         ++ repeat "0" (n - length a)) = n).
    { rewrite length_app, repeat_length, La. lia. }
    rewrite <- Hn at 1.
    apply (vercomp_loop_numeric _ _ _ _ Pa Pb) with (pre1 := []) (pre2 := []).
    + unfold zero_pad. rewrite !length_app, !repeat_length. lia.
    + reflexivity.
Qed.

Lemma compare_fields_opposite (a : list Z) :
  forall b, length a = length b ->
    compare_fields b a = opposite (compare_fields a b).
Proof.
  induction a as [|x a IH]; intros [|y b] Hlen; try discriminate; [reflexivity|].
  cbn [compare_fields].
  destruct (Z.gtb_spec y x), (Z.ltb_spec y x), (Z.gtb_spec x y), (Z.ltb_spec x y);
    try lia; try reflexivity.
  apply IH. cbn in Hlen. lia.
Qed.

Lemma compare_fields_equal (a : list Z) :
  forall b, length a = length b -> (compare_fields a b = 0%Z <-> a = b).
Proof.
  induction a as [|x a IH]; intros [|y b] Hlen; try discriminate; [tauto|].
  cbn [compare_fields].
  destruct (Z.gtb_spec x y), (Z.ltb_spec x y); try lia.
  - split; [discriminate|]. intros [= ]. lia.
  - split; [discriminate|]. intros [= ]. lia.
  - assert (x = y) by lia. subst y.
    rewrite (IH b) by (cbn in Hlen; lia). split; congruence.
Qed.

Lemma compare_fields_code (a : list Z) :
  forall b, compare_fields a b = 0%Z \/ compare_fields a b = 1%Z
            \/ compare_fields a b = 2%Z.
Proof.
  induction a as [|x a IH]; intros [|y b]; cbn [compare_fields]; auto.
  destruct (x >? y)%Z; [auto|]. destruct (x <? y)%Z; auto.
Qed.

Lemma zero_pad_length (n : nat) (a : list Z) :
  length a <= n -> length (zero_pad n a) = n.
Proof. intros H. unfold zero_pad. rewrite length_app, repeat_length. lia. Qed.

(** X7. On versions whose fields read as numbers, [vercomp] is a
    comparison: it returns 0, 1 or 2, exchanging the arguments exchanges
    less (1) and greater (2), and the result is "equal" exactly when the
    numbers agree once the shorter list is padded with zeros (so "7.6"
    equals "7.6.0"). *)
Theorem vercomp_antisymmetric (version1 version2 : string) (a b : list Z) :
  Forall2 (fun p n => field_number p = Some n) (PyStr.split "."%char version1) a ->
  Forall2 (fun p n => field_number p = Some n) (PyStr.split "."%char version2) b ->
  exists c,
    vercomp version1 version2 = Ok c
    /\ vercomp version2 version1 = Ok (opposite c)
    /\ (c = 0 \/ c = 1 \/ c = 2)%Z
    /\ (c = 0%Z <->
        zero_pad (Nat.max (length a) (length b)) a
        = zero_pad (Nat.max (length a) (length b)) b).
Proof.
  intros Ha Hb. set (n := Nat.max (length a) (length b)).
  exists (compare_fields (zero_pad n a) (zero_pad n b)).
  assert (Hlen : length (zero_pad n a) = length (zero_pad n b))
    by (rewrite !zero_pad_length; lia).
  split; [apply (vercomp_fields _ _ _ _ Ha Hb)|]. split.
  - rewrite (vercomp_fields _ _ _ _ Hb Ha), (Nat.max_comm (length b)). fold n.
    f_equal. apply compare_fields_opposite, Hlen.
  - split; [apply compare_fields_code|]. apply compare_fields_equal, Hlen.
Qed.

(** "7.6" against "7.6.0": equal in both directions. *)
Lemma vercomp_antisymmetric_witness :
  Forall2 (fun p n => field_number p = Some n) (PyStr.split "."%char "7.6") [7; 6]%Z
  /\ Forall2 (fun p n => field_number p = Some n)
       (PyStr.split "."%char "7.6.0") [7; 6; 0]%Z
  /\ exists c,
       vercomp "7.6" "7.6.0" = Ok c
       /\ vercomp "7.6.0" "7.6" = Ok (opposite c)
       /\ (c = 0 \/ c = 1 \/ c = 2)%Z
       /\ (c = 0%Z <-> zero_pad 3 [7; 6]%Z = zero_pad 3 [7; 6; 0]%Z).
Proof.
  assert (H1 : Forall2 (fun p n => field_number p = Some n)
                 (PyStr.split "."%char "7.6") [7; 6]%Z)
    by (repeat constructor).
  assert (H2 : Forall2 (fun p n => field_number p = Some n)
                 (PyStr.split "."%char "7.6.0") [7; 6; 0]%Z)
    by (repeat constructor).
  split; [exact H1|]. split; [exact H2|].
  exact (vercomp_antisymmetric "7.6" "7.6.0" [7; 6]%Z [7; 6; 0]%Z H1 H2).
Defined.

(* --------------------------------------------------------------------- *)
(** *** Versions made of digits and dots *)
(* --------------------------------------------------------------------- *)

Lemma decimal_not_space (c : ascii) :
  PyStr.isdecimal_char c = true -> PyStr.isspace c = false.
Proof.
  unfold PyStr.isdecimal_char, PyStr.isspace. intros H.
  apply andb_true_iff in H as [H1 H2].
  apply Nat.leb_le in H1. apply Nat.leb_le in H2.
  repeat match goal with
         | |- orb _ _ = false => apply orb_false_intro
         | |- andb _ _ = false => apply andb_false_iff
         end.
  - right. apply Nat.leb_gt. lia.
  - right. apply Nat.leb_gt. lia.
  - apply Nat.eqb_neq. lia.
  - apply Nat.eqb_neq. lia.
Qed.

Lemma decimal_is_digit (c : ascii) :
  PyStr.isdecimal_char c = true -> PyStr.isdigit_char c = true.
Proof. unfold PyStr.isdigit_char. intros ->. reflexivity. Qed.

Lemma decimal_last_char_ok (s : string) :
  PyStr.forallb_str PyStr.isdecimal_char s = true ->
  last_char_ok PyStr.isspace s = true.
Proof.
  induction s as [|c r IH]; [reflexivity|]. cbn [PyStr.forallb_str].
  intros H. apply andb_true_iff in H as [Hc Hr]. cbn [last_char_ok].
  destruct r as [|c' r'].
  - rewrite (decimal_not_space _ Hc). reflexivity.
  - apply IH, Hr.
Qed.

Lemma int_digits_decimal (s : string) :
  forall (after_digit : bool) (acc : Z),
    PyStr.forallb_str PyStr.isdecimal_char s = true ->
    (0 <= acc)%Z ->
    PyStr.nonempty s = true \/ after_digit = true ->
    exists n, PyStr.int_digits after_digit acc s = Some n /\ (0 <= n)%Z.
Proof.
  induction s as [|c r IH]; intros after_digit acc Hall Hacc Hne.
  - destruct Hne as [Hne| ->]; [discriminate|]. exists acc. split; [reflexivity|exact Hacc].
  - cbn [PyStr.forallb_str] in Hall. apply andb_true_iff in Hall as [Hc Hr].
    cbn [PyStr.int_digits]. rewrite Hc. apply IH; [exact Hr| |right; reflexivity].
    unfold PyStr.digit_value. lia.
Qed.

(** [int] reads every non-empty text of decimal digits. *)
Lemma int_decimal (s : string) :
  PyStr.nonempty s = true ->
  PyStr.forallb_str PyStr.isdecimal_char s = true ->
  exists n, PyStr.int s = Some n /\ (0 <= n)%Z.
Proof.
  intros Hne Hall. unfold PyStr.int.
  assert (Hstrip : PyStr.strip s = s).
  { unfold PyStr.strip, PyStr.strip_by. rewrite lstrip_by_first.
    - apply rstrip_by_last, decimal_last_char_ok, Hall.
    - destruct s as [|c r]; [reflexivity|]. cbn [PyStr.forallb_str] in Hall.
      apply andb_true_iff in Hall as [Hc _]. cbn [first_char_ok].
      rewrite (decimal_not_space _ Hc). reflexivity. }
  rewrite Hstrip. destruct s as [|c r]; [discriminate|].
  assert (Hdigits : exists n, PyStr.int_digits false 0 (String c r) = Some n /\ (0 <= n)%Z)
    by (apply int_digits_decimal; [exact Hall|lia|left; reflexivity]).
  cbn [PyStr.forallb_str] in Hall. apply andb_true_iff in Hall as [Hc _].
  destruct (Ascii.eqb_spec c "+"%char) as [->|Hplus]; [discriminate|].
  destruct (Ascii.eqb_spec c "-"%char) as [->|Hminus]; [discriminate|].
  destruct c as [[] [] [] [] [] [] [] []]; try exact Hdigits; congruence.
Qed.

Lemma field_number_decimal (p : string) :
  PyStr.forallb_str PyStr.isdecimal_char p = true ->
  exists n, field_number p = Some n /\ (0 <= n)%Z.
Proof.
  intros Hall. unfold field_number, PyStr.isdigit.
  destruct p as [|c r]; [exists 0%Z; split; [reflexivity|lia]|].
  cbn [PyStr.nonempty andb].
  assert (Hd : PyStr.forallb_str PyStr.isdigit_char (String c r) = true).
  { clear -Hall. induction (String c r) as [|x s IH]; [reflexivity|].
    cbn [PyStr.forallb_str] in *. apply andb_true_iff in Hall as [Hx Hs].
    rewrite (decimal_is_digit _ Hx), (IH Hs). reflexivity. }
  rewrite Hd. apply int_decimal; [reflexivity|exact Hall].
Qed.

Lemma split_digit_or_dot (s : string) :
  PyStr.forallb_str digit_or_dot s = true ->
  Forall (fun p => PyStr.forallb_str PyStr.isdecimal_char p = true)
    (PyStr.split "."%char s).
Proof.
  induction s as [|c r IH]; [repeat constructor|].
  cbn [PyStr.forallb_str PyStr.split]. intros H.
  apply andb_true_iff in H as [Hc Hr]. specialize (IH Hr).
  destruct (Ascii.eqb c "."%char) eqn:Hdot.
  - constructor; [reflexivity|exact IH].
  - unfold digit_or_dot in Hc. rewrite Hdot, orb_false_r in Hc.
    destruct (PyStr.split "."%char r) as [|h t].
    + repeat constructor. cbn. rewrite Hc. reflexivity.
    + inversion IH as [|? ? Hh Ht]; subst. constructor; [|exact Ht].
      cbn [PyStr.forallb_str]. rewrite Hc, Hh. reflexivity.
Qed.

(** The fields of a version made of digits and dots read as numbers. *)
Lemma digit_version_fields (version : string) :
  PyStr.forallb_str digit_or_dot version = true ->
  exists a, Forall2 (fun p n => field_number p = Some n)
              (PyStr.split "."%char version) a.
Proof.
  intros H. apply split_digit_or_dot in H.
  induction H as [|p parts Hp _ [a IH]]; [exists []; constructor|].
  destruct (field_number_decimal p Hp) as (n & Hn & _).
  exists (n :: a). constructor; assumption.
Qed.

(* --------------------------------------------------------------------- *)
(** *** How commands fail *)
(* --------------------------------------------------------------------- *)

Lemma raises_only_ret {A : Type} (E : exn -> Prop) (a : A) : raises_only E (ret a).
Proof. intros w e w' H. discriminate. Qed.


Lemma raises_only_bind {A B : Type} (E : exn -> Prop) (m : M A) (k : A -> M B) :
  raises_only E m -> (forall a, raises_only E (k a)) -> raises_only E (bind m k).
Proof.
  intros Hm Hk w e w' H.
  apply bind_inv in H as [(a & w1 & _ & H2)|[(e' & H1 & Heq)|[_ Heq]]].
  - eapply Hk, H2.
  - inversion Heq; subst. eapply Hm, H1.
  - discriminate.
Qed.

Lemma raises_only_weaken {A : Type} (E E' : exn -> Prop) (m : M A) :
  (forall e, E e -> E' e) -> raises_only E m -> raises_only E' m.
Proof. intros HE Hm w e w' H. eapply HE, Hm, H. Qed.

Lemma never_hangs_ret {A : Type} (a : A) : never_hangs (ret a).
Proof. intros w w' H. discriminate. Qed.

Lemma never_hangs_raise {A : Type} (e : exn) : never_hangs (@raise A e).
Proof. intros w w' H. discriminate. Qed.

Lemma never_hangs_bind {A B : Type} (m : M A) (k : A -> M B) :
  never_hangs m -> (forall a, never_hangs (k a)) -> never_hangs (bind m k).
Proof.
  intros Hm Hk w w' H.
  apply bind_inv in H as [(a & w1 & _ & H2)|[(e' & _ & Heq)|[H1 _]]].
  - eapply Hk, H2.
  - discriminate.
  - eapply Hm, H1.
Qed.

Lemma provisioning_is_command_failure (e : exn) :
  is_ProvisioningError e -> is_command_failure e.
Proof. intros H. left. exact H. Qed.

Lemma raises_only_run_command env cmd timeout check :
  raises_only is_command_failure (run_command env cmd timeout check).
Proof.
  intros w e w' H. unfold run_command in H.
  destruct (shell env (tick w) cmd) as [rc out|].
  - destruct (check && negb (rc =? 0)%Z); inversion H; subst. left. eexists. reflexivity.
  - destruct timeout; inversion H; subst. right. eexists. reflexivity.
Qed.

Lemma never_hangs_run_command env cmd seconds check :
  never_hangs (run_command env cmd (Some seconds) check).
Proof.
  intros w w' H. unfold run_command in H.
  destruct (shell env (tick w) cmd) as [rc out|]; [|discriminate].
  destruct (check && negb (rc =? 0)%Z); discriminate.
Qed.

Lemma make_request_returns env path method data w :
  exists response w', _make_request env path method data w = (Ok response, w').
Proof.
  unfold _make_request, bind, _get_access_token.
  destruct (match shell env (tick w) access_token_cmd with
            | Exited rc out => if (rc =? 0)%Z then Some (PyStr.strip out) else None
            | TimedOut => None
            end) as [[|c s]|]; cbn [ret]; eauto.
  unfold send_request. destruct (http_ok env _); [destruct method|]; eauto.
Qed.

Lemma put_status_returns env project database collection token status w :
  exists success w',
    put_status_with_timestamp env project database collection token status w
    = (Ok success, w').
Proof.
  unfold put_status_with_timestamp.
  destruct (negb _); [cbn; eauto|].
  unfold bind at 1. unfold datetime_now at 1.
  unfold bind at 1.
  match goal with
  | |- context [_make_request env ?p GET None ?w0] =>
      destruct (make_request_returns env p GET None w0) as (r1 & w1 & ->)
  end.
  unfold bind at 1.
  match goal with
  | |- context [_make_request env ?p PATCH ?d ?w0] =>
      destruct (make_request_returns env p PATCH d w0) as (r2 & w2 & ->)
  end.
  cbn [ret]. eauto.
Qed.

(** A status update returns, or fails with [ProvisioningError]. *)
Lemma update_status_outcome env config status w r w' :
  update_status env config status w = (r, w') ->
  r = Ok tt \/ exists msg, r = Raise (ProvisioningError msg).
Proof.
  unfold update_status. intros H.
  apply bind_inv in H as [(token & w1 & _ & H)|[(e & H1 & ->)|[H1 _]]].
  - destruct (put_status_returns env (project config) (storage_deployment_name config)
                (deployment_unique_name config) token status w1) as (ok & w2 & Hput).
    rewrite (bind_ok _ _ _ _ _ Hput) in H.
    destruct ok; inversion H; subst; [left; reflexivity|right; eexists; reflexivity].
  - right. unfold gettoken in H1.
    destruct (get_token _ _ _) as [[|c s]|]; inversion H1; subst; eexists; reflexivity.
  - unfold gettoken in H1. destruct (get_token _ _ _) as [[|c s]|]; discriminate.
Qed.

(** X8. The version gate, on a version made of digits and dots (as
    [get_qfsd_version] returns) that [int] can read: its fields read as
    numbers; when they are not less than 7, 6, 0 the gate returns and
    leaves the world as it was; when they are less it raises
    [ProvisioningError] (with its own message, when the status update
    before it succeeds) and every document other than a status log is
    untouched.  It never fails in any other way. *)
Theorem version_gate
    (env : Env) (config : ProvisioningConfig) (version : string) (w : World) :
  PyStr.forallb_str digit_or_dot version = true ->
  String.length version <= int_max_str_digits ->
  exists a,
    Forall2 (fun p n => field_number p = Some n) (PyStr.split "."%char version) a
    /\ let n := Nat.max (length a) 3 in
       if (compare_fields (zero_pad n a) (zero_pad n [7; 6; 0]) =? 1)%Z
       then exists msg w',
              validate_qfsd_version env config version w
              = (Raise (ProvisioningError msg), w')
              /\ same_docs w w'
              /\ (store_reachable env -> names_store config = true ->
                  msg = version_error_msg)
       else validate_qfsd_version env config version w = (Ok tt, w).
Proof.
  intros Hchars _. destruct (digit_version_fields version Hchars) as (a & Ha).
  exists a. split; [exact Ha|]. intros n.
  assert (Hb : Forall2 (fun p n => field_number p = Some n)
                 (PyStr.split "."%char "7.6.0") [7; 6; 0]%Z)
    by (repeat constructor).
  pose proof (vercomp_fields _ _ _ _ Ha Hb) as Hcmp.
  change (Nat.max (length a) (length [7; 6; 0]%Z)) with n in Hcmp.
  unfold validate_qfsd_version. unfold bind at 1. unfold lift. rewrite Hcmp.
  destruct (compare_fields_code (zero_pad n a) (zero_pad n [7; 6; 0]%Z))
    as [-> | [-> | ->]]; cbn [Z.eqb Pos.eqb orb]; try reflexivity.
  fold version_error_msg.
  destruct (update_status env config version_error_msg w) as [r w'] eqn:Hstatus.
  pose proof (keeps_update_status _ _ _ _ _ _ Hstatus) as Hdocs.
  destruct (update_status_outcome _ _ _ _ _ _ Hstatus) as [-> | (msg & ->)].
  - exists version_error_msg, w'. rewrite (bind_ok _ _ _ _ _ Hstatus).
    split; [reflexivity|]. split; [exact Hdocs|reflexivity].
  - exists msg, w'. rewrite (bind_raise _ _ _ _ _ Hstatus).
    split; [reflexivity|]. split; [exact Hdocs|].
    intros Hreach Hnames.
    destruct (update_status_reachable env config version_error_msg w Hreach Hnames
                eq_refl) as (w2 & Hok & _).
    rewrite Hok in Hstatus. discriminate.
Qed.

(** The version of a node that printed no revision: the empty text reads
    as 0, which is less than 7.6.0, and the gate refuses it. *)
Lemma version_gate_witness :
  let env := env_of (healthy "") in
  PyStr.forallb_str digit_or_dot "" = true
  /\ String.length "" <= int_max_str_digits
  /\ exists a,
       Forall2 (fun p n => field_number p = Some n) (PyStr.split "."%char "") a
       /\ let n := Nat.max (length a) 3 in
          if (compare_fields (zero_pad n a) (zero_pad n [7; 6; 0]) =? 1)%Z
          then exists msg w',
                 validate_qfsd_version env config "" (world_of [])
                 = (Raise (ProvisioningError msg), w')
                 /\ same_docs (world_of []) w'
                 /\ (store_reachable env -> names_store config = true ->
                     msg = version_error_msg)
          else validate_qfsd_version env config "" (world_of [])
               = (Ok tt, world_of []).
Proof.
  intros env.
  assert (Hlen : String.length "" <= int_max_str_digits)
    by (unfold int_max_str_digits; cbn; lia).
  split; [reflexivity|]. split; [exact Hlen|].
  exact (version_gate env config "" (world_of []) eq_refl Hlen).
Defined.

Lemma keep_forallb (p : ascii -> bool) (s : string) :
  PyStr.forallb_str p (PyStr.keep p s) = true.
Proof.
  induction s as [|c r IH]; [reflexivity|]. cbn [PyStr.keep].
  destruct (p c) eqn:Hc; [|exact IH]. cbn [PyStr.forallb_str].
  rewrite Hc, IH. reflexivity.
Qed.

Lemma keep_length (p : ascii -> bool) (s : string) :
  String.length (PyStr.keep p s) <= String.length s.
Proof.
  induction s as [|c r IH]; [reflexivity|]. cbn [PyStr.keep].
  destruct (p c); cbn [String.length]; lia.
Qed.

Lemma split_part_length (sep : ascii) (s : string) :
  Forall (fun part => String.length part <= String.length s) (PyStr.split sep s).
Proof.
  induction s as [|c r IH]; [repeat constructor|]. cbn [PyStr.split].
  destruct (Ascii.eqb c sep).
  - constructor; [cbn; lia|].
    eapply Forall_impl; [exact IH|]. cbn. intros; lia.
  - destruct (PyStr.split sep r) as [|h t]; [constructor; [cbn; lia|constructor]|].
    inversion IH as [|? ? Hh Ht]; subst. constructor; [cbn; lia|].
    eapply Forall_impl; [exact Ht|]. cbn. intros; lia.
Qed.

(** X9. The version [get_qfsd_version] returns holds only digits and
    dots and is no longer than the output of the command; it is empty
    when no line of the output holds "revision_id".  The command is the
    only interaction, and the function fails only as the command does. *)
Theorem qfsd_version_shape
    (env : Env) (node_ip : string) (w : World) (r : result string) (w' : World) :
  get_qfsd_version env node_ip w = (r, w') ->
  let cmd := "./qq --host " +:+ node_ip +:+ " version" in
  w' = log_event (Run cmd) w
  /\ match r with
     | Ok version =>
         exists stdout,
           shell env (tick w) cmd = Exited 0 stdout
           /\ PyStr.forallb_str digit_or_dot version = true
           /\ String.length version <= String.length stdout
           /\ (lines_with "revision_id" stdout = [] -> version = "")
     | Raise e =>
         e = TimeoutExpired cmd
         \/ exists returncode,
              e = ProvisioningError ("Command failed with exit code "
                                     +:+ PyStr.of_Z returncode +:+ ": " +:+ cmd)
     | Diverge => False
     end.
Proof.
  intros H cmd. unfold get_qfsd_version, qq_command in H.
  change ("./qq --host " +:+ node_ip +:+ " " +:+ "version") with cmd in H.
  unfold bind, run_command in H.
  destruct (shell env (tick w) cmd) as [rc out|] eqn:Hshell.
  - cbn [andb] in H. destruct (Z.eqb_spec rc 0) as [->|Hrc]; cbn [negb] in H.
    + cbn [snd] in H.
      destruct (lines_with "revision_id" out) as [|line rest] eqn:Hlines;
        inversion H; subst; (split; [reflexivity|]); exists out;
        (split; [reflexivity|]).
      * split; [reflexivity|]. split; [cbn; lia|]. intros _. reflexivity.
      * split; [apply keep_forallb|].
        split; [|intros Hnil; rewrite Hlines in Hnil; discriminate].
        etransitivity; [apply keep_length|].
        assert (Hin : In line (PyStr.split LF out)).
        { unfold lines_with in Hlines.
          assert (Hl : In line (List.filter (PyStr.contains "revision_id")
                                  (PyStr.split LF out)))
            by (rewrite Hlines; left; reflexivity).
          apply filter_In in Hl. apply Hl. }
        pose proof (split_part_length LF out) as Hparts.
        rewrite Forall_forall in Hparts. apply Hparts.
        apply list_elem_of_In. exact Hin.
    + inversion H; subst. split; [reflexivity|]. right. eexists. reflexivity.
  - inversion H; subst. split; [reflexivity|]. left. reflexivity.
Qed.

(** A node that reports revision "Qumulo Core 7.6.0". *)
Lemma qfsd_version_shape_witness :
  let env := env_of (healthy "") in
  let cmd := "./qq --host 10.0.0.1 version" in
  get_qfsd_version env "10.0.0.1" (world_of [])
  = (Ok "7.6.0", log_event (Run cmd) (world_of []))
  /\ log_event (Run cmd) (world_of []) = log_event (Run cmd) (world_of [])
  /\ exists stdout,
       shell env (tick (world_of [])) cmd = Exited 0 stdout
       /\ PyStr.forallb_str digit_or_dot "7.6.0" = true
       /\ String.length "7.6.0" <= String.length stdout
       /\ (lines_with "revision_id" stdout = [] -> "7.6.0" = "").
Proof.
  intros env cmd.
  assert (Hrun : get_qfsd_version env "10.0.0.1" (world_of [])
                 = (Ok "7.6.0", log_event (Run cmd) (world_of [])))
    by (vm_compute; reflexivity).
  split; [exact Hrun|].
  exact (qfsd_version_shape env "10.0.0.1" (world_of []) _ _ Hrun).
Defined.

(* ===================================================================== *)
(** ** What the list decoding yields *)
(* ===================================================================== *)

Lemma lstrip_by_first_ok (p : ascii -> bool) (s : string) :
  first_char_ok p (PyStr.lstrip_by p s) = true.
Proof.
  induction s as [|c r IH]; [reflexivity|]. cbn [PyStr.lstrip_by].
  destruct (p c) eqn:Hc; [exact IH|]. cbn [first_char_ok]. rewrite Hc. reflexivity.
Qed.

Lemma rstrip_by_last_ok (p : ascii -> bool) (s : string) :
  last_char_ok p (PyStr.rstrip_by p s) = true.
Proof.
  induction s as [|c r IH]; [reflexivity|]. cbn [PyStr.rstrip_by].
  destruct (PyStr.rstrip_by p r) as [|c' r'].
  - destruct (p c) eqn:Hc; [reflexivity|]. cbn [last_char_ok]. rewrite Hc. reflexivity.
  - exact IH.
Qed.

Lemma rstrip_by_keeps_first (p : ascii -> bool) (s : string) :
  first_char_ok p s = true -> first_char_ok p (PyStr.rstrip_by p s) = true.
Proof.
  destruct s as [|c r]; [reflexivity|]. cbn [first_char_ok PyStr.rstrip_by].
  intros Hc. destruct (PyStr.rstrip_by p r).
  - apply negb_true_iff in Hc. rewrite Hc. cbn [first_char_ok]. rewrite Hc. reflexivity.
  - exact Hc.
Qed.

Lemma lstrip_by_no_char (p q : ascii -> bool) (s : string) :
  PyStr.existsb_str q s = false -> PyStr.existsb_str q (PyStr.lstrip_by p s) = false.
Proof.
  induction s as [|c r IH]; [reflexivity|]. cbn [PyStr.lstrip_by].
  intros H. destruct (p c); [|exact H]. cbn [PyStr.existsb_str] in H.
  apply orb_false_elim in H as [_ Hr]. apply IH, Hr.
Qed.

Lemma rstrip_by_no_char (p q : ascii -> bool) (s : string) :
  PyStr.existsb_str q s = false -> PyStr.existsb_str q (PyStr.rstrip_by p s) = false.
Proof.
  induction s as [|c r IH]; [reflexivity|]. cbn [PyStr.existsb_str PyStr.rstrip_by].
  intros H. apply orb_false_elim in H as [Hc Hr]. specialize (IH Hr).
  destruct (PyStr.rstrip_by p r) as [|c' r'].
  - destruct (p c); [reflexivity|]. cbn [PyStr.existsb_str]. rewrite Hc. reflexivity.
  - cbn [PyStr.existsb_str] in *. rewrite Hc, IH. reflexivity.
Qed.

Lemma split_parts_no_sep (sep : ascii) (s : string) :
  Forall (fun part => PyStr.existsb_str (Ascii.eqb sep) part = false)
    (PyStr.split sep s).
Proof.
  induction s as [|c r IH]; [repeat constructor|]. cbn [PyStr.split].
  destruct (Ascii.eqb c sep) eqn:Hc; [constructor; [reflexivity|exact IH]|].
  rewrite Ascii.eqb_sym in Hc.
  destruct (PyStr.split sep r) as [|h t].
  - repeat constructor. cbn [PyStr.existsb_str]. rewrite Hc. reflexivity.
  - inversion IH as [|? ? Hh Ht]; subst. constructor; [|exact Ht].
    cbn [PyStr.existsb_str]. rewrite Hc, Hh. reflexivity.
Qed.

(** The items of a decoded list hold no comma and no whitespace at either
    end. *)
Lemma decoded_items_encodable (value : string) :
  Forall (fun x => encodable x = true) (deserialize_list_from_firestore value).
Proof.
  unfold deserialize_list_from_firestore.
  destruct (negb (PyStr.nonempty value) || String.eqb value "null"); [constructor|].
  apply Forall_map. eapply Forall_impl; [apply (split_parts_no_sep ","%char)|].
  intros part Hpart. cbn beta. unfold encodable, PyStr.strip, PyStr.strip_by.
  rewrite rstrip_by_no_char by (apply lstrip_by_no_char, Hpart).
  rewrite rstrip_by_keeps_first by apply lstrip_by_first_ok.
  rewrite rstrip_by_last_ok. reflexivity.
Qed.

(** X10. Whatever text is stored under a key, the list [get_list] decodes
    from it is one the encoding can carry: no item holds a comma or
    whitespace at either end.  So encoding it and decoding it again gives
    the same list, unless the decoded list is [[""]] or [["null"]] (from a
    stored text of whitespace only, or "null" surrounded by whitespace),
    which come back empty. *)
Theorem decoded_list_stable (value : string) :
  let items := deserialize_list_from_firestore value in
  Forall (fun x => encodable x = true) items
  /\ (items <> [""] -> items <> ["null"] ->
      deserialize_list_from_firestore (serialize_list_for_firestore items) = items)
  /\ (items = [""] \/ items = ["null"] ->
      deserialize_list_from_firestore (serialize_list_for_firestore items) = []).
Proof.
  intros items. split; [apply decoded_items_encodable|]. split.
  - apply decode_encode, decoded_items_encodable.
  - intros [-> | ->]; reflexivity.
Qed.

(** A stored list with spaces around its items, and a stored blank. *)
Lemma decoded_list_stable_witness :
  deserialize_list_from_firestore " 10.0.0.1 , 10.0.0.2" = ["10.0.0.1"; "10.0.0.2"]
  /\ deserialize_list_from_firestore
       (serialize_list_for_firestore ["10.0.0.1"; "10.0.0.2"])
     = ["10.0.0.1"; "10.0.0.2"]
  /\ deserialize_list_from_firestore " " = [""]
  /\ deserialize_list_from_firestore (serialize_list_for_firestore [""]) = [].
Proof.
  split; [reflexivity|]. split.
  - apply (proj1 (proj2 (decoded_list_stable " 10.0.0.1 , 10.0.0.2")));
      cbn; discriminate.
  - split; [reflexivity|].
    apply (proj2 (proj2 (decoded_list_stable " "))). left. reflexivity.
Defined.

(* ===================================================================== *)
(** ** The waiting loops *)
(* ===================================================================== *)

Lemma after_events_nil w : after_events [] w = w.
Proof. unfold after_events. rewrite app_nil_r. destruct w; reflexivity. Qed.

Lemma after_events_log ev events w :
  after_events events (log_event ev w) = after_events (ev :: events) w.
Proof. unfold after_events, log_event. cbn. rewrite <- app_assoc. reflexivity. Qed.

(** One poll of [wait_for_active_quorum]. *)
Lemma quorum_poll env qq_host w :
  try_except_ProvisioningError
    (let* result := qq_command env "node_state_get" qq_host in
     ret (PyStr.contains "ACTIVE" (snd result)))
    (ret false) w
  = (match shell env (tick w) (probe_cmd qq_host) with
     | Exited returncode stdout =>
         Ok ((returncode =? 0)%Z && PyStr.contains "ACTIVE" stdout)
     | TimedOut => Raise (TimeoutExpired (probe_cmd qq_host))
     end,
     log_event (Run (probe_cmd qq_host)) w).
Proof.
  unfold try_except_ProvisioningError, bind, qq_command, run_command.
  fold (probe_cmd qq_host).
  destruct (shell env (tick w) (probe_cmd qq_host)) as [rc out|]; [|reflexivity].
  destruct (rc =? 0)%Z; reflexivity.
Qed.

Lemma quorum_wait_step env fuel qq_host w :
  wait_for_active_quorum env (S fuel) qq_host w
  = match shell env (tick w) (probe_cmd qq_host) with
    | Exited returncode stdout =>
        if (returncode =? 0)%Z && PyStr.contains "ACTIVE" stdout
        then (Ok tt, log_event (Run (probe_cmd qq_host)) w)
        else wait_for_active_quorum env fuel qq_host
               (log_event (Sleep 5) (log_event (Run (probe_cmd qq_host)) w))
    | TimedOut =>
        (Raise (TimeoutExpired (probe_cmd qq_host)),
         log_event (Run (probe_cmd qq_host)) w)
    end.
Proof.
  cbn [wait_for_active_quorum]. unfold bind at 1. rewrite quorum_poll.
  destruct (shell env (tick w) (probe_cmd qq_host)) as [rc out|]; [|reflexivity].
  destruct ((rc =? 0)%Z && PyStr.contains "ACTIVE" out); reflexivity.
Qed.

(** X11. [wait_for_active_quorum] polls the node every five seconds: when
    the first [k] probes answer without reporting ACTIVE (a probe whose
    command fails is one of them), the wait ends at probe [k]: it returns
    when that probe reports ACTIVE, and raises [TimeoutExpired] when that
    probe does not answer within its timeout.  The interactions are the
    [k] probes and sleeps and the last probe, and the database is as it
    was. *)
Theorem quorum_wait_ends (env : Env) (qq_host : string) (k : nat) :
  forall (fuel : nat) (w : World),
    k < fuel ->
    (forall j, j < k ->
       still_forming (shell env (tick w + 2 * j) (probe_cmd qq_host)) = true) ->
    let final :=
      after_events
        (poll_events (probe_cmd qq_host) 5 k ++ [Run (probe_cmd qq_host)]) w in
    (reports_active (shell env (tick w + 2 * k) (probe_cmd qq_host)) = true ->
     wait_for_active_quorum env fuel qq_host w = (Ok tt, final))
    /\ (shell env (tick w + 2 * k) (probe_cmd qq_host) = TimedOut ->
        wait_for_active_quorum env fuel qq_host w
        = (Raise (TimeoutExpired (probe_cmd qq_host)), final)).
Proof.
  induction k as [|k IH]; intros fuel w Hfuel Hforming final.
  - destruct fuel as [|fuel]; [lia|]. subst final. cbn [poll_events repeat concat app].
    rewrite <- after_events_log, after_events_nil.
    rewrite quorum_wait_step. replace (tick w + 2 * 0) with (tick w) by lia.
    unfold reports_active.
    destruct (shell env (tick w) (probe_cmd qq_host)) as [rc out|].
    + split; [intros ->; reflexivity|discriminate].
    + split; [discriminate|reflexivity].
  - destruct fuel as [|fuel]; [lia|].
    pose proof (Hforming 0 ltac:(lia)) as H0.
    replace (tick w + 2 * 0) with (tick w) in H0 by lia.
    rewrite quorum_wait_step. unfold still_forming in H0.
    destruct (shell env (tick w) (probe_cmd qq_host)) as [rc out|]; [|discriminate].
    apply negb_true_iff in H0. rewrite H0.
    set (w1 := log_event (Sleep 5) (log_event (Run (probe_cmd qq_host)) w)).
    assert (Htick : tick w1 = tick w + 2)
      by (subst w1; rewrite !tick_log_event; lia).
    assert (Hfinal : final
                     = after_events
                         (poll_events (probe_cmd qq_host) 5 k
                          ++ [Run (probe_cmd qq_host)]) w1).
    { subst final w1. rewrite !after_events_log. reflexivity. }
    rewrite Hfinal.
    replace (tick w + 2 * S k) with (tick w1 + 2 * k) by lia.
    apply IH; [lia|]. intros j Hj.
    replace (tick w1 + 2 * j) with (tick w + 2 * S j) by lia.
    apply Hforming. lia.
Qed.

(** X12. However [wait_for_active_quorum] ends, it has only probed the
    node and slept, and the database is as it was.  It returns only after
    a probe that reported ACTIVE; the only exception it raises is the
    [TimeoutExpired] of a probe that did not answer: a probe whose
    command fails is polled again, never reported. *)
Theorem quorum_wait_safe (env : Env) (qq_host : string) :
  forall (fuel : nat) (w : World) (r : result unit) (w' : World),
    wait_for_active_quorum env fuel qq_host w = (r, w') ->
    db w' = db w
    /\ (exists events,
          trace w' = trace w ++ events
          /\ Forall (fun ev => ev = Run (probe_cmd qq_host) \/ ev = Sleep 5) events)
    /\ match r with
       | Ok _ =>
           reports_active (shell env (tick w' - 1) (probe_cmd qq_host)) = true
       | Raise e =>
           e = TimeoutExpired (probe_cmd qq_host)
           /\ shell env (tick w' - 1) (probe_cmd qq_host) = TimedOut
       | Diverge => tick w' = tick w + 2 * fuel
       end.
Proof.
  induction fuel as [|fuel IH]; intros w r w' H.
  - inversion H; subst. split; [reflexivity|]. split; [|lia].
    exists []. rewrite app_nil_r. split; [reflexivity|constructor].
  - rewrite quorum_wait_step in H.
    assert (Hlast : tick (log_event (Run (probe_cmd qq_host)) w) - 1 = tick w)
      by (rewrite tick_log_event; lia).
    destruct (shell env (tick w) (probe_cmd qq_host)) as [rc out|] eqn:Hshell.
    + destruct ((rc =? 0)%Z && PyStr.contains "ACTIVE" out) eqn:Hactive.
      * inversion H; subst. split; [reflexivity|]. split.
        -- exists [Run (probe_cmd qq_host)]. split; [reflexivity|].
           repeat constructor.
        -- rewrite Hlast, Hshell. exact Hactive.
      * apply IH in H as (Hdb & (events & Htrace & Hall) & Hr).
        split; [exact Hdb|]. split.
        -- exists (Run (probe_cmd qq_host) :: Sleep 5 :: events). split.
           ++ rewrite Htrace. cbn [log_event trace].
              rewrite <- !app_assoc. reflexivity.
           ++ constructor; [left; reflexivity|].
              constructor; [right; reflexivity|exact Hall].
        -- destruct r as [[]|e|]; [exact Hr|exact Hr|].
           rewrite Hr, !tick_log_event. lia.
    + inversion H; subst. split; [reflexivity|]. split.
      * exists [Run (probe_cmd qq_host)]. split; [reflexivity|].
        repeat constructor.
      * rewrite Hlast, Hshell. split; reflexivity.
Qed.

(** A node whose probe fails at times 0 and 2 and reports ACTIVE at time
    4. *)
Lemma quorum_wait_ends_witness :
  let env := env_of (forming_until 4) in
  let probe := probe_cmd "10.0.0.1" in
  2 < 5
  /\ (forall j, j < 2 ->
        still_forming (shell env (tick (world_of []) + 2 * j) probe) = true)
  /\ reports_active (shell env (tick (world_of []) + 2 * 2) probe) = true
  /\ wait_for_active_quorum env 5 "10.0.0.1" (world_of [])
     = (Ok tt,
        after_events [Run probe; Sleep 5; Run probe; Sleep 5; Run probe]
          (world_of [])).
Proof.
  intros env probe.
  assert (Hfuel : 2 < 5) by lia.
  assert (Hforming : forall j, j < 2 ->
            still_forming (shell env (tick (world_of []) + 2 * j) probe) = true).
  { intros [|[|j]] Hj; [vm_compute; reflexivity|vm_compute; reflexivity|lia]. }
  assert (Hactive : reports_active (shell env (tick (world_of []) + 2 * 2) probe)
                    = true) by (vm_compute; reflexivity).
  split; [exact Hfuel|]. split; [exact Hforming|]. split; [exact Hactive|].
  exact (proj1 (quorum_wait_ends env "10.0.0.1" 2 5 (world_of []) Hfuel Hforming)
           Hactive).
Defined.

(** The same wait, seen from its end. *)
Lemma quorum_wait_safe_witness :
  let env := env_of (forming_until 4) in
  let probe := probe_cmd "10.0.0.1" in
  let w' := after_events [Run probe; Sleep 5; Run probe; Sleep 5; Run probe]
              (world_of []) in
  wait_for_active_quorum env 5 "10.0.0.1" (world_of []) = (Ok tt, w')
  /\ db w' = db (world_of [])
  /\ (exists events,
        trace w' = trace (world_of []) ++ events
        /\ Forall (fun ev => ev = Run probe \/ ev = Sleep 5) events)
  /\ reports_active (shell env (tick w' - 1) probe) = true.
Proof.
  intros env probe w'.
  assert (Hrun : wait_for_active_quorum env 5 "10.0.0.1" (world_of []) = (Ok tt, w'))
    by (vm_compute; reflexivity).
  split; [exact Hrun|].
  exact (quorum_wait_safe env "10.0.0.1" 5 (world_of []) (Ok tt) w' Hrun).
Defined.

Lemma membership_wait_step env fuel qq_host expected w :
  wait_for_membership env (S fuel) qq_host expected w
  = match shell env (tick w) (details_cmd qq_host) with
    | Exited returncode stdout =>
        if (returncode =? 0)%Z then
          if membership_settled expected stdout
          then (Ok tt, log_event (Run (details_cmd qq_host)) w)
          else wait_for_membership env fuel qq_host expected
                 (log_event (Sleep 10) (log_event (Run (details_cmd qq_host)) w))
        else (Raise (ProvisioningError
                       ("Command failed with exit code " +:+ PyStr.of_Z returncode
                        +:+ ": " +:+ details_cmd qq_host)),
              log_event (Run (details_cmd qq_host)) w)
    | TimedOut =>
        (Raise (TimeoutExpired (details_cmd qq_host)),
         log_event (Run (details_cmd qq_host)) w)
    end.
Proof.
  cbn [wait_for_membership].
  unfold bind at 1. unfold parse_quorum_details, bind, qq_command, run_command.
  fold (details_cmd qq_host).
  destruct (shell env (tick w) (details_cmd qq_host)) as [rc out|]; [|reflexivity].
  cbn [andb]. destruct (rc =? 0)%Z; cbn [negb]; [|reflexivity].
  cbn [ret snd]. unfold membership_settled.
  destruct (_ && _ && _)%nat; reflexivity.
Qed.

(** X13. However [wait_for_membership] ends, the database is as it was.
    It returns only after the quorum details showed the expected number
    of nodes, all of them in quorum and none out.  A details command that
    fails is not polled again: the wait raises the command's
    [ProvisioningError], or [TimeoutExpired] when the command does not
    answer. *)
Theorem membership_wait_outcome (env : Env) (qq_host : string) (expected : nat) :
  forall (fuel : nat) (w : World) (r : result unit) (w' : World),
    wait_for_membership env fuel qq_host expected w = (r, w') ->
    db w' = db w
    /\ match r with
       | Ok _ =>
           exists stdout,
             shell env (tick w' - 1) (details_cmd qq_host) = Exited 0 stdout
             /\ membership_settled expected stdout = true
       | Raise e =>
           (e = TimeoutExpired (details_cmd qq_host)
            /\ shell env (tick w' - 1) (details_cmd qq_host) = TimedOut)
           \/ (exists returncode stdout,
                 shell env (tick w' - 1) (details_cmd qq_host)
                 = Exited returncode stdout
                 /\ returncode <> 0%Z
                 /\ e = ProvisioningError
                          ("Command failed with exit code "
                           +:+ PyStr.of_Z returncode +:+ ": "
                           +:+ details_cmd qq_host))
       | Diverge => tick w' = tick w + 2 * fuel
       end.
Proof.
  induction fuel as [|fuel IH]; intros w r w' H.
  - inversion H; subst. split; [reflexivity|lia].
  - rewrite membership_wait_step in H.
    assert (Hlast : tick (log_event (Run (details_cmd qq_host)) w) - 1 = tick w)
      by (rewrite tick_log_event; lia).
    destruct (shell env (tick w) (details_cmd qq_host)) as [rc out|] eqn:Hshell.
    + destruct (Z.eqb_spec rc 0) as [->|Hrc].
      * destruct (membership_settled expected out) eqn:Hsettled.
        -- inversion H; subst. split; [reflexivity|].
           exists out. rewrite Hlast, Hshell. split; [reflexivity|exact Hsettled].
        -- apply IH in H as (Hdb & Hr). split; [exact Hdb|].
           destruct r as [[]|e|]; [exact Hr|exact Hr|].
           rewrite Hr, !tick_log_event. lia.
      * inversion H; subst. split; [reflexivity|]. right.
        exists rc, out. rewrite Hlast, Hshell. repeat split. exact Hrc.
    + inversion H; subst. split; [reflexivity|]. left.
      rewrite Hlast, Hshell. split; reflexivity.
Qed.

(** A membership that shows four nodes at time 0 and three from time 2
    on, awaited at three. *)
Lemma membership_wait_outcome_witness :
  let members3 := json_str "1" +:+ ", " +:+ json_str "2" +:+ ", " +:+ json_str "3" in
  let members4 := members3 +:+ ", " +:+ json_str "4" in
  let env := env_of (settling_at 2 members4 members3) in
  let cmd := details_cmd "10.0.0.1" in
  let w' := after_events [Run cmd; Sleep 10; Run cmd] (world_of []) in
  wait_for_membership env 5 "10.0.0.1" 3 (world_of []) = (Ok tt, w')
  /\ db w' = db (world_of [])
  /\ exists stdout,
       shell env (tick w' - 1) cmd = Exited 0 stdout
       /\ membership_settled 3 stdout = true.
Proof.
  intros members3 members4 env cmd w'.
  assert (Hrun : wait_for_membership env 5 "10.0.0.1" 3 (world_of []) = (Ok tt, w'))
    by (vm_compute; reflexivity).
  split; [exact Hrun|].
  exact (membership_wait_outcome env "10.0.0.1" 3 5 (world_of []) (Ok tt) w' Hrun).
Defined.

(* ===================================================================== *)
(** ** The planner reads, and ends *)
(* ===================================================================== *)

Create HintDb ends discriminated.

Lemma never_hangs_lift {A : Type} (x : result A) :
  x <> Diverge -> never_hangs (lift x).
Proof. intros Hx w w' H. inversion H. contradiction. Qed.


Lemma never_hangs_qq_command env args host : never_hangs (qq_command env args host).
Proof. apply never_hangs_run_command. Qed.

Lemma never_hangs_gcloud_command env args : never_hangs (gcloud_command env args).
Proof. apply never_hangs_run_command. Qed.

Lemma raises_only_qq_command env args host :
  raises_only is_command_failure (qq_command env args host).
Proof. apply raises_only_run_command. Qed.

Lemma raises_only_gcloud_command env args :
  raises_only is_command_failure (gcloud_command env args).
Proof. apply raises_only_run_command. Qed.

Lemma never_hangs_update_status env config status :
  never_hangs (update_status env config status).
Proof.
  intros w w' H. apply update_status_outcome in H as [H|(msg & H)]; discriminate.
Qed.

Lemma raises_only_update_status env config status :
  raises_only is_command_failure (update_status env config status).
Proof.
  intros w e w' H. apply update_status_outcome in H as [H|(msg & H)];
    [discriminate|]. inversion H. left. eexists. reflexivity.
Qed.

Lemma fs_get_outcome env config key deployment_name w r w' :
  fs_get env config key deployment_name w = (r, w') ->
  (exists v, r = Ok v)
  \/ r = Raise (ProvisioningError "Failed to get Firestore token").
Proof.
  unfold fs_get. intros H.
  apply bind_inv in H as [(token & w1 & _ & H)|[(e & Htok & ->)|[Htok _]]].
  - destruct (get_document_total env key (project config)
                (storage_deployment_name config)
                (deployment_or_current config deployment_name) token w1)
      as (v & w2 & Hv).
    rewrite Hv in H. inversion H. left. eauto.
  - right. unfold gettoken in Htok.
    destruct (get_token _ _ _) as [[|? ?]|]; inversion Htok; reflexivity.
  - unfold gettoken in Htok. destruct (get_token _ _ _) as [[|? ?]|]; discriminate.
Qed.

Lemma never_hangs_fs_get env config key deployment_name :
  never_hangs (fs_get env config key deployment_name).
Proof. intros w w' H. apply fs_get_outcome in H as [(v & H)|H]; discriminate. Qed.

Lemma raises_only_fs_get env config key deployment_name :
  raises_only is_command_failure (fs_get env config key deployment_name).
Proof.
  intros w e w' H. apply fs_get_outcome in H as [(v & H)|H]; [discriminate|].
  inversion H. left. eexists. reflexivity.
Qed.

Lemma never_hangs_fs_put env config key value :
  never_hangs (fs_put env config key value).
Proof.
  intros w w' H. apply fs_put_effect in H as [[H _]|[[H _]|[H _]]]; discriminate.
Qed.

Lemma raises_only_fs_put env config key value :
  raises_only is_command_failure (fs_put env config key value).
Proof.
  intros w e w' H. apply fs_put_effect in H as [[H _]|[[H _]|[H _]]];
    [discriminate| |]; inversion H; left; eexists; reflexivity.
Qed.

#[local] Hint Resolve never_hangs_ret never_hangs_raise never_hangs_qq_command
  never_hangs_gcloud_command never_hangs_update_status never_hangs_fs_get
  never_hangs_fs_put never_hangs_run_command : ends.

(** Decomposes a goal [never_hangs m] along the structure of [m]. *)
Ltac hangs_step :=
  match goal with
  | |- never_hangs (bind _ _) => apply never_hangs_bind; [|intros ?]
  | |- never_hangs (if ?c then _ else _) => destruct c
  | |- never_hangs (match ?x with _ => _ end) => destruct x
  | |- never_hangs _ => solve [auto with ends]
  end.

(** Decomposes a goal [raises_only E m] along the structure of [m]; the
    failures of the commands are weakened to [E]. *)
Ltac raises_step weaken :=
  match goal with
  | |- raises_only _ (bind _ _) => apply raises_only_bind; [|intros ?]
  | |- raises_only _ (ret _) => apply raises_only_ret
  | |- raises_only _ (if ?c then _ else _) => destruct c
  | |- raises_only _ (match ?x with _ => _ end) => destruct x
  | |- raises_only _ _ =>
      solve [ eapply raises_only_weaken; [exact weaken|]; auto with ends ]
  end.

#[local] Hint Resolve raises_only_qq_command raises_only_gcloud_command
  raises_only_update_status raises_only_fs_get raises_only_fs_put
  raises_only_run_command : ends.

Lemma never_hangs_get_list env config key deployment_name :
  never_hangs (get_list env config key deployment_name).
Proof. unfold get_list. repeat hangs_step. Qed.

Lemma raises_only_get_list env config key deployment_name :
  raises_only is_command_failure (get_list env config key deployment_name).
Proof. unfold get_list. repeat raises_step (fun e (H : is_command_failure e) => H). Qed.

Lemma never_hangs_get_qfsd_version env node_ip :
  never_hangs (get_qfsd_version env node_ip).
Proof. unfold get_qfsd_version. repeat hangs_step. Qed.

Lemma raises_only_get_qfsd_version env node_ip :
  raises_only is_command_failure (get_qfsd_version env node_ip).
Proof.
  unfold get_qfsd_version.
  repeat raises_step (fun e (H : is_command_failure e) => H).
Qed.

Lemma never_hangs_parse_quorum_details env qq_host :
  never_hangs (parse_quorum_details env qq_host).
Proof. unfold parse_quorum_details. repeat hangs_step. Qed.

Lemma raises_only_parse_quorum_details env qq_host :
  raises_only is_command_failure (parse_quorum_details env qq_host).
Proof.
  unfold parse_quorum_details.
  repeat raises_step (fun e (H : is_command_failure e) => H).
Qed.

#[local] Hint Resolve never_hangs_get_list never_hangs_get_qfsd_version
  never_hangs_parse_quorum_details raises_only_get_list
  raises_only_get_qfsd_version raises_only_parse_quorum_details : ends.




(* ===================================================================== *)
(** ** The planner, phase by phase *)
(* ===================================================================== *)

(** [determine_cluster_operations] is: plan the membership, then the
    storage. *)
Lemma planner_view env config out_quorum in_quorum admin_password w :
  determine_cluster_operations env config out_quorum in_quorum admin_password w
  = bind (plan_membership env config out_quorum in_quorum admin_password)
      (plan_storage env config) w.
Proof. reflexivity. Qed.

(** With the store reachable a read returns what is persisted, after two
    interactions that leave the database as it is. *)
Lemma fs_get_reads env config key deployment_name w :
  store_reachable env -> names_store config = true -> PyStr.nonempty key = true ->
  exists w',
    fs_get env config key deployment_name w
    = (Ok (persisted config w key deployment_name), w')
    /\ db w' = db w /\ tick w' = tick w + 2.
Proof.
  intros Hreach Hnames Hkey.
  destruct (names_store_gettoken config w Hnames) as (token & Htok & Hne).
  unfold fs_get. rewrite (bind_ok _ _ _ _ _ Htok).
  unfold names_store in Hnames.
  apply andb_true_iff in Hnames as [Hnames Hc].
  apply andb_true_iff in Hnames as [Hp Hd].
  pose proof (deployment_or_current_nonempty config deployment_name Hc) as Hc'.
  unfold get_document. rewrite Hkey, Hp, Hd, Hc', Hne. cbn [andb negb].
  unfold bind at 1. rewrite make_request_reachable by exact Hreach.
  unfold send_request.
  destruct (Hreach (tick (log_event (Run access_token_cmd) w))) as [_ ->].
  unfold persisted, stored_text. cbn [log_event db].
  eexists. split; [destruct (db w !! _); reflexivity|].
  split; [reflexivity|]. rewrite !tick_log_event. lia.
Qed.

Lemma get_list_reads env config key deployment_name w :
  store_reachable env -> names_store config = true -> PyStr.nonempty key = true ->
  exists w',
    get_list env config key deployment_name w
    = (Ok (deserialize_list_from_firestore
             (persisted config w key deployment_name)), w')
    /\ db w' = db w /\ tick w' = tick w + 2.
Proof.
  intros Hreach Hnames Hkey.
  destruct (fs_get_reads env config key deployment_name w Hreach Hnames Hkey)
    as (w' & Hget & Hdb & Htick).
  exists w'. unfold get_list. rewrite (bind_ok _ _ _ _ _ Hget).
  split; [reflexivity|]. split; assumption.
Qed.

Lemma persisted_db config w w' key deployment_name :
  db w' = db w ->
  persisted config w' key deployment_name = persisted config w key deployment_name.
Proof. intros H. unfold persisted. rewrite H. reflexivity. Qed.

(** What the membership phase leaves to the storage phase, and what the
    storage phase leaves of the membership phase. *)
Lemma plan_membership_flags env config out_quorum in_quorum admin_password :
  returns (plan_membership env config out_quorum in_quorum admin_password)
    (fun f => add_buckets f = false /\ increase_limit f = false).
Proof. unfold plan_membership. repeat returns_step; cbn; intuition. Qed.

Lemma plan_storage_flags env config operation_flags :
  returns (plan_storage env config operation_flags)
    (fun f => new_cluster f = new_cluster operation_flags
              /\ add_nodes f = add_nodes operation_flags
              /\ remove_nodes f = remove_nodes operation_flags).
Proof.
  unfold plan_storage. repeat returns_step;
    repeat match goal with
           | |- context [if ?c then _ else _] => destruct c
           end; cbn; auto.
Qed.

Lemma keeps_plan_membership env config out_quorum in_quorum admin_password :
  keeps_docs (plan_membership env config out_quorum in_quorum admin_password).
Proof. unfold plan_membership. keeps. Qed.

(** X15. One or more nodes out of quorum in an existing cluster is fatal:
    when the survey did not find every node out of quorum, the login
    succeeds and the quorum details list a node as out, the planner
    raises [ProvisioningError] without a plan (with the message "One or
    more nodes out of quorum in existing cluster. ..." when the status
    update before it succeeds), and every document other than a status
    log is untouched. *)
Theorem partial_quorum_is_fatal
    (env : Env) (config : ProvisioningConfig) (out_quorum in_quorum : nat)
    (admin_password : string) (w : World) (login quorum_details : string) :
  ((out_quorum =? length (node_ips config))%nat && (in_quorum =? 0)%nat) = false ->
  shell env (tick w) (login_cmd (node1_ip config) admin_password) = Exited 0 login ->
  shell env (tick w + 1) (details_cmd (node1_ip config)) = Exited 0 quorum_details ->
  parse_node_list (search_node_list "out_nodes" quorum_details) <> [] ->
  exists msg w',
    determine_cluster_operations env config out_quorum in_quorum admin_password w
    = (Raise (ProvisioningError msg), w')
    /\ same_docs w w'
    /\ (store_reachable env -> names_store config = true ->
        msg = partial_quorum_msg).
Proof.
  intros Hpath Hlogin Hdetails Hout.
  rewrite planner_view.
  assert (Hplan : exists msg w',
            plan_membership env config out_quorum in_quorum admin_password w
            = (Raise (ProvisioningError msg), w')
            /\ (store_reachable env -> names_store config = true ->
                msg = partial_quorum_msg)).
  { unfold plan_membership. rewrite Hpath.
    unfold bind at 1. unfold qq_command at 1, run_command at 1.
    fold (login_cmd (node1_ip config) admin_password). rewrite Hlogin.
    cbn [Z.eqb negb andb].
    unfold bind at 1. unfold parse_quorum_details, bind at 1.
    unfold qq_command at 1, run_command at 1. fold (details_cmd (node1_ip config)).
    rewrite tick_log_event, <- Nat.add_1_r, Hdetails. cbn [Z.eqb negb andb ret snd].
    destruct (parse_node_list (search_node_list "out_nodes" quorum_details))
      as [|node rest]; [contradiction|].
    cbn [length Nat.ltb Nat.leb]. fold partial_quorum_msg.
    match goal with
    | |- context [bind (update_status env config partial_quorum_msg) _ ?w0] =>
        destruct (update_status env config partial_quorum_msg w0) as [r w'] eqn:Hstatus;
        destruct (update_status_outcome _ _ _ _ _ _ Hstatus) as [-> | (msg & ->)];
        [ exists partial_quorum_msg, w'; rewrite (bind_ok _ _ _ _ _ Hstatus);
          split; [reflexivity|reflexivity]
        | exists msg, w'; rewrite (bind_raise _ _ _ _ _ Hstatus);
          split; [reflexivity|];
          intros Hreach Hnames;
          destruct (update_status_reachable env config partial_quorum_msg w0
                      Hreach Hnames eq_refl) as (w2 & Hok & _);
          rewrite Hok in Hstatus; discriminate ]
    end. }
  destruct Hplan as (msg & w' & Hplan & Hmsg).
  exists msg, w'. rewrite (bind_raise _ _ _ _ _ Hplan).
  split; [reflexivity|]. split; [|exact Hmsg].
  eapply keeps_plan_membership, Hplan.
Qed.

(** A three-node cluster whose third node is out of quorum. *)
Lemma partial_quorum_is_fatal_witness :
  let env := env_of degraded in
  ((1 =? length (node_ips config))%nat && (2 =? 0)%nat) = false
  /\ shell env (tick (world_of [])) (login_cmd (node1_ip config) "secret")
     = Exited 0 ""
  /\ shell env (tick (world_of []) + 1) (details_cmd (node1_ip config))
     = Exited 0 partial_details
  /\ parse_node_list (search_node_list "out_nodes" partial_details) = ["3"]
  /\ exists msg w',
       determine_cluster_operations env config 1 2 "secret" (world_of [])
       = (Raise (ProvisioningError msg), w')
       /\ same_docs (world_of []) w'
       /\ (store_reachable env -> names_store config = true ->
           msg = partial_quorum_msg).
Proof.
  intros env.
  assert (Hpath : ((1 =? length (node_ips config))%nat && (2 =? 0)%nat) = false)
    by reflexivity.
  assert (Hlogin : shell env (tick (world_of []))
                     (login_cmd (node1_ip config) "secret") = Exited 0 "")
    by (vm_compute; reflexivity).
  assert (Hdetails : shell env (tick (world_of []) + 1)
                       (details_cmd (node1_ip config)) = Exited 0 partial_details)
    by (vm_compute; reflexivity).
  assert (Hout : parse_node_list (search_node_list "out_nodes" partial_details)
                 = ["3"]) by (vm_compute; reflexivity).
  split; [exact Hpath|]. split; [exact Hlogin|]. split; [exact Hdetails|].
  split; [exact Hout|].
  apply (partial_quorum_is_fatal env config 1 2 "secret" (world_of []) ""
           partial_details Hpath Hlogin Hdetails).
  rewrite Hout. discriminate.
Defined.

(** X16. With the store reachable, a plan has [add_buckets] set exactly
    when the cluster exists or is being replaced, the configuration names
    a bucket that the persisted bucket names lack, and it holds a bucket
    URI that the persisted URIs lack: a new name alone, or a new URI
    alone, plans nothing.  The persisted lists are those of the record the
    planner diffs against, as they were when planning began. *)
Theorem bucket_addition_plan
    (env : Env) (config : ProvisioningConfig) (out_quorum in_quorum : nat)
    (admin_password : string) (w w' : World) (flags : OperationFlags) :
  store_reachable env ->
  determine_cluster_operations env config out_quorum in_quorum admin_password w
  = (Ok flags, w') ->
  let persisted_names :=
    deserialize_list_from_firestore
      (persisted config w "bucket-names" (diff_source config)) in
  let persisted_uris :=
    deserialize_list_from_firestore
      (persisted config w "bucket-uris" (diff_source config)) in
  add_buckets flags = true
  <-> (new_cluster flags = false \/ replace_cluster config = true)
      /\ (exists name, In name (bucket_names config) /\ ~ In name persisted_names)
      /\ (exists uri, In uri (bucket_uris config) /\ ~ In uri persisted_uris).
Proof.
  intros Hreach H persisted_names persisted_uris.
  rewrite planner_view in H.
  apply bind_ok_inv in H as (f1 & w1 & H1 & H).
  destruct (plan_membership_flags _ _ _ _ _ _ _ _ H1) as [Hab1 _].
  pose proof (keeps_plan_membership _ _ _ _ _ _ _ _ H1) as Hw1.
  destruct (plan_storage_flags _ _ _ _ _ _ H) as (Hnew & _ & _).
  rewrite Hnew. rewrite <- !not_in_nonempty.
  unfold plan_storage in H.
  apply bind_ok_inv in H as ([[names uris] limit] & w2 & H2 & H).
  assert (Hread : names = persisted_names /\ uris = persisted_uris).
  { subst persisted_names persisted_uris. unfold diff_source.
    destruct (replace_cluster config);
      apply bind_ok_inv in H2 as (n & wa & Ha & H2);
      apply bind_ok_inv in H2 as (u & wb & Hb & H2);
      apply bind_ok_inv in H2 as (l & wc & Hc & H2);
      inversion H2; subst;
      pose proof (keeps_get_list _ _ _ _ _ _ _ Ha) as Hwa;
      unfold get_list in Ha, Hb;
      apply bind_ok_inv in Ha as (va & ? & Ha & Hra);
      apply bind_ok_inv in Hb as (vb & ? & Hb & Hrb);
      inversion Hra; inversion Hrb; subst;
      apply (fs_get_reachable _ _ "bucket-names" _ _ _ _ Hreach eq_refl) in Ha;
      apply (fs_get_reachable _ _ "bucket-uris" _ _ _ _ Hreach eq_refl) in Hb;
      subst va vb;
      (split; f_equal; apply persisted_same_docs; try discriminate;
       [exact Hw1|eapply same_docs_trans; [exact Hw1|exact Hwa]]). }
  destruct Hread as [-> ->]. clear H2.
  destruct (new_cluster f1), (replace_cluster config); cbn [negb orb] in H;
    try (inversion H; subst; rewrite Hab1; intuition congruence);
    destruct (nonempty_list (not_in persisted_names (bucket_names config)));
    destruct (nonempty_list (not_in persisted_uris (bucket_uris config)));
    cbn [andb] in H;
    (destruct (negb (limit =? "null")%string);
     [ apply bind_ok_inv in H as (old_limit & w3 & _ & H);
       destruct (_ && _) in H |];
     inversion H; subst; cbn; rewrite ?Hab1; intuition congruence).
Qed.

(** The replacement of deployment deploy-a brings a second bucket. *)
Lemma bucket_addition_plan_witness :
  let env := env_of (healthy "") in
  let w := world_of (cluster_record "deploy-a" "1099511627776") in
  let w' := snd (determine_cluster_operations env (replacing config) 3 0 "pw" w) in
  determine_cluster_operations env (replacing config) 3 0 "pw" w
  = (Ok (only true false false true false), w')
  /\ (add_buckets (only true false false true false) = true
      <-> (new_cluster (only true false false true false) = false
           \/ replace_cluster (replacing config) = true)
          /\ (exists name,
                In name (bucket_names (replacing config))
                /\ ~ In name (deserialize_list_from_firestore
                                (persisted (replacing config) w "bucket-names"
                                   (diff_source (replacing config)))))
          /\ (exists uri,
                In uri (bucket_uris (replacing config))
                /\ ~ In uri (deserialize_list_from_firestore
                               (persisted (replacing config) w "bucket-uris"
                                  (diff_source (replacing config)))))).
Proof.
  intros env w w'.
  assert (Hrun : determine_cluster_operations env (replacing config) 3 0 "pw" w
                 = (Ok (only true false false true false), w'))
    by (vm_compute; reflexivity).
  split; [exact Hrun|].
  exact (bucket_addition_plan env (replacing config) 3 0 "pw" w w' _
           (env_of_reachable _) Hrun).
Defined.

(* ===================================================================== *)
(** ** The interactions of a command *)
(* ===================================================================== *)

Lemma emits_ret {A : Type} (P : event -> Prop) (a : A) : emits P (ret a).
Proof.
  intros w r w' H. inversion H; subst. exists []. rewrite app_nil_r.
  split; [reflexivity|constructor].
Qed.

Lemma emits_raise {A : Type} (P : event -> Prop) (e : exn) : emits P (@raise A e).
Proof.
  intros w r w' H. inversion H; subst. exists []. rewrite app_nil_r.
  split; [reflexivity|constructor].
Qed.

Lemma emits_lift {A : Type} (P : event -> Prop) (x : result A) : emits P (lift x).
Proof.
  intros w r w' H. inversion H; subst. exists []. rewrite app_nil_r.
  split; [reflexivity|constructor].
Qed.

Lemma emits_bind {A B : Type} (P : event -> Prop) (m : M A) (k : A -> M B) :
  emits P m -> (forall a, emits P (k a)) -> emits P (bind m k).
Proof.
  intros Hm Hk w r w' H.
  apply bind_inv in H as [(a & w1 & H1 & H2)|[(e & H1 & _)|[H1 _]]].
  - destruct (Hm _ _ _ H1) as (ev1 & Ht1 & Hp1).
    destruct (Hk _ _ _ _ H2) as (ev2 & Ht2 & Hp2).
    exists (ev1 ++ ev2). rewrite Ht2, Ht1, <- app_assoc.
    split; [reflexivity|]. apply Forall_app. split; assumption.
  - eapply Hm, H1.
  - eapply Hm, H1.
Qed.

Lemma emits_weaken {A : Type} (P Q : event -> Prop) (m : M A) :
  (forall ev, P ev -> Q ev) -> emits P m -> emits Q m.
Proof.
  intros HPQ Hm w r w' H. destruct (Hm _ _ _ H) as (events & Ht & Hp).
  exists events. split; [exact Ht|]. eapply Forall_impl; [exact Hp|exact HPQ].
Qed.

Lemma emits_log {A : Type} (P : event -> Prop) (f : World -> result A)
    (ev : event) :
  P ev -> emits P (fun w => (f w, log_event ev w)).
Proof.
  intros Hev w r w' H. inversion H; subst. exists [ev].
  split; [reflexivity|]. constructor; [exact Hev|constructor].
Qed.


Lemma emits_get_access_token env : emits is_store_read (_get_access_token env).
Proof. unfold _get_access_token. apply (emits_log is_store_read). reflexivity. Qed.

Lemma emits_send_get env path data :
  emits is_store_read (send_request env GET path data).
Proof.
  intros w r w' H. unfold send_request in H.
  exists [Request GET path data].
  destruct (http_ok env (tick w)); inversion H; subst;
    (split; [reflexivity|repeat constructor]).
Qed.

Lemma emits_send_patch_status env project database collection data :
  emits is_store_read
    (send_request env PATCH (project, database, collection, "last-run-status") data).
Proof.
  intros w r w' H. unfold send_request in H.
  exists [Request PATCH (project, database, collection, "last-run-status") data].
  destruct (http_ok env (tick w)); inversion H; subst;
    (split; [reflexivity|repeat constructor]).
Qed.

Lemma emits_datetime_now env : emits is_store_read (datetime_now env).
Proof. unfold datetime_now. apply (emits_log is_store_read). exact I. Qed.

Create HintDb emits discriminated.

#[local] Hint Resolve emits_ret emits_raise emits_lift emits_get_access_token
  emits_send_get emits_send_patch_status emits_datetime_now : emits.

(** Decomposes a goal [emits P m] along the structure of [m]. *)
Ltac emits_step :=
  match goal with
  | |- emits _ (bind _ _) => apply emits_bind; [|intros ?]
  | |- emits _ (if ?c then _ else _) => destruct c
  | |- emits _ (match ?x with _ => _ end) => destruct x
  | |- emits _ _ => solve [auto with emits]
  end.

Lemma emits_make_request_get env path data :
  emits is_store_read (_make_request env path GET data).
Proof. unfold _make_request. repeat emits_step. Qed.

Lemma emits_make_request_patch_status env project database collection data :
  emits is_store_read
    (_make_request env (project, database, collection, "last-run-status") PATCH data).
Proof. unfold _make_request. repeat emits_step. Qed.

#[local] Hint Resolve emits_make_request_get emits_make_request_patch_status : emits.

Lemma emits_fs_get env config key deployment_name :
  emits is_store_read (fs_get env config key deployment_name).
Proof. unfold fs_get, gettoken, get_document. repeat emits_step. Qed.

Lemma emits_update_status env config status :
  emits is_store_read (update_status env config status).
Proof.
  unfold update_status, gettoken, put_status_with_timestamp. repeat emits_step.
Qed.

#[local] Hint Resolve emits_fs_get emits_update_status : emits.

Lemma emits_get_list env config key deployment_name :
  emits is_store_read (get_list env config key deployment_name).
Proof. unfold get_list. repeat emits_step. Qed.

#[local] Hint Resolve emits_get_list : emits.

Lemma tick_emits {A : Type} (P : event -> Prop) (m : M A) w r w' :
  emits P m -> m w = (r, w') -> tick w <= tick w'.
Proof.
  intros Hm H. destruct (Hm _ _ _ H) as (events & Ht & _).
  unfold tick. rewrite Ht, length_app. lia.
Qed.

Lemma store_read_is_planner_event admin_password ev :
  is_store_read ev -> is_planner_event admin_password ev.
Proof. intros H. left. exact H. Qed.

Lemma emits_plan_storage env config admin_password operation_flags :
  emits (is_planner_event admin_password) (plan_storage env config operation_flags).
Proof.
  unfold plan_storage.
  repeat first
    [ emits_step
    | eapply emits_weaken; [apply store_read_is_planner_event|]; solve [auto with emits] ].
Qed.



Lemma get_qfsd_version_ok env node_ip w version w' :
  get_qfsd_version env node_ip w = (Ok version, w') ->
  exists stdout,
    shell env (tick w) (version_cmd node_ip) = Exited 0 stdout
    /\ version = version_of stdout
    /\ tick w' = S (tick w).
Proof.
  unfold get_qfsd_version, qq_command, bind, run_command.
  fold (version_cmd node_ip). intros H.
  destruct (shell env (tick w) (version_cmd node_ip)) as [rc out|]; [|discriminate].
  cbn [andb] in H. destruct (Z.eqb_spec rc 0) as [->|_]; [|discriminate].
  cbn [negb snd] in H. exists out. unfold version_of.
  destruct (lines_with "revision_id" out); inversion H; subst;
    rewrite tick_log_event; auto.
Qed.

(** X17. Nodes are added only if they run the installed version: with
    the store reachable, a plan with [add_nodes] set was made after the
    first address that the persisted node list lacks answered the version
    query, during planning, with the version persisted under
    "installed-version".  (When the two differ the planner raises instead
    of returning a plan.) *)
Theorem added_nodes_run_installed_version
    (env : Env) (config : ProvisioningConfig) (out_quorum in_quorum : nat)
    (admin_password : string) (w w' : World) (flags : OperationFlags) :
  store_reachable env ->
  determine_cluster_operations env config out_quorum in_quorum admin_password w
  = (Ok flags, w') ->
  add_nodes flags = true ->
  let persisted_ips :=
    deserialize_list_from_firestore (persisted config w "node-ips" None) in
  exists first rest t stdout,
    not_in persisted_ips (node_ips config) = first :: rest
    /\ tick w <= t < tick w'
    /\ shell env t (version_cmd first) = Exited 0 stdout
    /\ version_of stdout = persisted config w "installed-version" None.
Proof.
  intros Hreach H Hadd persisted_ips.
  rewrite planner_view in H.
  apply bind_ok_inv in H as (f1 & w1 & H1 & H).
  destruct (plan_storage_flags _ _ _ _ _ _ H) as (_ & Hadd1 & _).
  rewrite Hadd1 in Hadd.
  pose proof (tick_emits _ _ _ _ _ (emits_plan_storage env config admin_password f1) H)
    as Hlate.
  clear H Hadd1. unfold plan_membership in H1.
  destruct (_ && _).
  { apply bind_ok_inv in H1 as (? & ? & _ & H1). inversion H1; subst f1.
    discriminate. }
  apply bind_ok_inv in H1 as (login & wa & Hlogin & H1).
  apply bind_ok_inv in H1 as ([[all_nodes in_nodes] out_nodes] & wb & Hparse & H1).
  destruct (0 <? length out_nodes)%nat.
  { apply bind_ok_inv in H1 as (? & ? & _ & H1). discriminate. }
  apply bind_ok_inv in H1 as ([] & wc & Hstatus & H1).
  assert (Hwc : same_docs w wc).
  { eapply same_docs_trans; [eapply keeps_qq_command, Hlogin|].
    eapply same_docs_trans; [eapply keeps_parse_quorum_details, Hparse|].
    eapply keeps_update_status, Hstatus. }
  assert (Htc : tick w <= tick wc).
  { apply run_command_effect in Hlogin as ->.
    unfold parse_quorum_details in Hparse.
    apply bind_ok_inv in Hparse as (? & ? & Hrun & Hparse).
    apply run_command_effect in Hrun as ->. inversion Hparse; subst wb.
    pose proof (tick_emits _ _ _ _ _ (emits_update_status env config _) Hstatus).
    rewrite !tick_log_event in *. lia. }
  apply bind_ok_inv in H1 as (old_ips_str & wd & Hstr & H1).
  pose proof (keeps_fs_get _ _ _ _ _ _ _ Hstr) as Hwd.
  pose proof (tick_emits _ _ _ _ _ (emits_fs_get env config _ _) Hstr) as Htd.
  destruct (negb (old_ips_str =? "null")%string); [|inversion H1; subst; discriminate].
  apply bind_ok_inv in H1 as (old_ips & we & Hlist & H1).
  pose proof (keeps_get_list _ _ _ _ _ _ _ Hlist) as Hwe.
  pose proof (tick_emits _ _ _ _ _ (emits_get_list env config _ _) Hlist) as Hte.
  unfold get_list in Hlist.
  apply bind_ok_inv in Hlist as (value & we' & Hvalue & Hlist).
  inversion Hlist; subst old_ips we'. clear Hlist.
  apply (fs_get_reachable _ _ "node-ips" _ _ _ _ Hreach eq_refl) in Hvalue.
  rewrite (persisted_same_docs _ w _ _ _) in Hvalue;
    [|eapply same_docs_trans; [exact Hwc|exact Hwd]|discriminate].
  subst value. fold persisted_ips in H1.
  apply bind_ok_inv in H1 as (f0 & wf & Hver & H1).
  assert (Hf0 : add_nodes f0 = true).
  { destruct (_ >? _)%Z; inversion H1; subst f1; exact Hadd. }
  destruct (not_in persisted_ips (node_ips config)) as [|first rest].
  { inversion Hver; subst f0. discriminate. }
  exists first, rest.
  apply bind_ok_inv in Hver as (add_ver & wg & Hget & Hver).
  pose proof (keeps_get_qfsd_version _ _ _ _ _ Hget) as Hwg.
  apply get_qfsd_version_ok in Hget as (stdout & Hshell & -> & Htg).
  exists (tick we), stdout.
  apply bind_ok_inv in Hver as (current_ver & wh & Hcur & Hver).
  pose proof (tick_emits _ _ _ _ _ (emits_fs_get env config _ _) Hcur) as Hth.
  destruct (String.eqb_spec current_ver (version_of stdout)) as [Heq|_];
    [|apply bind_ok_inv in Hver as (? & ? & _ & Hver); discriminate].
  inversion Hver; subst wf. clear Hver.
  assert (Htw : tick wh <= tick w1).
  { destruct (_ >? _)%Z; inversion H1; subst; lia. }
  split; [reflexivity|]. split; [lia|]. split; [exact Hshell|].
  rewrite <- Heq.
  apply (fs_get_reachable _ _ "installed-version" _ _ _ _ Hreach eq_refl) in Hcur.
  rewrite Hcur. apply persisted_same_docs; [|discriminate].
  eapply same_docs_trans; [exact Hwc|].
  eapply same_docs_trans; [exact Hwd|].
  eapply same_docs_trans; [exact Hwe|]. exact Hwg.
Qed.

(** A fourth node, running the installed 7.6.0, joins the persisted
    three-node cluster. *)
Lemma added_nodes_run_installed_version_witness :
  let env := env_of (healthy "1, 2, 3") in
  let w := world_of (cluster_record "deploy-b" "1099511627776") in
  let w' := snd (determine_cluster_operations env (four_nodes 4) 1 3 "pw" w) in
  determine_cluster_operations env (four_nodes 4) 1 3 "pw" w
  = (Ok (only false true false false false), w')
  /\ exists first rest t stdout,
       not_in (deserialize_list_from_firestore
                 (persisted (four_nodes 4) w "node-ips" None))
         (node_ips (four_nodes 4)) = first :: rest
       /\ tick w <= t < tick w'
       /\ shell env t (version_cmd first) = Exited 0 stdout
       /\ version_of stdout = persisted (four_nodes 4) w "installed-version" None.
Proof.
  intros env w w'.
  assert (Hrun : determine_cluster_operations env (four_nodes 4) 1 3 "pw" w
                 = (Ok (only false true false false false), w'))
    by (vm_compute; reflexivity).
  split; [exact Hrun|].
  exact (added_nodes_run_installed_version env (four_nodes 4) 1 3 "pw" w w' _
           (env_of_reachable _) Hrun eq_refl).
Defined.

(* ===================================================================== *)
(** ** What the survey and the operations record *)
(* ===================================================================== *)

Lemma fs_put_ok env config key value w w' :
  fs_put env config key value w = (Ok tt, w') ->
  db w' = <[record_path config key := {[ key := StringValue value ]}]> (db w).
Proof.
  intros H. apply fs_put_effect in H as [[_ H]|[[H _]|[H _]]];
    [exact H|discriminate|discriminate].
Qed.

Lemma put_list_ok env config key items w w' :
  put_list env config key items w = (Ok tt, w') ->
  db w' = <[record_path config key :=
              {[ key := StringValue (serialize_list_for_firestore items) ]}]> (db w).
Proof. apply fs_put_ok. Qed.

Lemma keeps_survey_nodes env :
  forall ips out_quorum in_quorum,
    keeps_docs (survey_nodes env ips out_quorum in_quorum).
Proof.
  induction ips as [|ip rest IH]; intros o i; cbn [survey_nodes]; [keeps|].
  apply keeps_bind; [keeps|]. intros counts. apply IH.
Qed.

(** X18. When the survey returns, the version it returns is persisted
    under "installed-version".  The version under "creation-version" is
    written once: with the store reachable it is the surveyed version if
    the record had none, and otherwise it is what it was. *)
Theorem survey_records_version
    (env : Env) (config : ProvisioningConfig) (w w' : World)
    (out_quorum in_quorum : nat) (qfsd_version : string) :
  survey_cluster_state env config w = (Ok (out_quorum, in_quorum, qfsd_version), w') ->
  persisted config w' "installed-version" None = qfsd_version
  /\ (persisted config w' "creation-version" None = qfsd_version
      \/ persisted config w' "creation-version" None
         = persisted config w "creation-version" None)
  /\ (store_reachable env ->
      persisted config w' "creation-version" None
      = if String.eqb (persisted config w "creation-version" None) "null"
        then qfsd_version
        else persisted config w "creation-version" None).
Proof.
  unfold survey_cluster_state. intros H.
  apply bind_ok_inv in H as ([] & w1 & Hs1 & H).
  apply bind_ok_inv in H as (counts & w2 & Hsurvey & H).
  apply bind_ok_inv in H as (version & w3 & Hver & H).
  apply bind_ok_inv in H as ([] & w4 & Hs2 & H).
  apply bind_ok_inv in H as ([] & w5 & Hput & H).
  apply bind_ok_inv in H as (org_ver & w6 & Hget & H).
  apply bind_ok_inv in H as ([] & w7 & Hwrite & H).
  inversion H; subst w7 qfsd_version. clear H.
  assert (Hw4 : same_docs w w4).
  { eapply same_docs_trans; [eapply keeps_update_status, Hs1|].
    eapply same_docs_trans; [eapply keeps_survey_nodes, Hsurvey|].
    eapply same_docs_trans; [|eapply keeps_update_status, Hs2].
    destruct (node_ips config);
      [inversion Hver; apply same_docs_refl|eapply keeps_get_qfsd_version, Hver]. }
  apply fs_put_ok in Hput.
  pose proof (keeps_fs_get _ _ _ _ _ _ _ Hget) as Hw6.
  assert (Hinstalled6 : persisted config w6 "installed-version" None = version).
  { rewrite (persisted_same_docs _ _ _ _ _ Hw6) by discriminate.
    apply (persisted_put_same _ _ _ _ _ Hput). }
  assert (Hcreation6 : persisted config w6 "creation-version" None
                       = persisted config w "creation-version" None).
  { rewrite (persisted_same_docs _ _ _ _ _ Hw6) by discriminate.
    rewrite (persisted_put_other _ _ _ _ _ _ _ Hput) by discriminate.
    apply persisted_same_docs; [exact Hw4|discriminate]. }
  assert (Hread : store_reachable env ->
                  org_ver = persisted config w "creation-version" None).
  { intros Hreach.
    rewrite (fs_get_reachable _ _ "creation-version" _ _ _ _ Hreach eq_refl Hget).
    rewrite (persisted_put_other _ _ _ _ _ _ _ Hput) by discriminate.
    apply persisted_same_docs; [exact Hw4|discriminate]. }
  destruct (String.eqb_spec org_ver "null") as [Hnull|Hset].
  - apply fs_put_ok in Hwrite.
    split; [|split].
    + rewrite (persisted_put_other _ _ _ _ _ _ _ Hwrite) by discriminate.
      exact Hinstalled6.
    + left. apply (persisted_put_same _ _ _ _ _ Hwrite).
    + intros Hreach. rewrite <- (Hread Hreach), Hnull. cbn.
      apply (persisted_put_same _ _ _ _ _ Hwrite).
  - inversion Hwrite; subst w'. split; [exact Hinstalled6|]. split.
    + right. exact Hcreation6.
    + intros Hreach. rewrite <- (Hread Hreach).
      destruct (String.eqb_spec org_ver "null"); [contradiction|].
      rewrite (Hread Hreach). exact Hcreation6.
Qed.

(** The first survey of a deployment, and a later one after an upgrade
    to 7.6.0 of a cluster created at 7.5.1. *)
Lemma survey_records_version_witness :
  let env := env_of (healthy "") in
  let first := world_of [] in
  let later := world_of [doc "deploy-b" "creation-version" "7.5.1"] in
  survey_cluster_state env config first
  = (Ok (0, 3, "7.6.0"), snd (survey_cluster_state env config first))
  /\ persisted config (snd (survey_cluster_state env config first))
       "creation-version" None = "7.6.0"
  /\ survey_cluster_state env config later
     = (Ok (0, 3, "7.6.0"), snd (survey_cluster_state env config later))
  /\ persisted config (snd (survey_cluster_state env config later))
       "installed-version" None = "7.6.0"
  /\ persisted config (snd (survey_cluster_state env config later))
       "creation-version" None = "7.5.1".
Proof.
  intros env first later.
  assert (Hfirst : survey_cluster_state env config first
                   = (Ok (0, 3, "7.6.0"), snd (survey_cluster_state env config first)))
    by (vm_compute; reflexivity).
  assert (Hlater : survey_cluster_state env config later
                   = (Ok (0, 3, "7.6.0"), snd (survey_cluster_state env config later)))
    by (vm_compute; reflexivity).
  split; [exact Hfirst|]. split.
  - exact (proj2 (proj2 (survey_records_version env config first _ 0 3 "7.6.0" Hfirst))
             (env_of_reachable _)).
  - split; [exact Hlater|]. split.
    + exact (proj1 (survey_records_version env config later _ 0 3 "7.6.0" Hlater)).
    + exact (proj2 (proj2 (survey_records_version env config later _ 0 3 "7.6.0"
                             Hlater)) (env_of_reachable _)).
Defined.

(* --------------------------------------------------------------------- *)
(** *** The documents an operation writes *)
(* --------------------------------------------------------------------- *)

Lemma writes_only_keeps config keys {A : Type} (m : M A) :
  keeps_docs m -> writes_only config keys m.
Proof. intros Hm w r w' H path Hstatus _. apply (Hm _ _ _ H), Hstatus. Qed.

Lemma writes_only_bind config keys {A B : Type} (m : M A) (k : A -> M B) :
  writes_only config keys m -> (forall a, writes_only config keys (k a)) ->
  writes_only config keys (bind m k).
Proof.
  intros Hm Hk w r w' H path Hstatus Hkeys.
  apply bind_inv in H as [(a & w1 & H1 & H2)|[(e & H1 & _)|[H1 _]]].
  - rewrite (Hk _ _ _ _ H2 path Hstatus Hkeys). apply (Hm _ _ _ H1 path Hstatus Hkeys).
  - apply (Hm _ _ _ H1 path Hstatus Hkeys).
  - apply (Hm _ _ _ H1 path Hstatus Hkeys).
Qed.

Lemma writes_only_fs_put env config keys key value :
  In key keys -> writes_only config keys (fs_put env config key value).
Proof.
  intros Hin w r w' H path _ Hkeys.
  apply fs_put_effect in H as [[_ H]|[[_ H]|[_ H]]].
  - rewrite H. apply lookup_insert_ne. intros Heq. apply (Hkeys key Hin).
    symmetry. exact Heq.
  - rewrite H. reflexivity.
  - subst w'. reflexivity.
Qed.

Lemma writes_only_put_list env config keys key items :
  In key keys -> writes_only config keys (put_list env config key items).
Proof. apply writes_only_fs_put. Qed.

Lemma keeps_wait_for_active_quorum env qq_host :
  forall fuel, keeps_docs (wait_for_active_quorum env fuel qq_host).
Proof.
  induction fuel as [|fuel IH]; cbn [wait_for_active_quorum]; [keeps|].
  apply keeps_bind; [keeps|]. intros formed. destruct formed; [keeps|].
  apply keeps_bind; [keeps|]. intros _. exact IH.
Qed.

Lemma keeps_wait_for_membership env qq_host expected :
  forall fuel, keeps_docs (wait_for_membership env fuel qq_host expected).
Proof.
  induction fuel as [|fuel IH]; cbn [wait_for_membership]; [keeps|].
  apply keeps_bind; [keeps|]. intros [[all_nodes in_nodes] out_nodes].
  destruct (_ && _ && _)%nat; [keeps|].
  apply keeps_bind; [keeps|]. intros _. exact IH.
Qed.

Lemma keeps_get_node_ids env :
  forall ips acc, keeps_docs (get_node_ids env ips acc).
Proof.
  induction ips as [|ip rest IH]; intros acc; cbn [get_node_ids]; [keeps|].
  apply keeps_bind; [keeps|]. intros result.
  apply keeps_bind; [keeps|]. intros line. apply IH.
Qed.

Lemma keeps_check_old_nodes_removed old_node_ids :
  forall all_nodes, keeps_docs (check_old_nodes_removed all_nodes old_node_ids).
Proof.
  induction all_nodes as [|node_id rest IH]; cbn [check_old_nodes_removed]; [keeps|].
  destruct (mem node_id old_node_ids); [keeps|exact IH].
Qed.

Lemma keeps_check_buckets_empty env project :
  forall names, keeps_docs (check_buckets_empty env names project).
Proof.
  intros names w r w' H.
  destruct (check_buckets_empty_effect _ _ _ _ _ _ H) as (_ & _ & Hdb & _).
  apply same_docs_db, Hdb.
Qed.

Lemma keeps_set_qfsd_log_level env qq_host level :
  keeps_docs (set_qfsd_log_level env qq_host level).
Proof. unfold set_qfsd_log_level. keeps. Qed.

Lemma keeps_label_instances env config :
  forall ids i, keeps_docs (label_instances env config i ids).
Proof.
  induction ids as [|instance_id rest IH]; intros i; cbn [label_instances]; [keeps|].
  repeat (apply keeps_bind; [keeps|]; intros ?). apply IH.
Qed.

#[local] Hint Resolve keeps_wait_for_active_quorum keeps_wait_for_membership
  keeps_get_node_ids keeps_check_old_nodes_removed keeps_check_buckets_empty
  keeps_set_qfsd_log_level keeps_label_instances : keeps.

(** Decomposes a goal [writes_only config keys m] along the structure of
    [m]; a write must be to one of [keys]. *)
Ltac writes_step :=
  match goal with
  | |- writes_only _ _ (bind _ _) => apply writes_only_bind; [|intros ?]
  | |- writes_only _ _ (fs_put _ _ _ _) =>
      apply writes_only_fs_put; cbn; tauto
  | |- writes_only _ _ (put_list _ _ _ _) =>
      apply writes_only_put_list; cbn; tauto
  | |- writes_only _ _ (if ?c then _ else _) => destruct c
  | |- writes_only _ _ (match ?x with _ => _ end) => destruct x
  | |- writes_only _ _ _ => solve [apply writes_only_keeps; keeps]
  end.

Lemma writes_only_update_capacity_limit env fuel config qq_host keys :
  In "soft-capacity-limit" keys ->
  writes_only config keys (update_capacity_limit env fuel config qq_host).
Proof.
  intros Hin. unfold update_capacity_limit.
  repeat first [ apply writes_only_fs_put; exact Hin | writes_step ].
Qed.

(** The write sets of the node and bucket operations. *)
Lemma operations_write_keys_of env fuel config :
  (forall upgrade_ips,
     writes_only config node_keys (add_cluster_nodes env fuel config upgrade_ips))
  /\ writes_only config node_keys (remove_cluster_nodes env fuel config)
  /\ (forall qq_host,
        writes_only config ["bucket-uris"; "bucket-names"; "soft-capacity-limit"]
          (add_object_buckets env fuel config qq_host)).
Proof.
  split; [|split].
  - intros upgrade_ips. unfold add_cluster_nodes, node_keys. repeat writes_step.
  - unfold remove_cluster_nodes, node_keys. repeat writes_step.
  - intros qq_host. unfold add_object_buckets.
    repeat first
      [ apply writes_only_update_capacity_limit; cbn; tauto | writes_step ].
Qed.

(** X19. Each operation on an existing cluster writes only its own part
    of the current deployment's record, however it ends: adding and
    removing nodes write at most "node-ips", "fault-domain-ids" and
    "instance-ids"; the capacity increase writes at most
    "soft-capacity-limit"; the bucket addition writes at most
    "bucket-uris", "bucket-names" and "soft-capacity-limit"; labelling the
    instances writes nothing.  Status logs apart, every other document,
    and every record of another deployment, is as it was. *)
Theorem operations_write_their_keys
    (env : Env) (fuel : nat) (config : ProvisioningConfig) :
  (forall upgrade_ips,
     writes_only config node_keys (add_cluster_nodes env fuel config upgrade_ips))
  /\ writes_only config node_keys (remove_cluster_nodes env fuel config)
  /\ (forall qq_host,
        writes_only config ["soft-capacity-limit"]
          (update_capacity_limit env fuel config qq_host))
  /\ (forall qq_host,
        writes_only config ["bucket-uris"; "bucket-names"; "soft-capacity-limit"]
          (add_object_buckets env fuel config qq_host))
  /\ keeps_docs (update_instance_labels env config).
Proof.
  destruct (operations_write_keys_of env fuel config) as (Hadd & Hremove & Hbuckets).
  split; [exact Hadd|]. split; [exact Hremove|]. split; [|split; [exact Hbuckets|]].
  - intros qq_host. apply writes_only_update_capacity_limit. left. reflexivity.
  - unfold update_instance_labels. keeps.
Qed.

(* ===================================================================== *)
(** ** Numbers written to the record are read back *)
(* ===================================================================== *)











Lemma slice_to_length {A : Type} (items : list A) (n : Z) :
  (0 <= n)%Z -> (Z.of_nat (length (slice_to items n)) <= n)%Z.
Proof.
  intros Hn. unfold slice_to, slice_bound.
  destruct (Z.ltb_spec n 0); [lia|]. rewrite length_firstn. lia.
Qed.

Lemma Forall_slice_to {A : Type} (P : A -> Prop) (items : list A) (n : Z) :
  Forall P items -> Forall P (slice_to items n).
Proof. intros H. unfold slice_to. apply Forall_take, H. Qed.

(** The three node lists, as an operation leaves them in the record. *)
Lemma node_lists_recorded env config ips fault_ids ids w w' :
  (put_list env config "node-ips" ips ;;;
   put_list env config "fault-domain-ids" fault_ids ;;;
   put_list env config "instance-ids" ids) w = (Ok tt, w') ->
  persisted config w' "node-ips" None = serialize_list_for_firestore ips
  /\ persisted config w' "fault-domain-ids" None
     = serialize_list_for_firestore fault_ids
  /\ persisted config w' "instance-ids" None = serialize_list_for_firestore ids.
Proof.
  intros H.
  apply bind_ok_inv in H as ([] & w1 & H1 & H).
  apply bind_ok_inv in H as ([] & w2 & H2 & H3).
  apply put_list_ok in H1. apply put_list_ok in H2. apply put_list_ok in H3.
  split; [|split].
  - rewrite (persisted_put_other _ _ _ _ _ _ _ H3) by discriminate.
    rewrite (persisted_put_other _ _ _ _ _ _ _ H2) by discriminate.
    apply (persisted_put_same _ _ _ _ _ H1).
  - rewrite (persisted_put_other _ _ _ _ _ _ _ H3) by discriminate.
    apply (persisted_put_same _ _ _ _ _ H2).
  - apply (persisted_put_same _ _ _ _ _ H3).
Qed.

(** X20. When a membership change returns, the record holds the nodes of
    the cluster: after [add_cluster_nodes] the configured addresses, fault
    domains and instance ids; after [remove_cluster_nodes] their first
    [target_node_count] entries.  After a removal to a target that is not
    negative, the node list read back from the record is no longer than
    the target (for addresses the encoding can carry), so planning again
    does not ask for another removal. *)
Theorem node_records_after_membership_change
    (env : Env) (fuel : nat) (config : ProvisioningConfig) (w w' : World) :
  (forall upgrade_ips,
     add_cluster_nodes env fuel config upgrade_ips w = (Ok tt, w') ->
     persisted config w' "node-ips" None
     = serialize_list_for_firestore (node_ips config)
     /\ persisted config w' "fault-domain-ids" None
        = serialize_list_for_firestore (fault_domain_ids config)
     /\ persisted config w' "instance-ids" None
        = serialize_list_for_firestore (instance_ids config))
  /\ (remove_cluster_nodes env fuel config w = (Ok tt, w') ->
      let count := target_node_count config in
      persisted config w' "node-ips" None
      = serialize_list_for_firestore (slice_to (node_ips config) count)
      /\ persisted config w' "fault-domain-ids" None
         = serialize_list_for_firestore (slice_to (fault_domain_ids config) count)
      /\ persisted config w' "instance-ids" None
         = serialize_list_for_firestore (slice_to (instance_ids config) count)
      /\ ((0 <= count)%Z ->
          Forall (fun ip => encodable ip = true) (node_ips config) ->
          (Z.of_nat (length (deserialize_list_from_firestore
                               (persisted config w' "node-ips" None)))
           <= count)%Z)).
Proof.
  split.
  - intros upgrade_ips H. unfold add_cluster_nodes in H.
    do 4 (apply bind_ok_inv in H as (? & ? & _ & H)).
    apply (node_lists_recorded _ _ _ _ _ _ _ H).
  - intros H count. rewrite remove_cluster_nodes_view in H.
    apply bind_ok_inv in H as (removed & w1 & _ & H).
    unfold verify_then in H.
    apply bind_ok_inv in H as ([[all_nodes in_nodes] out_nodes] & w2 & _ & H).
    apply bind_ok_inv in H as ([] & w3 & _ & H).
    unfold removal_persisted in H.
    apply bind_ok_inv in H as ([] & w4 & _ & H).
    destruct (node_lists_recorded _ _ _ _ _ _ _ H) as (Hips & Hfault & Hids).
    fold count in Hips, Hfault, Hids.
    split; [exact Hips|]. split; [exact Hfault|]. split; [exact Hids|].
    intros Hcount Hall. rewrite Hips.
    set (remaining := slice_to (node_ips config) count).
    assert (Hlen : (Z.of_nat (length remaining) <= count)%Z)
      by (apply slice_to_length, Hcount).
    destruct (decide (remaining = [""])) as [E1|N1];
      [rewrite E1; cbn; lia|].
    destruct (decide (remaining = ["null"])) as [E2|N2];
      [rewrite E2; cbn; lia|].
    rewrite decode_encode; [exact Hlen| |exact N1|exact N2].
    apply Forall_slice_to, Hall.
Qed.

(** The third node of the three-node cluster is removed. *)
Lemma node_records_after_membership_change_witness :
  let env := env_of (healthy "1, 2") in
  let w := world_of (cluster_record "deploy-b" "1099511627776") in
  let w' := snd (remove_cluster_nodes env 3 (three_nodes 2) w) in
  remove_cluster_nodes env 3 (three_nodes 2) w = (Ok tt, w')
  /\ (0 <= target_node_count (three_nodes 2))%Z
  /\ Forall (fun ip => encodable ip = true) (node_ips (three_nodes 2))
  /\ persisted (three_nodes 2) w' "node-ips" None = "10.0.0.1,10.0.0.2"
  /\ (Z.of_nat (length (deserialize_list_from_firestore
                          (persisted (three_nodes 2) w' "node-ips" None)))
      <= 2)%Z.
Proof.
  intros env w w'.
  assert (Hrun : remove_cluster_nodes env 3 (three_nodes 2) w = (Ok tt, w'))
    by (vm_compute; reflexivity).
  assert (Hcount : (0 <= target_node_count (three_nodes 2))%Z) by (cbn; lia).
  assert (Hall : Forall (fun ip => encodable ip = true) (node_ips (three_nodes 2)))
    by (repeat constructor).
  pose proof (proj2 (node_records_after_membership_change env 3 (three_nodes 2) w w')
                Hrun) as (Hips & _ & _ & Hlen).
  split; [exact Hrun|]. split; [exact Hcount|]. split; [exact Hall|].
  split; [exact Hips|]. exact (Hlen Hcount Hall).
Defined.

(* ===================================================================== *)
(** ** The guards of the operations *)
(* ===================================================================== *)

Lemma never_hangs_check_buckets_empty env project :
  forall names, never_hangs (check_buckets_empty env names project).
Proof.
  induction names as [|b rest IH]; cbn [check_buckets_empty]; [auto with ends|].
  apply never_hangs_bind; [auto with ends|]. intros result.
  destruct (PyStr.nonempty _); [auto with ends|exact IH].
Qed.

(** A listed bucket that shows an object stops the check. *)
Lemma check_buckets_empty_refuses env project names bucket_name w :
  In bucket_name names ->
  (forall t, lists_an_object
               (shell env t ("gcloud " +:+ bucket_list_cmd bucket_name project))
             = true) ->
  exists e w' checked,
    check_buckets_empty env names project w = (Raise e, w')
    /\ is_command_failure e
    /\ checked `prefix_of` names
    /\ trace w' = trace w ++ map (bucket_listing project) checked
    /\ db w' = db w.
Proof.
  intros Hin Hfull.
  destruct (check_buckets_empty env names project w) as [r w'] eqn:Hcheck.
  destruct (check_buckets_empty_effect _ _ _ _ _ _ Hcheck)
    as (checked & Hpre & Hdb & Htr & Hok).
  destruct r as [[]|e|].
  - destruct (Hok eq_refl) as [_ Hall].
    apply list_elem_of_In, list_elem_of_lookup in Hin as [k Hk].
    specialize (Hall k bucket_name Hk). rewrite Hfull in Hall. discriminate.
  - exists e, w', checked. split; [reflexivity|].
    split; [eapply check_buckets_empty_raises, Hcheck|]. auto.
  - exfalso. eapply never_hangs_check_buckets_empty, Hcheck.
Qed.

(** X22. [add_object_buckets] guards the cluster like cluster creation
    does: with the store reachable, if a configured bucket that the
    persisted bucket names lack shows an object whenever it is listed,
    the operation raises.  At that point the database is as before and
    the only interactions have been reads of the store and bucket
    listings: the buckets have not been added to the cluster. *)
Theorem add_buckets_refuses_non_empty_bucket
    (env : Env) (fuel : nat) (config : ProvisioningConfig) (qq_host : string)
    (w : World) (bucket_name : string) :
  store_reachable env -> names_store config = true ->
  In bucket_name (bucket_names config) ->
  ~ In bucket_name
      (deserialize_list_from_firestore
         (persisted config w "bucket-names" (diff_source config))) ->
  (forall t, lists_an_object
               (shell env t ("gcloud " +:+ bucket_list_cmd bucket_name (project config)))
             = true) ->
  exists e w' events,
    add_object_buckets env fuel config qq_host w = (Raise e, w')
    /\ is_command_failure e
    /\ db w' = db w
    /\ trace w' = trace w ++ events
    /\ Forall (is_guard_event (project config)) events.
Proof.
  intros Hreach Hnames Hin Hnew Hfull.
  assert (Hreads : exists uris w2 events,
            (if replace_cluster config then
               let* names := get_list env config "bucket-names"
                               (existing_deployment_name config) in
               let* uris := get_list env config "bucket-uris"
                              (existing_deployment_name config) in
               ret (names, uris)
             else
               let* names := get_list env config "bucket-names" None in
               let* uris := get_list env config "bucket-uris" None in
               ret (names, uris)) w
            = (Ok (deserialize_list_from_firestore
                     (persisted config w "bucket-names" (diff_source config)),
                   uris), w2)
            /\ db w2 = db w /\ trace w2 = trace w ++ events
            /\ Forall is_store_read events).
  { unfold diff_source. destruct (replace_cluster config).
    - destruct (get_list_reads env config "bucket-names"
                  (existing_deployment_name config) w Hreach Hnames eq_refl)
        as (wa & Ha & Hdba & _).
      destruct (get_list_reads env config "bucket-uris"
                  (existing_deployment_name config) wa Hreach Hnames eq_refl)
        as (wb & Hb & Hdbb & _).
      destruct (emits_get_list _ _ _ _ _ _ _ Ha) as (ev1 & Ht1 & Hp1).
      destruct (emits_get_list _ _ _ _ _ _ _ Hb) as (ev2 & Ht2 & Hp2).
      eexists _, wb, (ev1 ++ ev2).
      rewrite (bind_ok _ _ _ _ _ Ha), (bind_ok _ _ _ _ _ Hb).
      split; [reflexivity|]. split; [congruence|].
      split; [rewrite Ht2, Ht1, <- app_assoc; reflexivity|].
      apply Forall_app. split; assumption.
    - destruct (get_list_reads env config "bucket-names" None w Hreach Hnames eq_refl)
        as (wa & Ha & Hdba & _).
      destruct (get_list_reads env config "bucket-uris" None wa Hreach Hnames eq_refl)
        as (wb & Hb & Hdbb & _).
      destruct (emits_get_list _ _ _ _ _ _ _ Ha) as (ev1 & Ht1 & Hp1).
      destruct (emits_get_list _ _ _ _ _ _ _ Hb) as (ev2 & Ht2 & Hp2).
      eexists _, wb, (ev1 ++ ev2).
      rewrite (bind_ok _ _ _ _ _ Ha), (bind_ok _ _ _ _ _ Hb).
      split; [reflexivity|]. split; [congruence|].
      split; [rewrite Ht2, Ht1, <- app_assoc; reflexivity|].
      apply Forall_app. split; assumption. }
  destruct Hreads as (uris & w2 & events & Hread & Hdb2 & Ht2 & Hp2).
  set (names := deserialize_list_from_firestore
                  (persisted config w "bucket-names" (diff_source config))) in *.
  assert (Hlisted : In bucket_name (not_in names (bucket_names config)))
    by (apply not_in_In; split; assumption).
  destruct (check_buckets_empty_refuses env (project config) _ bucket_name w2
              Hlisted Hfull) as (e & w' & checked & Hcheck & He & _ & Ht & Hdb).
  exists e, w', (events ++ map (bucket_listing (project config)) checked).
  split.
  - unfold add_object_buckets. rewrite (bind_ok _ _ _ _ _ Hread).
    apply bind_raise. exact Hcheck.
  - split; [exact He|]. split; [congruence|].
    split; [rewrite Ht, Ht2, <- app_assoc; reflexivity|].
    apply Forall_app. split.
    + eapply Forall_impl; [exact Hp2|]. intros ev Hev. left. exact Hev.
    + apply Forall_map, Forall_forall. intros b _. right. exists b. reflexivity.
Qed.

(** The second bucket of the replacement holds an object. *)
Lemma add_buckets_refuses_non_empty_bucket_witness :
  let in_use := fun (t : nat) (cmd : string) =>
    if PyStr.contains "gs://bucket-2" cmd then Exited 0 "gs://bucket-2/data.bin"
    else healthy "" t cmd in
  let env := env_of in_use in
  let w := world_of (cluster_record "deploy-a" "1099511627776") in
  In "bucket-2" (bucket_names (replacing config))
  /\ ~ In "bucket-2"
        (deserialize_list_from_firestore
           (persisted (replacing config) w "bucket-names"
              (diff_source (replacing config))))
  /\ (forall t, lists_an_object
                  (shell env t ("gcloud " +:+ bucket_list_cmd "bucket-2"
                                               (project (replacing config))))
                = true)
  /\ exists e w' events,
       add_object_buckets env 3 (replacing config) "10.0.0.1" w = (Raise e, w')
       /\ is_command_failure e
       /\ db w' = db w
       /\ trace w' = trace w ++ events
       /\ Forall (is_guard_event (project (replacing config))) events.
Proof.
  intros in_use env w.
  assert (Hin : In "bucket-2" (bucket_names (replacing config)))
    by (right; left; reflexivity).
  assert (Hnew : ~ In "bucket-2"
                     (deserialize_list_from_firestore
                        (persisted (replacing config) w "bucket-names"
                           (diff_source (replacing config)))))
    by (vm_compute; intuition discriminate).
  assert (Hfull : forall t, lists_an_object
                    (shell env t ("gcloud " +:+ bucket_list_cmd "bucket-2"
                                                 (project (replacing config))))
                  = true)
    by (intros t; vm_compute; reflexivity).
  split; [exact Hin|]. split; [exact Hnew|]. split; [exact Hfull|].
  exact (add_buckets_refuses_non_empty_bucket env 3 (replacing config) "10.0.0.1" w
           "bucket-2" (env_of_reachable _) eq_refl Hin Hnew Hfull).
Defined.

Lemma unknown_storage_type (storage_type : string) :
  ~ In storage_type known_storage_types ->
  get_storage_product_type storage_type
  = Raise (ProvisioningError ("Unknown storage type: " +:+ storage_type)).
Proof.
  intros Hnot. unfold get_storage_product_type.
  repeat match goal with
         | |- context [String.eqb storage_type ?known] =>
             destruct (String.eqb_spec storage_type known) as [->|_];
             [exfalso; apply Hnot; cbn; tauto|]
         end.
  reflexivity.
Qed.

(** X23. A storage type other than the four known ones forms no cluster:
    [create_new_cluster] lists the target buckets and then raises
    [ProvisioningError] "Unknown storage type: ...", unless the listing
    itself failed first.  Either way the database is as before and the
    only commands run are bucket listings. *)
Theorem create_refuses_unknown_storage_type
    (env : Env) (apply_initial_floating_ips : ProvisioningConfig -> string -> M unit)
    (fuel : nat) (config : ProvisioningConfig) (admin_password : string)
    (w : World) :
  ~ In (cluster_persistent_storage_type config) known_storage_types ->
  exists e w' checked,
    create_new_cluster env apply_initial_floating_ips fuel config admin_password w
    = (Raise e, w')
    /\ (e = ProvisioningError
              ("Unknown storage type: " +:+ cluster_persistent_storage_type config)
        /\ checked = bucket_names config
        \/ check_buckets_empty env (bucket_names config) (project config) w
           = (Raise e, w'))
    /\ checked `prefix_of` bucket_names config
    /\ trace w' = trace w ++ map (bucket_listing (project config)) checked
    /\ db w' = db w.
Proof.
  intros Hunknown. unfold create_new_cluster.
  destruct (check_buckets_empty env (bucket_names config) (project config) w)
    as [r w'] eqn:Hcheck.
  destruct (check_buckets_empty_effect _ _ _ _ _ _ Hcheck)
    as (checked & Hpre & Hdb & Htr & Hok).
  destruct r as [[]|e|].
  - destruct (Hok eq_refl) as [-> _].
    exists (ProvisioningError
              ("Unknown storage type: " +:+ cluster_persistent_storage_type config)),
           w', (bucket_names config).
    rewrite (bind_ok _ _ _ _ _ Hcheck).
    rewrite (unknown_storage_type _ Hunknown).
    split; [reflexivity|]. split; [left; split; reflexivity|]. auto.
  - exists e, w', checked. rewrite (bind_raise _ _ _ _ _ Hcheck).
    split; [reflexivity|]. split; [right; reflexivity|]. auto.
  - exfalso. eapply never_hangs_check_buckets_empty, Hcheck.
Qed.

(** A deployment configured with the storage type "hot_gcs_nearline". *)
Lemma create_refuses_unknown_storage_type_witness :
  let env := env_of (healthy "") in
  let nearline := {|
    cluster_name := cluster_name config; admin_password := admin_password config;
    project := project config; region := region config; zone := zone config;
    gcs_bucket := gcs_bucket config; subnet_cidr := subnet_cidr config;
    node_ips := node_ips config; node1_ip := node1_ip config;
    fault_domain_ids := fault_domain_ids config;
    instance_ids := instance_ids config;
    target_node_count := target_node_count config;
    number_azs := number_azs config;
    cluster_persistent_storage_type := "hot_gcs_nearline";
    bucket_names := bucket_names config; bucket_uris := bucket_uris config;
    capacity_limit := capacity_limit config; floating_ips := floating_ips config;
    cluster_secrets_name := cluster_secrets_name config;
    storage_deployment_name := storage_deployment_name config;
    deployment_unique_name := deployment_unique_name config;
    existing_deployment_name := existing_deployment_name config;
    functions_gcs_prefix := functions_gcs_prefix config;
    install_gcs_prefix := install_gcs_prefix config;
    qumulo_package_url := qumulo_package_url config;
    tun_refill_iops := tun_refill_iops config;
    tun_refill_bps := tun_refill_bps config;
    tun_disk_count := tun_disk_count config; flash_tput := flash_tput config;
    flash_iops := flash_iops config; replace_cluster := replace_cluster config;
    dev_environment := dev_environment config;
    def_password := def_password config |} in
  ~ In (cluster_persistent_storage_type nearline) known_storage_types
  /\ exists e w' checked,
       create_new_cluster env no_floating_ips 3 nearline "pw" (world_of [])
       = (Raise e, w')
       /\ (e = ProvisioningError "Unknown storage type: hot_gcs_nearline"
           /\ checked = bucket_names nearline
           \/ check_buckets_empty env (bucket_names nearline) (project nearline)
                (world_of []) = (Raise e, w'))
       /\ checked `prefix_of` bucket_names nearline
       /\ trace w' = trace (world_of [])
                     ++ map (bucket_listing (project nearline)) checked
       /\ db w' = db (world_of []).
Proof.
  intros env nearline.
  assert (Hunknown : ~ In (cluster_persistent_storage_type nearline)
                         known_storage_types)
    by (cbn; intuition discriminate).
  split; [exact Hunknown|].
  exact (create_refuses_unknown_storage_type env no_floating_ips 3 nearline "pw"
           (world_of []) Hunknown).
Defined.

(* --------------------------------------------------------------------- *)
(** *** Labelling the instances *)
(* --------------------------------------------------------------------- *)

Lemma never_hangs_index {A : Type} (items : list A) (i : nat) :
  never_hangs (lift (index items i)).
Proof.
  apply never_hangs_lift. unfold index. destruct (nth_error items i); discriminate.
Qed.

Lemma never_hangs_label_instances env config :
  forall ids i, never_hangs (label_instances env config i ids).
Proof.
  induction ids as [|instance_id rest IH]; intros i; cbn [label_instances];
    [auto with ends|].
  unfold first_line_with.
  repeat (apply never_hangs_bind;
          [first [apply never_hangs_index | auto with ends]|]; intros ?).
  apply IH.
Qed.

Lemma label_instances_needs_addresses env config :
  forall ids i w w',
    i <= length (node_ips config) ->
    length (node_ips config) < i + length ids ->
    label_instances env config i ids w <> (Ok tt, w').
Proof.
  induction ids as [|instance_id rest IH]; intros i w w' Hi Hlen H.
  - cbn [length] in Hlen. lia.
  - cbn [label_instances] in H.
    apply bind_ok_inv in H as (node_ip & w1 & Hip & H).
    assert (Hlt : i < length (node_ips config)).
    { unfold lift, index in Hip.
      destruct (nth_error (node_ips config) i) eqn:Hnth; [|discriminate].
      apply nth_error_Some. congruence. }
    do 4 (apply bind_ok_inv in H as (? & ? & _ & H)).
    apply (IH (S i) _ _) in H; [exact H|lia|]. cbn [length] in Hlen. lia.
Qed.

(** X24. Labelling needs an address for every instance: when the
    configuration lists more instance ids than node addresses,
    [update_instance_labels] never returns normally; it ends by an
    exception ([IndexError] at the first instance without an address, if
    nothing failed before), and it writes no document. *)
Theorem labels_need_addresses
    (env : Env) (config : ProvisioningConfig) (w : World)
    (r : result unit) (w' : World) :
  length (node_ips config) < length (instance_ids config) ->
  update_instance_labels env config w = (r, w') ->
  (exists e, r = Raise e) /\ same_docs w w'.
Proof.
  intros Hlen H. split.
  - destruct r as [[]|e|]; [exfalso|eauto|exfalso].
    + unfold update_instance_labels in H.
      apply bind_ok_inv in H as ([] & w1 & _ & H).
      apply label_instances_needs_addresses in H; [exact H|lia|lia].
    + revert H. unfold update_instance_labels.
      apply never_hangs_bind; [auto with ends|]. intros _.
      apply never_hangs_label_instances.
  - revert H. apply keeps_bind; [keeps|]. intros _. apply keeps_label_instances.
Qed.

(** Four instances on three addresses: the first three are labelled, the
    fourth has no address. *)
Lemma labels_need_addresses_witness :
  let env := env_of (healthy "") in
  let four_instances :=
    with_nodes (node_ips config) (fault_domain_ids config)
      ["101"; "102"; "103"; "104"] 3 config in
  length (node_ips four_instances) < length (instance_ids four_instances)
  /\ fst (update_instance_labels env four_instances (world_of [])) = Raise IndexError
  /\ (exists e, Raise IndexError = @Raise unit e)
  /\ same_docs (world_of [])
       (snd (update_instance_labels env four_instances (world_of []))).
Proof.
  intros env four_instances.
  assert (Hlen : length (node_ips four_instances)
                 < length (instance_ids four_instances)) by (cbn; lia).
  assert (Hrun : update_instance_labels env four_instances (world_of [])
                 = (Raise IndexError,
                    snd (update_instance_labels env four_instances (world_of []))))
    by (vm_compute; reflexivity).
  split; [exact Hlen|]. split; [rewrite Hrun; reflexivity|].
  exact (labels_need_addresses env four_instances (world_of []) _ _ Hlen Hrun).
Defined.

(* ===================================================================== *)
(** ** Environment setup and the entry point *)
(* ===================================================================== *)

(** [chkurl] never fails: it answers what its command printed, and [False]
    when the command did not end in time. *)
Lemma chkurl_answer env url no_sec w :
  chkurl env url no_sec w
  = (Ok (url_ok (shell env (tick w) (chkurl_cmd url no_sec))),
     log_event (Run (chkurl_cmd url no_sec)) w).
Proof.
  unfold chkurl, try_except_Exception, bind, run_command, url_ok.
  destruct (shell env (tick w) (chkurl_cmd url no_sec)) as [rc out|]; reflexivity.
Qed.

Lemma keeps_chkurl env url no_sec : keeps_docs (chkurl env url no_sec).
Proof.
  intros w r w' H. rewrite chkurl_answer in H. inversion H; subst.
  apply same_docs_db. reflexivity.
Qed.

#[local] Hint Resolve keeps_chkurl : keeps.

Lemma keeps_validate_connectivity env config :
  keeps_docs (validate_connectivity env config).
Proof. unfold validate_connectivity. keeps. Qed.

(** X25. The MQ check is hard and the internet check is soft.  When the
    check of the MQ endpoint does not see a 200, [validate_connectivity]
    raises [ProvisioningError] ("MQ not reachable", when the status
    update before it succeeds).  When it does, and the store is
    reachable, [validate_connectivity] returns whatever the check of
    google.com says.  It writes to no document other than the status
    log. *)
Theorem connectivity_gate
    (env : Env) (config : ProvisioningConfig) (w : World)
    (r : result unit) (w' : World) :
  validate_connectivity env config w = (r, w') ->
  let mq_up := url_ok (shell env (tick w) (chkurl_cmd mq_url false)) in
  same_docs w w'
  /\ (mq_up = false ->
      exists msg,
        r = Raise (ProvisioningError msg)
        /\ (store_reachable env -> names_store config = true ->
            msg = "MQ not reachable"))
  /\ (mq_up = true -> store_reachable env -> names_store config = true ->
      r = Ok tt).
Proof.
  intros H mq_up. split; [eapply keeps_validate_connectivity, H|].
  unfold validate_connectivity in H. unfold bind at 1 in H. unfold bind at 1 in H.
  rewrite chkurl_answer in H. fold mq_url in H. fold mq_up in H.
  destruct mq_up; (split; [intros Hup|intros Hup Hreach Hnames]); try discriminate.
  - destruct (update_status_reachable env config "BOOTED. MQ up for metrics."
                (log_event (Run (chkurl_cmd mq_url false)) w) Hreach Hnames eq_refl)
      as (w1 & Hs1 & _).
    rewrite Hs1 in H. unfold bind at 1 in H. unfold sleep at 1 in H.
    unfold bind at 1 in H. unfold bind at 1 in H. rewrite chkurl_answer in H.
    match type of H with
    | context [if ?c then _ else _] => destruct c
    end.
    + match type of H with
      | context [update_status env config ?s ?w0] =>
          destruct (update_status_reachable env config s w0 Hreach Hnames eq_refl)
            as (w2 & Hs2 & _)
      end.
      rewrite Hs2 in H. inversion H. reflexivity.
    + match type of H with
      | context [update_status env config ?s ?w0] =>
          destruct (update_status_reachable env config s w0 Hreach Hnames eq_refl)
            as (w2 & Hs2 & _)
      end.
      rewrite Hs2 in H. inversion H. reflexivity.
  - match type of H with
    | context [bind (update_status env config ?s) _ ?w0] =>
        destruct (update_status env config s w0) as [r1 w1] eqn:Hs1;
        destruct (update_status_outcome _ _ _ _ _ _ Hs1) as [-> | (msg & ->)];
        [ rewrite (bind_ok _ _ _ _ _ Hs1) in H
        | rewrite (bind_raise _ _ _ _ _ Hs1) in H ]
    end.
    + inversion H; subst. exists "MQ not reachable". split; reflexivity.
    + inversion H; subst. exists msg. split; [reflexivity|].
      intros Hreach Hnames.
      match type of Hs1 with
      | update_status env config ?s ?w0 = _ =>
          destruct (update_status_reachable env config s w0 Hreach Hnames eq_refl)
            as (w2 & Hs2 & _)
      end.
      rewrite Hs2 in Hs1. discriminate.
Qed.

(** The MQ endpoint is down: the deployment aborts.  Google is down: the
    deployment goes on. *)
Lemma connectivity_gate_witness :
  let no_mq := env_of (url_down mq_url (healthy "")) in
  let no_internet := env_of (url_down "https://google.com" (healthy "")) in
  (validate_connectivity no_mq config (world_of [])
   = (Raise (ProvisioningError "MQ not reachable"),
      snd (validate_connectivity no_mq config (world_of [])))
   /\ url_ok (shell no_mq (tick (world_of [])) (chkurl_cmd mq_url false)) = false)
  /\ validate_connectivity no_internet config (world_of [])
     = (Ok tt, snd (validate_connectivity no_internet config (world_of [])))
  /\ url_ok (shell no_internet (tick (world_of [])) (chkurl_cmd mq_url false)) = true
  /\ same_docs (world_of [])
       (snd (validate_connectivity no_internet config (world_of []))).
Proof.
  intros no_mq no_internet.
  assert (Hrun1 : validate_connectivity no_mq config (world_of [])
                  = (Raise (ProvisioningError "MQ not reachable"),
                     snd (validate_connectivity no_mq config (world_of []))))
    by (vm_compute; reflexivity).
  assert (Hrun2 : validate_connectivity no_internet config (world_of [])
                  = (Ok tt, snd (validate_connectivity no_internet config (world_of []))))
    by (vm_compute; reflexivity).
  split; [split; [exact Hrun1|vm_compute; reflexivity]|].
  split; [exact Hrun2|]. split; [vm_compute; reflexivity|].
  exact (proj1 (connectivity_gate no_internet config (world_of []) _ _ Hrun2)).
Defined.

(* --------------------------------------------------------------------- *)
(** *** The status log at the start of a run *)
(* --------------------------------------------------------------------- *)

(** [initialize_and_validate] is: initialise the status log, then the
    checks. *)
Lemma initialize_view env fuel config w :
  initialize_and_validate env fuel config w
  = bind (let* last_run_status := fs_get env config "last-run-status" None in
          if String.eqb last_run_status "null"
          then update_status env config "null"
          else ret tt)
      (fun _ => initialize_checks env fuel config) w.
Proof. unfold initialize_and_validate, initialize_checks. reassociate. Qed.

(** X26. Every run logs the status "null" first.  The marker field of
    the status log reads "null" (and status updates keep it so); with the
    store reachable, [initialize_and_validate] reads it, takes the log for
    a new one and writes the status "null" under the label of the time,
    beside the fields the log already has, before it goes on to its
    checks. *)
Theorem run_starts_with_null_status
    (env : Env) (fuel : nat) (config : ProvisioningConfig) (w : World) :
  store_reachable env -> names_store config = true ->
  persisted config w "last-run-status" None = "null" ->
  exists w1,
    initialize_and_validate env fuel config w = initialize_checks env fuel config w1
    /\ tick w1 = tick w + 7
    /\ db w1
       = <[status_path config :=
             <[status_field_key (clock env (tick w + 2)) := StringValue "null"]>
               (default {[ "last-run-status" := StringValue "null" ]}
                  (db w !! status_path config))]> (db w)
    /\ persisted config w1 "last-run-status" None = "null".
Proof.
  intros Hreach Hnames Hmarker.
  destruct (fs_get_reads env config "last-run-status" None w Hreach Hnames eq_refl)
    as (w0 & Hget & Hdb0 & Htick0).
  destruct (update_status_reachable env config "null" w0 Hreach Hnames eq_refl)
    as (w1 & Hstatus & Hdb1 & Htick1).
  exists w1. rewrite initialize_view.
  split.
  - unfold bind at 1. unfold bind at 1. rewrite Hget, Hmarker.
    rewrite String.eqb_refl, Hstatus. reflexivity.
  - split; [lia|]. split; [rewrite Hdb1, Hdb0, Htick0; reflexivity|].
    unfold persisted, stored_text in *. cbn [deployment_or_current] in *.
    fold (record_path config "last-run-status") in *.
    fold (status_path config) in *. rewrite Hdb1, Hdb0, lookup_insert_eq.
    unfold field_text.
    rewrite lookup_insert_ne by apply status_field_key_not_marker.
    destruct (db w !! status_path config); [exact Hmarker|reflexivity].
Qed.

(** A run on a deployment whose log already holds a status. *)
Lemma run_starts_with_null_status_witness :
  let env := env_of (healthy "") in
  let w := world_of status_log in
  persisted config w "last-run-status" None = "null"
  /\ exists w1,
       initialize_and_validate env 3 config w = initialize_checks env 3 config w1
       /\ tick w1 = tick w + 7
       /\ db w1
          = <[status_path config :=
                <["Jul_17_123456" := StringValue "null"]>
                  (default {[ "last-run-status" := StringValue "null" ]}
                     (db w !! status_path config))]> (db w)
       /\ persisted config w1 "last-run-status" None = "null".
Proof.
  intros env w.
  assert (Hmarker : persisted config w "last-run-status" None = "null")
    by (vm_compute; reflexivity).
  split; [exact Hmarker|].
  exact (run_starts_with_null_status env 3 config w (env_of_reachable _) eq_refl
           Hmarker).
Defined.

(* --------------------------------------------------------------------- *)
(** *** The entry point reports its failures *)
(* --------------------------------------------------------------------- *)

Lemma make_request_unreachable env path method data w :
  store_unreachable env ->
  exists w', _make_request env path method data w = (Ok None, w') /\ db w' = db w.
Proof.
  intros Hoff. unfold _make_request, bind, _get_access_token.
  destruct (match shell env (tick w) access_token_cmd with
            | Exited rc out => if (rc =? 0)%Z then Some (PyStr.strip out) else None
            | TimedOut => None
            end) as [[|c s]|]; cbn [ret]; eauto.
  unfold send_request. rewrite Hoff. eauto.
Qed.

Lemma update_status_unreachable env config status w :
  store_unreachable env -> names_store config = true ->
  PyStr.nonempty status = true ->
  exists w',
    update_status env config status w
    = (Raise (ProvisioningError ("Failed to put Firestore status: " +:+ status)), w')
    /\ db w' = db w.
Proof.
  intros Hoff Hnames Hstatus.
  destruct (names_store_gettoken config w Hnames) as (token & Htok & Hne).
  unfold update_status. rewrite (bind_ok _ _ _ _ _ Htok).
  unfold names_store in Hnames.
  apply andb_true_iff in Hnames as [Hnames Hc].
  apply andb_true_iff in Hnames as [Hp Hd].
  unfold put_status_with_timestamp. rewrite Hp, Hd, Hc, Hne, Hstatus.
  cbn [andb negb].
  unfold bind at 1. unfold bind at 1. unfold datetime_now at 1.
  unfold bind at 1.
  match goal with
  | |- context [_make_request env ?p GET None ?w0] =>
      destruct (make_request_unreachable env p GET None w0 Hoff) as (w1 & -> & Hdb1)
  end.
  unfold bind at 1.
  match goal with
  | |- context [_make_request env ?p PATCH ?d ?w0] =>
      destruct (make_request_unreachable env p PATCH d w0 Hoff) as (w2 & -> & Hdb2)
  end.
  cbn [ret]. rewrite bool_decide_false by (intros Hne'; apply Hne'; reflexivity).
  cbn [negb raise]. eexists. split; [reflexivity|]. rewrite Hdb2, Hdb1. reflexivity.
Qed.

Lemma fs_get_unreachable env config key deployment_name w :
  store_unreachable env -> names_store config = true ->
  exists w',
    fs_get env config key deployment_name w = (Ok "null", w') /\ db w' = db w.
Proof.
  intros Hoff Hnames.
  destruct (names_store_gettoken config w Hnames) as (token & Htok & Hne).
  unfold fs_get. rewrite (bind_ok _ _ _ _ _ Htok). unfold get_document.
  destruct (negb _); [cbn; eauto|].
  unfold bind at 1.
  match goal with
  | |- context [_make_request env ?p GET None ?w0] =>
      destruct (make_request_unreachable env p GET None w0 Hoff) as (w1 & -> & Hdb1)
  end.
  cbn [ret]. eauto.
Qed.

(** X27. A failed run is reported, when it can be.  With the store
    reachable, when the steps of [provision] raise an exception,
    [provision] writes "ERROR: " and the text of the exception to the
    status log and raises the same exception.  With the store
    unreachable, a run fails at its first status update, the report of
    that failure fails too, and the exception [provision] ends with is
    the one of the failed report; the database is untouched. *)
Theorem failed_run_is_reported
    (env : Env)
    (apply_initial_floating_ips maybe_update_floating_ips
       : ProvisioningConfig -> string -> M unit)
    (value_error_text : string) (fuel : nat) (config : ProvisioningConfig)
    (w : World) :
  names_store config = true ->
  (store_reachable env ->
   forall e wb,
     provision_steps env apply_initial_floating_ips maybe_update_floating_ips
       fuel config w = (Raise e, wb) ->
     exists w',
       provision env apply_initial_floating_ips maybe_update_floating_ips
         value_error_text fuel config w = (Raise e, w')
       /\ db w'
          = <[status_path config :=
                <[status_field_key (clock env (tick wb)) :=
                    StringValue ("ERROR: " +:+ str_exn value_error_text e)]>
                  (default {[ "last-run-status" := StringValue "null" ]}
                     (db wb !! status_path config))]> (db wb))
  /\ (store_unreachable env ->
      exists w',
        provision env apply_initial_floating_ips maybe_update_floating_ips
          value_error_text fuel config w
        = (Raise (ProvisioningError
                    "Failed to put Firestore status: ERROR: Failed to put Firestore status: null"),
           w')
        /\ db w' = db w).
Proof.
  intros Hnames. split.
  - intros Hreach e wb Hsteps.
    destruct (update_status_reachable env config
                ("ERROR: " +:+ str_exn value_error_text e) wb Hreach Hnames eq_refl)
      as (w' & Hstatus & Hdb & _).
    exists w'. split; [|exact Hdb].
    unfold provision, try_except_Exception.
    change (provision_steps env apply_initial_floating_ips maybe_update_floating_ips
              fuel config w = (Raise e, wb)) in Hsteps.
    unfold provision_steps in Hsteps. rewrite Hsteps.
    rewrite (bind_ok _ _ _ _ _ Hstatus). reflexivity.
  - intros Hoff.
    destruct (fs_get_unreachable env config "last-run-status" None w Hoff Hnames)
      as (w0 & Hget & Hdb0).
    destruct (update_status_unreachable env config "null" w0 Hoff Hnames eq_refl)
      as (w1 & Hfirst & Hdb1).
    assert (Hsteps : provision_steps env apply_initial_floating_ips
                       maybe_update_floating_ips fuel config w
                     = (Raise (ProvisioningError
                                 "Failed to put Firestore status: null"), w1)).
    { unfold provision_steps. apply bind_raise. rewrite initialize_view.
      apply bind_raise. rewrite (bind_ok _ _ _ _ _ Hget). exact Hfirst. }
    destruct (update_status_unreachable env config
                "ERROR: Failed to put Firestore status: null" w1 Hoff Hnames eq_refl)
      as (w2 & Hreport & Hdb2).
    exists w2. split; [|congruence].
    unfold provision, try_except_Exception.
    unfold provision_steps in Hsteps. rewrite Hsteps.
    cbn [str_exn]. apply bind_raise. exact Hreport.
Qed.

(** A run whose MQ check fails, with the store reachable; and any run
    with the store unreachable. *)
Lemma failed_run_is_reported_witness :
  let env := env_of (url_down mq_url (healthy "")) in
  let w := world_of [] in
  let wb := snd (provision_steps env no_floating_ips no_floating_ips 3 config w) in
  provision_steps env no_floating_ips no_floating_ips 3 config w
  = (Raise (ProvisioningError "MQ not reachable"), wb)
  /\ (exists w',
        provision env no_floating_ips no_floating_ips "" 3 config w
        = (Raise (ProvisioningError "MQ not reachable"), w')
        /\ db w'
           = <[status_path config :=
                 <["Jul_17_123456" := StringValue "ERROR: MQ not reachable"]>
                   (default {[ "last-run-status" := StringValue "null" ]}
                      (db wb !! status_path config))]> (db wb))
  /\ store_unreachable env_offline
  /\ exists w',
       provision env_offline no_floating_ips no_floating_ips "" 3 config w
       = (Raise (ProvisioningError
                   "Failed to put Firestore status: ERROR: Failed to put Firestore status: null"),
          w')
       /\ db w' = db w.
Proof.
  intros env w wb.
  assert (Hsteps : provision_steps env no_floating_ips no_floating_ips 3 config w
                   = (Raise (ProvisioningError "MQ not reachable"), wb))
    by (vm_compute; reflexivity).
  assert (Hoff : store_unreachable env_offline) by (intros t; reflexivity).
  split; [exact Hsteps|]. split.
  - exact (proj1 (failed_run_is_reported env no_floating_ips no_floating_ips "" 3
                    config w eq_refl) (env_of_reachable _) _ _ Hsteps).
  - split; [exact Hoff|].
    exact (proj2 (failed_run_is_reported env_offline no_floating_ips no_floating_ips
                    "" 3 config w eq_refl) Hoff).
Defined.

(* ===================================================================== *)
(** ** What a plan lets the executor write *)
(* ===================================================================== *)

Lemma writes_only_more config keys keys' {A : Type} (m : M A) :
  (forall key, In key keys -> In key keys') ->
  writes_only config keys m -> writes_only config keys' m.
Proof.
  intros Hsub Hm w r w' H path Hstatus Hkeys.
  apply (Hm _ _ _ H path Hstatus). intros key Hin. apply Hkeys, Hsub, Hin.
Qed.

(** X28. On an existing cluster the executor writes what the plan asks
    for and nothing else.  When the floating-IP procedure writes at most
    "float-ips" and "floating-ip-count", carrying out a plan without
    [new_cluster] writes, status logs apart, at most those two documents
    of the current deployment's record, the node lists if nodes are added
    or removed, the capacity limit if it is increased or buckets are
    added, and the bucket lists if buckets are added; so a plan with no
    operation leaves the record of the cluster as it is, however the run
    ends. *)
Theorem executor_writes_the_plan
    (env : Env)
    (apply_initial_floating_ips maybe_update_floating_ips
       : ProvisioningConfig -> string -> M unit)
    (fuel : nat) (config : ProvisioningConfig) (admin_password : string)
    (flags : OperationFlags) :
  new_cluster flags = false ->
  (forall c qq_host,
     writes_only config float_keys (maybe_update_floating_ips c qq_host)) ->
  writes_only config (plan_keys flags)
    (execute_cluster_operations env apply_initial_floating_ips
       maybe_update_floating_ips fuel config admin_password flags).
Proof.
  intros Hnew Hfloat.
  pose proof (operations_write_keys_of env fuel config) as (Hadd & Hremove & Hbuckets).
  unfold execute_cluster_operations, plan_keys. rewrite Hnew.
  destruct (add_nodes flags), (remove_nodes flags), (increase_limit flags),
    (add_buckets flags); cbn [orb app];
    repeat first
      [ eapply writes_only_more; [|apply Hfloat]; cbn; tauto
      | eapply writes_only_more; [|apply Hadd]; cbn; tauto
      | eapply writes_only_more; [|apply Hremove]; cbn; tauto
      | eapply writes_only_more; [|apply Hbuckets]; cbn; tauto
      | apply writes_only_update_capacity_limit; cbn; tauto
      | apply writes_only_keeps; unfold update_instance_labels; solve [keeps]
      | writes_step ].
Qed.

(** The plan with no operation, on a deployment without floating IPs. *)
Lemma executor_writes_the_plan_witness :
  new_cluster no_operations = false
  /\ (forall c qq_host, writes_only config float_keys (no_floating_ips c qq_host))
  /\ writes_only config float_keys
       (execute_cluster_operations (env_of (healthy "1, 2, 3")) no_floating_ips
          no_floating_ips 3 config "pw" no_operations).
Proof.
  assert (Hfloat : forall c qq_host,
            writes_only config float_keys (no_floating_ips c qq_host)).
  { intros c qq_host. apply writes_only_keeps. unfold no_floating_ips. keeps. }
  split; [reflexivity|]. split; [exact Hfloat|].
  exact (executor_writes_the_plan (env_of (healthy "1, 2, 3")) no_floating_ips
           no_floating_ips 3 config "pw" no_operations eq_refl Hfloat).
Defined.

(* ===================================================================== *)
(** ** Replacement needs the record of the prior deployment *)
(* ===================================================================== *)

(** X29. A replacement without the record of the prior deployment stops
    before it touches a cluster.  With the store reachable, when the
    prior deployment's record lacks "node-ips" or "instance-ids" (or
    holds the text "null" there), [replace_existing_cluster] raises
    [ProvisioningError] "Cannot find existing cluster information for
    replacement"; with the store unreachable it raises the same, since
    every read answers "null".  In both cases it has only read the store,
    twice, and the database is as before. *)
Theorem replace_needs_prior_record
    (env : Env) (maybe_update_floating_ips : ProvisioningConfig -> string -> M unit)
    (fuel : nat) (config : ProvisioningConfig) (admin_password : string)
    (w : World) :
  names_store config = true ->
  (store_reachable env
   /\ (persisted config w "node-ips" (existing_deployment_name config) = "null"
       \/ persisted config w "instance-ids" (existing_deployment_name config)
          = "null"))
  \/ store_unreachable env ->
  exists w' events,
    replace_existing_cluster env maybe_update_floating_ips fuel config
      admin_password w
    = (Raise (ProvisioningError no_prior_record_msg), w')
    /\ db w' = db w
    /\ trace w' = trace w ++ events
    /\ Forall is_store_read events.
Proof.
  intros Hnames Hcase.
  assert (Hreads : exists ips_str ids_str wa wb,
            fs_get env config "node-ips" (existing_deployment_name config) w
            = (Ok ips_str, wa)
            /\ fs_get env config "instance-ids" (existing_deployment_name config) wa
               = (Ok ids_str, wb)
            /\ db wb = db w
            /\ (String.eqb ips_str "null" || String.eqb ids_str "null") = true).
  { destruct Hcase as [[Hreach Hmissing]|Hoff].
    - destruct (fs_get_reads env config "node-ips" (existing_deployment_name config)
                  w Hreach Hnames eq_refl) as (wa & Ha & Hdba & _).
      destruct (fs_get_reads env config "instance-ids"
                  (existing_deployment_name config) wa Hreach Hnames eq_refl)
        as (wb & Hb & Hdbb & _).
      eexists _, _, wa, wb. split; [exact Ha|]. split; [exact Hb|].
      split; [congruence|].
      rewrite (persisted_db config w wa _ _ Hdba).
      destruct Hmissing as [-> | ->]; [reflexivity|apply orb_true_r].
    - destruct (fs_get_unreachable env config "node-ips"
                  (existing_deployment_name config) w Hoff Hnames)
        as (wa & Ha & Hdba).
      destruct (fs_get_unreachable env config "instance-ids"
                  (existing_deployment_name config) wa Hoff Hnames)
        as (wb & Hb & Hdbb).
      eexists _, _, wa, wb. split; [exact Ha|]. split; [exact Hb|].
      split; [congruence|reflexivity]. }
  destruct Hreads as (ips_str & ids_str & wa & wb & Ha & Hb & Hdb & Hnull).
  destruct (emits_fs_get _ _ _ _ _ _ _ Ha) as (ev1 & Ht1 & Hp1).
  destruct (emits_fs_get _ _ _ _ _ _ _ Hb) as (ev2 & Ht2 & Hp2).
  exists wb, (ev1 ++ ev2). split.
  - unfold replace_existing_cluster.
    rewrite (bind_ok _ _ _ _ _ Ha), (bind_ok _ _ _ _ _ Hb), Hnull. reflexivity.
  - split; [exact Hdb|]. split; [rewrite Ht2, Ht1, <- app_assoc; reflexivity|].
    apply Forall_app. split; assumption.
Qed.

(** The replacement of a deployment deploy-a that has no record. *)
Lemma replace_needs_prior_record_witness :
  let env := env_of (healthy "") in
  let w := world_of [] in
  persisted (replacing config) w "node-ips"
    (existing_deployment_name (replacing config)) = "null"
  /\ exists w' events,
       replace_existing_cluster env no_floating_ips 3 (replacing config) "pw" w
       = (Raise (ProvisioningError no_prior_record_msg), w')
       /\ db w' = db w
       /\ trace w' = trace w ++ events
       /\ Forall is_store_read events.
Proof.
  intros env w.
  assert (Hmissing : persisted (replacing config) w "node-ips"
                       (existing_deployment_name (replacing config)) = "null")
    by (vm_compute; reflexivity).
  split; [exact Hmissing|].
  apply (replace_needs_prior_record env no_floating_ips 3 (replacing config) "pw" w
           eq_refl).
  left. split; [apply env_of_reachable|]. left. exact Hmissing.
Defined.

(* ===================================================================== *)
(** ** Waiting for the nodes to boot *)
(* ===================================================================== *)

Lemma tick_getqq env ip file_name w r w' :
  getqq env ip file_name w = (r, w') -> tick w <= tick w'.
Proof.
  unfold getqq. intros H.
  apply bind_inv in H as [(a & w1 & H1 & H)|[(e & H1 & _)|[H1 _]]];
    apply run_command_effect in H1; subst; [|rewrite tick_log_event; lia..].
  apply bind_inv in H as [(b & w2 & H2 & H)|[(e & H2 & _)|[H2 _]]];
    apply run_command_effect in H2; subst; [|rewrite !tick_log_event; lia..].
  inversion H; subst. rewrite !tick_log_event. lia.
Qed.

(** [wait_for_url] returns only after a check of the URL saw a 200. *)
Lemma wait_for_url_ok env url :
  forall fuel w w',
    wait_for_url env fuel url w = (Ok tt, w') ->
    exists t, tick w <= t < tick w'
              /\ url_ok (shell env t (chkurl_cmd url true)) = true.
Proof.
  induction fuel as [|fuel IH]; intros w w' H; [discriminate|].
  cbn [wait_for_url] in H. unfold bind at 1 in H. rewrite chkurl_answer in H.
  destruct (url_ok (shell env (tick w) (chkurl_cmd url true))) eqn:Hup.
  - inversion H; subst. exists (tick w). rewrite tick_log_event.
    split; [lia|exact Hup].
  - unfold bind at 1, sleep at 1 in H. apply IH in H as (t & Ht & Hok).
    exists t. rewrite !tick_log_event in Ht. split; [lia|exact Hok].
Qed.

Lemma wait_for_each_node_ok env fuel config :
  forall ips i w w',
    wait_for_each_node env fuel config i ips w = (Ok tt, w') ->
    tick w <= tick w'
    /\ Forall (fun node_ip =>
                 exists t, tick w <= t < tick w'
                           /\ url_ok (shell env t
                                        (chkurl_cmd (node_state_url node_ip) true))
                              = true) ips.
Proof.
  induction ips as [|node_ip rest IH]; intros i w w' H.
  - inversion H; subst. split; [lia|constructor].
  - cbn [wait_for_each_node] in H.
    apply bind_ok_inv in H as ([] & w1 & Hstatus & H).
    apply bind_ok_inv in H as ([] & w2 & Hwait & H).
    apply bind_ok_inv in H as ([] & w3 & Hqq & H).
    assert (H1 : tick w <= tick w1).
    { destruct (i =? 1)%nat; [|inversion Hstatus; subst; lia].
      eapply tick_emits; [apply emits_update_status|exact Hstatus]. }
    assert (H3 : tick w2 <= tick w3).
    { destruct (i =? 0)%nat; [|inversion Hqq; subst; lia].
      eapply tick_getqq, Hqq. }
    apply wait_for_url_ok in Hwait as (t & Ht & Hok).
    apply IH in H as (H4 & Hrest). split; [lia|]. constructor.
    + exists t. split; [lia|exact Hok].
    + eapply Forall_impl; [exact Hrest|]. intros ip (t' & Ht' & Hok').
      exists t'. split; [lia|exact Hok'].
Qed.

Lemma raises_only_untimed_command env cmd check :
  raises_only is_ProvisioningError (run_command env cmd None check).
Proof.
  intros w e w' H. unfold run_command in H.
  destruct (shell env (tick w) cmd) as [rc out|]; [|discriminate].
  destruct (check && negb (rc =? 0)%Z); inversion H; subst. eexists. reflexivity.
Qed.

Lemma raises_only_status_update env config status :
  raises_only is_ProvisioningError (update_status env config status).
Proof.
  intros w e w' H. apply update_status_outcome in H as [H|(msg & H)];
    [discriminate|]. inversion H. eexists. reflexivity.
Qed.

Lemma raises_only_wait_for_url env url :
  forall fuel, raises_only is_ProvisioningError (wait_for_url env fuel url).
Proof.
  induction fuel as [|fuel IH]; intros w e w' H; [discriminate|].
  cbn [wait_for_url] in H. unfold bind at 1 in H. rewrite chkurl_answer in H.
  destruct (url_ok _); [discriminate|].
  unfold bind at 1, sleep at 1 in H. eapply IH, H.
Qed.

Lemma raises_only_wait_for_each_node env fuel config :
  forall ips i,
    raises_only is_ProvisioningError (wait_for_each_node env fuel config i ips).
Proof.
  induction ips as [|node_ip rest IH]; intros i; cbn [wait_for_each_node];
    [apply raises_only_ret|].
  apply raises_only_bind.
  { destruct (i =? 1)%nat; [apply raises_only_status_update|apply raises_only_ret]. }
  intros _. apply raises_only_bind; [apply raises_only_wait_for_url|].
  intros _. apply raises_only_bind; [|intros _; apply IH].
  destruct (i =? 0)%nat; [|apply raises_only_ret]. unfold getqq.
  repeat (apply raises_only_bind; [apply raises_only_untimed_command|]; intros ?).
  apply raises_only_ret.
Qed.

(** X30. [wait_for_nodes_ready] returns only when every node has booted:
    for each configured address, a check of its node-state URL made
    during the wait saw a 200.  A check that fails, or that does not end
    in time, is repeated after five seconds and never reported: the only
    exception the wait raises is the [ProvisioningError] of a status
    update or of the download of [qq]. *)
Theorem nodes_ready_when_returned
    (env : Env) (fuel : nat) (config : ProvisioningConfig) (w w' : World) :
  (wait_for_nodes_ready env fuel config w = (Ok tt, w') ->
   Forall (fun node_ip =>
             exists t, tick w <= t < tick w'
                       /\ url_ok (shell env t
                                    (chkurl_cmd (node_state_url node_ip) true))
                          = true)
     (node_ips config))
  /\ raises_only is_ProvisioningError (wait_for_nodes_ready env fuel config).
Proof.
  unfold wait_for_nodes_ready. split.
  - intros H.
    apply bind_ok_inv in H as ([] & w1 & Hstatus & H).
    pose proof (tick_emits _ _ _ _ _ (emits_update_status env config _) Hstatus) as H1.
    apply wait_for_each_node_ok in H as (_ & Hall).
    eapply Forall_impl; [exact Hall|]. intros ip (t & Ht & Hok).
    exists t. split; [lia|exact Hok].
  - apply raises_only_bind; [apply raises_only_status_update|].
    intros _. apply raises_only_wait_for_each_node.
Qed.

(** The three nodes of the example deployment answer at once. *)
Lemma nodes_ready_when_returned_witness :
  let env := env_of (url_down "https://example.invalid" (healthy "")) in
  let w := world_of [] in
  let w' := snd (wait_for_nodes_ready env 3 config w) in
  wait_for_nodes_ready env 3 config w = (Ok tt, w')
  /\ Forall (fun node_ip =>
               exists t, tick w <= t < tick w'
                         /\ url_ok (shell env t
                                      (chkurl_cmd (node_state_url node_ip) true))
                            = true)
       (node_ips config).
Proof.
  intros env w w'.
  assert (Hrun : wait_for_nodes_ready env 3 config w = (Ok tt, w'))
    by (vm_compute; reflexivity).
  split; [exact Hrun|].
  exact (proj1 (nodes_ready_when_returned env 3 config w w') Hrun).
Defined.
